(** * The configuration persistence and session core of simple-video-player

    A shallow embedding of the storage facade (Database), its three
    adapters (SQLAdapter, PgAdapter, KVAdapter), the DSN parser, the
    configuration service of the Express server and its token checks,
    with the properties the specification states about them.

    JavaScript values are modelled by their JSON image ([Json.json]),
    strings by byte strings, numbers by integers. *)

From Stdlib Require Import ZArith List String Ascii Bool Lia Decimal DecimalN DecimalFacts.
From stdpp Require Import base option list strings gmap.
Import ListNotations.
Local Open Scope string_scope.
Local Open Scope list_scope.

Definition chars : Type := list ascii.

(** * JSON.parse and JSON.stringify

    The values are null, booleans, integers, strings, arrays and objects
    (members in insertion order). A number with a fraction or an exponent
    is outside this fragment and [JSON_parse] refuses it; an integer is
    kept as it is written, which is the number JavaScript makes of it up
    to 2^53. Strings are byte strings: an escape \uXXXX is read as the
    UTF-8 bytes of its code point, and the escape of a surrogate is
    refused. What is stated about a string handed to JSON.parse is stated
    for the texts of this fragment. *)
Module Json.

#[local] Set Warnings "-register-all".

Inductive json : Type :=
| JNull
| JBool (b : bool)
| JNum (n : Z)
| JStr (s : string)
| JArr (items : list json)
| JObj (members : list (string * json)).

Definition dquote : ascii := "034"%char.

Definition is_ws (c : ascii) : bool :=
  match c with
  | " "%char | "009"%char | "010"%char | "013"%char => true
  | _ => false
  end.

Fixpoint skip_ws (s : chars) : chars :=
  match s with
  | c :: r => if is_ws c then skip_ws r else s
  | [] => []
  end.

(** ** Numbers: decimal digits, no leading zero *)

Fixpoint uint_chars (d : uint) : chars :=
  match d with
  | Nil => []
  | D0 d => "0"%char :: uint_chars d
  | D1 d => "1"%char :: uint_chars d
  | D2 d => "2"%char :: uint_chars d
  | D3 d => "3"%char :: uint_chars d
  | D4 d => "4"%char :: uint_chars d
  | D5 d => "5"%char :: uint_chars d
  | D6 d => "6"%char :: uint_chars d
  | D7 d => "7"%char :: uint_chars d
  | D8 d => "8"%char :: uint_chars d
  | D9 d => "9"%char :: uint_chars d
  end.

Definition digit_of (c : ascii) : option (uint -> uint) :=
  match c with
  | "0"%char => Some D0 | "1"%char => Some D1 | "2"%char => Some D2
  | "3"%char => Some D3 | "4"%char => Some D4 | "5"%char => Some D5
  | "6"%char => Some D6 | "7"%char => Some D7 | "8"%char => Some D8
  | "9"%char => Some D9 | _ => None
  end.

Fixpoint read_uint (s : chars) : uint * chars :=
  match s with
  | c :: r =>
      match digit_of c with
      | Some k => let (d, r') := read_uint r in (k d, r')
      | None => (Nil, s)
      end
  | [] => (Nil, [])
  end.

Definition starts_with_digit (s : chars) : bool :=
  match s with
  | c :: _ => match digit_of c with Some _ => true | None => false end
  | [] => false
  end.

Definition Z_chars (n : Z) : chars :=
  match n with
  | Zneg p => "-"%char :: uint_chars (N.to_uint (Npos p))
  | _ => uint_chars (N.to_uint (Z.to_N n))
  end.

Definition read_nat_literal (s : chars) : option (N * chars) :=
  let (d, r) := read_uint s in
  if uint_beq (unorm d) d then Some (N.of_uint d, r) else None.

(** ** Strings and their escapes *)

Definition hex_digit (n : N) : ascii :=
  match n with
  | 0 => "0" | 1 => "1" | 2 => "2" | 3 => "3" | 4 => "4" | 5 => "5"
  | 6 => "6" | 7 => "7" | 8 => "8" | 9 => "9" | 10 => "a" | 11 => "b"
  | 12 => "c" | 13 => "d" | 14 => "e" | _ => "f"
  end%N%char.

Definition hex_value (c : ascii) : option N :=
  let code := N_of_ascii c in
  (if (48 <=? code) && (code <=? 57) then Some (code - 48)          (* 0-9 *)
   else if (97 <=? code) && (code <=? 102) then Some (code - 87)    (* a-f *)
   else if (65 <=? code) && (code <=? 70) then Some (code - 55)     (* A-F *)
   else None)%N.

Definition escape_char (c : ascii) : chars :=
  match c with
  | "034" => ["\"; dquote]
  | "\" => ["\"; "\"]
  | "008" => ["\"; "b"]
  | "012" => ["\"; "f"]
  | "010" => ["\"; "n"]
  | "013" => ["\"; "r"]
  | "009" => ["\"; "t"]
  | _ =>
      let n := N_of_ascii c in
      if (n <? 32)%N
      then ["\"; "u"; "0"; "0"; hex_digit (n / 16); hex_digit (n mod 16)]
      else [c]
  end%char.

Definition quote_chars (s : chars) : chars :=
  dquote :: flat_map escape_char s ++ [dquote].

Definition unescape_char (c : ascii) : option ascii :=
  match c with
  | "034" => Some dquote
  | "\" => Some "\"
  | "/" => Some "/"
  | "b" => Some "008"
  | "f" => Some "012"
  | "n" => Some "010"
  | "r" => Some "013"
  | "t" => Some "009"
  | _ => None
  end%char.

(** The UTF-8 bytes of a code point of the basic plane. *)
Definition utf8_bytes (cp : N) : option chars :=
  if (cp <? 128)%N then Some [ascii_of_N cp]
  else if (cp <? 2048)%N then
    Some [ascii_of_N (192 + cp / 64); ascii_of_N (128 + cp mod 64)]
  else if ((55296 <=? cp) && (cp <? 57344))%N then None
  else Some [ascii_of_N (224 + cp / 4096);
             ascii_of_N (128 + (cp / 64) mod 64);
             ascii_of_N (128 + cp mod 64)].

Definition hex4 (a b c d : ascii) : option N :=
  match hex_value a, hex_value b, hex_value c, hex_value d with
  | Some x, Some y, Some z, Some w => Some (((x * 16 + y) * 16 + z) * 16 + w)%N
  | _, _, _, _ => None
  end.

Fixpoint read_string (s : chars) : option (chars * chars) :=
  match s with
  | [] => None
  | c :: r =>
      if Ascii.eqb c dquote then Some ([], r)
      else if Ascii.eqb c "\" then
        match r with
        | "u"%char :: h1 :: h2 :: h3 :: h4 :: r' =>
            match hex4 h1 h2 h3 h4 with
            | Some cp =>
                match utf8_bytes cp, read_string r' with
                | Some bs, Some (str, rest) => Some (bs ++ str, rest)
                | _, _ => None
                end
            | None => None
            end
        | e :: r' =>
            match unescape_char e, read_string r' with
            | Some ch, Some (str, rest) => Some (ch :: str, rest)
            | _, _ => None
            end
        | [] => None
        end
      else if (N_of_ascii c <? 32)%N then None
      else
        match read_string r with
        | Some (str, rest) => Some (c :: str, rest)
        | None => None
        end
  end.

Lemma read_string_escape (c : ascii) (rest : chars) :
  read_string (escape_char c ++ rest) =
  match read_string rest with
  | Some (str, r) => Some (c :: str, r)
  | None => None
  end.
Proof.
  destruct c as [[] [] [] [] [] [] [] []]; cbn; reflexivity.
Qed.

Lemma read_string_quote (s rest : chars) :
  read_string (flat_map escape_char s ++ dquote :: rest) = Some (s, rest).
Proof.
  induction s as [|c s IH]; [reflexivity|].
  cbn [flat_map]. rewrite <- app_assoc, read_string_escape, IH. reflexivity.
Qed.

(** ** The printer of JSON.stringify and the parser of JSON.parse *)

Definition print_elems (pr : json -> chars) : list json -> chars :=
  fix elems (l : list json) : chars :=
    match l with
    | [] => ["]"%char]
    | [x] => pr x ++ ["]"%char]
    | x :: l' => pr x ++ ","%char :: elems l'
    end.

Definition print_member (pr : json -> chars) (m : string * json) : chars :=
  quote_chars (list_ascii_of_string (fst m)) ++ ":"%char :: pr (snd m).

Definition print_members (pr : json -> chars) : list (string * json) -> chars :=
  fix mems (l : list (string * json)) : chars :=
    match l with
    | [] => ["}"%char]
    | [m] => print_member pr m ++ ["}"%char]
    | m :: l' => print_member pr m ++ ","%char :: mems l'
    end.

Fixpoint print (v : json) : chars :=
  match v with
  | JNull => ["n"; "u"; "l"; "l"]%char
  | JBool true => ["t"; "r"; "u"; "e"]%char
  | JBool false => ["f"; "a"; "l"; "s"; "e"]%char
  | JNum n => Z_chars n
  | JStr s => quote_chars (list_ascii_of_string s)
  | JArr items => "["%char :: print_elems print items
  | JObj members => "{"%char :: print_members print members
  end.

Definition read_number (s : chars) : option (Z * chars) :=
  match s with
  | c :: r =>
      if Ascii.eqb c "-" then
        match read_nat_literal r with
        | Some (n, r') => Some (Z.opp (Z.of_N n), r')
        | None => None
        end
      else
        match read_nat_literal s with
        | Some (n, r') => Some (Z.of_N n, r')
        | None => None
        end
  | [] => None
  end.

Fixpoint strip_prefix (p s : chars) : option chars :=
  match p, s with
  | [], _ => Some s
  | a :: p', b :: s' => if Ascii.eqb a b then strip_prefix p' s' else None
  | _ :: _, [] => None
  end.

Definition read_literal (word : chars) (v : json) (s : chars) : option (json * chars) :=
  match strip_prefix word s with
  | Some r => Some (v, r)
  | None => None
  end.

Definition next_is (c : ascii) (s : chars) : option chars :=
  match skip_ws s with
  | c' :: r => if Ascii.eqb c' c then Some r else None
  | [] => None
  end.

Fixpoint parse_value (fuel : nat) (s : chars) {struct fuel} : option (json * chars) :=
  match fuel with
  | O => None
  | S f =>
      match skip_ws s with
      | [] => None
      | c :: r =>
          if Ascii.eqb c "n" then read_literal ["u"; "l"; "l"]%char JNull r
          else if Ascii.eqb c "t" then read_literal ["r"; "u"; "e"]%char (JBool true) r
          else if Ascii.eqb c "f" then read_literal ["a"; "l"; "s"; "e"]%char (JBool false) r
          else if Ascii.eqb c dquote then
            match read_string r with
            | Some (str, r') => Some (JStr (string_of_list_ascii str), r')
            | None => None
            end
          else if Ascii.eqb c "[" then
            match next_is "]" r with
            | Some r' => Some (JArr [], r')
            | None =>
                match parse_elems f r with
                | Some (l, r') => Some (JArr l, r')
                | None => None
                end
            end
          else if Ascii.eqb c "{" then
            match next_is "}" r with
            | Some r' => Some (JObj [], r')
            | None =>
                match parse_members f r with
                | Some (l, r') => Some (JObj l, r')
                | None => None
                end
            end
          else
            match read_number (c :: r) with
            | Some (n, r') => Some (JNum n, r')
            | None => None
            end
      end
  end
with parse_elems (fuel : nat) (s : chars) {struct fuel} : option (list json * chars) :=
  match fuel with
  | O => None
  | S f =>
      match parse_value f s with
      | Some (v, r) =>
          match next_is "," r with
          | Some r' =>
              match parse_elems f r' with
              | Some (l, r'') => Some (v :: l, r'')
              | None => None
              end
          | None =>
              match next_is "]" r with
              | Some r' => Some ([v], r')
              | None => None
              end
          end
      | None => None
      end
  end
with parse_members (fuel : nat) (s : chars) {struct fuel}
  : option (list (string * json) * chars) :=
  match fuel with
  | O => None
  | S f =>
      match next_is dquote s with
      | Some r =>
          match read_string r with
          | Some (k, r1) =>
              match next_is ":" r1 with
              | Some r2 =>
                  match parse_value f r2 with
                  | Some (v, r3) =>
                      match next_is "," r3 with
                      | Some r4 =>
                          match parse_members f r4 with
                          | Some (l, r5) => Some ((string_of_list_ascii k, v) :: l, r5)
                          | None => None
                          end
                      | None =>
                          match next_is "}" r3 with
                          | Some r4 => Some ([(string_of_list_ascii k, v)], r4)
                          | None => None
                          end
                      end
                  | None => None
                  end
              | None => None
              end
          | None => None
          end
      | None => None
      end
  end.

Definition JSON_stringify (v : json) : string := string_of_list_ascii (print v).

Definition JSON_parse (text : string) : option json :=
  let s := list_ascii_of_string text in
  match parse_value (S (List.length s)) s with
  | Some (v, r) => match skip_ws r with [] => Some v | _ :: _ => None end
  | None => None
  end.


Fixpoint need (v : json) : nat :=
  match v with
  | JArr items => S (list_sum (List.map (fun x => S (need x)) items))
  | JObj members => S (list_sum (List.map (fun m => S (need (snd m))) members))
  | _ => 1
  end.

Lemma json_ind' (P : json -> Prop) :
  P JNull -> (forall b, P (JBool b)) -> (forall n, P (JNum n)) ->
  (forall s, P (JStr s)) ->
  (forall items, List.Forall P items -> P (JArr items)) ->
  (forall members, List.Forall (fun m => P (snd m)) members -> P (JObj members)) ->
  forall v, P v.
Proof.
  intros Hnull Hbool Hnum Hstr Harr Hobj.
  fix IH 1. intros [ | b | n | s | items | members ].
  - exact Hnull.
  - apply Hbool.
  - apply Hnum.
  - apply Hstr.
  - apply Harr. induction items as [|x l IHl]; constructor; [apply IH | exact IHl].
  - apply Hobj. induction members as [|[k x] l IHl]; constructor; [apply IH | exact IHl].
Qed.

Lemma read_uint_chars (d : uint) (rest : chars) :
  starts_with_digit rest = false ->
  read_uint (uint_chars d ++ rest) = (d, rest).
Proof.
  intros Hrest. induction d; cbn; try (rewrite IHd; reflexivity).
  destruct rest as [|c r]; [reflexivity|].
  cbn in Hrest. cbn. destruct (digit_of c); [discriminate|reflexivity].
Qed.

Lemma uint_beq_refl (d : uint) : uint_beq d d = true.
Proof. induction d; cbn; auto. Qed.

Lemma unorm_to_uint (n : N) : unorm (N.to_uint n) = N.to_uint n.
Proof.
  rewrite <- (DecimalN.Unsigned.of_to n) at 2.
  symmetry. apply DecimalN.Unsigned.to_of.
Qed.

Lemma read_nat_literal_chars (n : N) (rest : chars) :
  starts_with_digit rest = false ->
  read_nat_literal (uint_chars (N.to_uint n) ++ rest) = Some (n, rest).
Proof.
  intros Hrest. unfold read_nat_literal.
  rewrite (read_uint_chars _ _ Hrest), unorm_to_uint, uint_beq_refl.
  now rewrite DecimalN.Unsigned.of_to.
Qed.

Definition number_start (c : ascii) : bool :=
  Ascii.eqb c "-" || match digit_of c with Some _ => true | None => false end.

Lemma uint_chars_head (n : N) :
  exists c tl, uint_chars (N.to_uint n) = c :: tl /\
               match digit_of c with Some _ => true | None => false end = true.
Proof.
  assert (H : N.to_uint n <> Nil).
  { intros E. pose proof (unorm_to_uint n) as U. rewrite E in U. discriminate U. }
  destruct (N.to_uint n); [congruence| | | | | | | | | | ]; cbn; eauto.
Qed.

Lemma read_number_chars (n : Z) (rest : chars) :
  starts_with_digit rest = false ->
  read_number (Z_chars n ++ rest) = Some (n, rest).
Proof.
  intros Hrest.
  assert (Hnonneg : forall m : N,
    read_number (uint_chars (N.to_uint m) ++ rest) = Some (Z.of_N m, rest)).
  { intros m. destruct (uint_chars_head m) as (c & tl & E & Hc).
    pose proof (read_nat_literal_chars m rest Hrest) as R.
    rewrite E in *. cbn [app read_number].
    assert (Ascii.eqb c "-" = false) as ->.
    { destruct (Ascii.eqb_spec c "-"); [subst; discriminate | reflexivity]. }
    cbn [app] in R. rewrite R. reflexivity. }
  destruct n as [|p|p].
  - apply (Hnonneg 0%N).
  - apply (Hnonneg (Npos p)).
  - cbn [Z_chars app read_number]. rewrite Ascii.eqb_refl.
    rewrite (read_nat_literal_chars (Npos p) rest Hrest). reflexivity.
Qed.

Lemma number_start_dispatch (c : ascii) :
  number_start c = true ->
  is_ws c = false /\ Ascii.eqb c "n" = false /\ Ascii.eqb c "t" = false /\
  Ascii.eqb c "f" = false /\ Ascii.eqb c dquote = false /\
  Ascii.eqb c "[" = false /\ Ascii.eqb c "{" = false /\ Ascii.eqb c "]" = false.
Proof.
  destruct c as [[] [] [] [] [] [] [] []]; cbn; intros H;
    try discriminate H; repeat split.
Qed.

Lemma Z_chars_head (n : Z) :
  exists c tl, Z_chars n = c :: tl /\ number_start c = true.
Proof.
  destruct n as [|p|p].
  - exists "0"%char, []. split; reflexivity.
  - destruct (uint_chars_head (Npos p)) as (c & tl & E & Hc).
    exists c, tl. split; [exact E|]. unfold number_start. rewrite Hc. apply orb_true_r.
  - eexists _, _. split; reflexivity.
Qed.

Definition value_start (c : ascii) : bool :=
  negb (is_ws c) && negb (Ascii.eqb c "]").

Lemma print_head (v : json) :
  exists c tl, print v = c :: tl /\ value_start c = true.
Proof.
  destruct v as [ | [] | n | s | items | members ];
    try (eexists _, _; split; reflexivity).
  destruct (Z_chars_head n) as (c & tl & E & Hc).
  exists c, tl. split; [exact E|].
  destruct (number_start_dispatch c Hc) as (W & _ & _ & _ & _ & _ & _ & B).
  unfold value_start. now rewrite W, B.
Qed.

Lemma next_is_value_start (v : json) (rest : chars) :
  next_is "]" (print v ++ rest) = None.
Proof.
  destruct (print_head v) as (c & tl & E & Hc). rewrite E. cbn [app].
  unfold value_start in Hc. apply andb_true_iff in Hc as [W B].
  apply negb_true_iff in W, B. unfold next_is. cbn [skip_ws]. now rewrite W, B.
Qed.

Lemma parse_value_number (f : nat) (n : Z) (rest : chars) :
  starts_with_digit rest = false ->
  parse_value (S f) (Z_chars n ++ rest) = Some (JNum n, rest).
Proof.
  intros Hrest. pose proof (read_number_chars n rest Hrest) as R.
  destruct (Z_chars_head n) as (c & tl & E & Hc). rewrite E in *.
  destruct (number_start_dispatch c Hc) as (W & E1 & E2 & E3 & E4 & E5 & E6 & _).
  cbn [app parse_value skip_ws] in *. rewrite W, E1, E2, E3, E4, E5, E6, R. reflexivity.
Qed.

Lemma parse_value_string (f : nat) (s : string) (rest : chars) :
  parse_value (S f) (quote_chars (list_ascii_of_string s) ++ rest) = Some (JStr s, rest).
Proof.
  unfold quote_chars. cbn [app parse_value skip_ws is_ws dquote].
  cbn. rewrite <- app_assoc. cbn [app].
  fold dquote. rewrite read_string_quote, string_of_list_ascii_of_string. reflexivity.
Qed.

Lemma list_sum_cons (a : nat) (l : list nat) : list_sum (a :: l) = a + list_sum l.
Proof. reflexivity. Qed.

Definition parses (v : json) : Prop :=
  forall (fuel : nat) (rest : chars),
    need v <= fuel -> starts_with_digit rest = false ->
    parse_value fuel (print v ++ rest) = Some (v, rest).

Lemma parse_elems_print (items : list json) :
  List.Forall parses items -> items <> [] ->
  forall (fuel : nat) (rest : chars),
    list_sum (List.map (fun x => S (need x)) items) <= fuel ->
    parse_elems fuel (print_elems print items ++ rest) = Some (items, rest).
Proof.
  induction 1 as [|x l Hx Hl IH]; [congruence|]. intros _ fuel rest Hfuel.
  cbn [List.map] in Hfuel. rewrite list_sum_cons in Hfuel.
  destruct fuel as [|f]; [lia|]. cbn [parse_elems].
  destruct l as [|y l'].
  - cbn [print_elems]. rewrite <- app_assoc. cbn [app].
    rewrite (Hx f) by (reflexivity || lia). reflexivity.
  - change (print_elems print (x :: y :: l'))
      with (print x ++ ","%char :: print_elems print (y :: l')).
    rewrite <- app_assoc. cbn [app].
    rewrite (Hx f) by (reflexivity || lia).
    change (next_is "," (","%char :: print_elems print (y :: l') ++ rest))
      with (Some (print_elems print (y :: l') ++ rest)).
    cbv iota beta. rewrite IH by (congruence || lia). reflexivity.
Qed.

Lemma parse_members_print (members : list (string * json)) :
  List.Forall (fun m => parses (snd m)) members -> members <> [] ->
  forall (fuel : nat) (rest : chars),
    list_sum (List.map (fun m => S (need (snd m))) members) <= fuel ->
    parse_members fuel (print_members print members ++ rest) = Some (members, rest).
Proof.
  induction 1 as [|[k x] l Hx Hl IH]; [congruence|]. intros _ fuel rest Hfuel.
  cbn [List.map snd] in Hfuel. rewrite list_sum_cons in Hfuel. cbn [snd] in Hx.
  destruct fuel as [|f]; [lia|]. cbn [parse_members].
  assert (Hkey : forall tail : chars,
    print_member print (k, x) ++ tail =
    dquote :: flat_map escape_char (list_ascii_of_string k) ++
      dquote :: ":"%char :: print x ++ tail).
  { intros tail. unfold print_member, quote_chars. cbn [fst snd app].
    rewrite <- !app_assoc. reflexivity. }
  destruct l as [|m l'].
  - cbn [print_members]. rewrite <- app_assoc, Hkey.
    change (next_is dquote (dquote :: ?t)) with (Some t).
    unfold next_is at 1. cbn [skip_ws is_ws dquote]. cbn.
    fold dquote. rewrite read_string_quote.
    change (next_is ":" (":"%char :: ?t)) with (Some t).
    unfold next_is at 1. cbn [skip_ws]. cbn.
    rewrite (Hx f) by (reflexivity || lia).
    rewrite string_of_list_ascii_of_string. reflexivity.
  - change (print_members print ((k, x) :: m :: l'))
      with (print_member print (k, x) ++ ","%char :: print_members print (m :: l')).
    rewrite <- app_assoc, Hkey.
    unfold next_is at 1. cbn [skip_ws]. cbn.
    fold dquote. rewrite read_string_quote.
    unfold next_is at 1. cbn [skip_ws]. cbn.
    rewrite (Hx f) by (reflexivity || lia).
    unfold next_is at 1. cbn [skip_ws]. cbn.
    rewrite IH by (congruence || lia).
    rewrite string_of_list_ascii_of_string. reflexivity.
Qed.

Lemma parse_value_array (f : nat) (r : chars) :
  parse_value (S f) ("["%char :: r) =
  match next_is "]" r with
  | Some r' => Some (JArr [], r')
  | None =>
      match parse_elems f r with
      | Some (l, r') => Some (JArr l, r')
      | None => None
      end
  end.
Proof. reflexivity. Qed.

Lemma parse_value_object (f : nat) (r : chars) :
  parse_value (S f) ("{"%char :: r) =
  match next_is "}" r with
  | Some r' => Some (JObj [], r')
  | None =>
      match parse_members f r with
      | Some (l, r') => Some (JObj l, r')
      | None => None
      end
  end.
Proof. reflexivity. Qed.

Lemma print_elems_cons (x : json) (l : list json) (rest : chars) :
  exists tail, print_elems print (x :: l) ++ rest = print x ++ tail.
Proof.
  destruct l as [|y l'].
  - exists ("]"%char :: rest). cbn [print_elems]. now rewrite <- app_assoc.
  - exists (","%char :: print_elems print (y :: l') ++ rest).
    change (print_elems print (x :: y :: l'))
      with (print x ++ ","%char :: print_elems print (y :: l')).
    now rewrite <- app_assoc.
Qed.

Lemma print_members_cons (m : string * json) (l : list (string * json)) (rest : chars) :
  exists tail, print_members print (m :: l) ++ rest = dquote :: tail.
Proof.
  destruct l as [|m' l']; eexists.
  - cbn [print_members]. unfold print_member, quote_chars. cbn [app]. reflexivity.
  - change (print_members print (m :: m' :: l'))
      with (print_member print m ++ ","%char :: print_members print (m' :: l')).
    unfold print_member, quote_chars. cbn [app]. reflexivity.
Qed.

Theorem parse_value_print (v : json) : parses v.
Proof.
  induction v as [ | b | n | s | items IH | members IH ] using json_ind';
    intros fuel rest Hfuel Hrest; (destruct fuel as [|f]; [cbn in Hfuel; lia|]).
  - reflexivity.
  - destruct b; reflexivity.
  - now apply parse_value_number.
  - apply parse_value_string.
  - cbn [need] in Hfuel. cbn [print app]. rewrite parse_value_array.
    destruct items as [|x l]; [reflexivity|].
    destruct (print_elems_cons x l rest) as [tail E].
    rewrite E, next_is_value_start, <- E.
    rewrite parse_elems_print by (assumption || congruence || lia). reflexivity.
  - cbn [need] in Hfuel. cbn [print app]. rewrite parse_value_object.
    destruct members as [|m l]; [reflexivity|].
    destruct (print_members_cons m l rest) as [tail E].
    rewrite E. change (next_is "}" (dquote :: tail)) with (@None chars).
    cbv iota. rewrite <- E.
    rewrite parse_members_print by (assumption || congruence || lia). reflexivity.
Qed.

Lemma need_le_length (v : json) : need v <= List.length (print v).
Proof.
  induction v as [ | b | n | s | items IH | members IH ] using json_ind'.
  - cbn. lia.
  - destruct b; cbn; lia.
  - destruct (Z_chars_head n) as (c & tl & E & _). cbn [need print]. rewrite E. cbn. lia.
  - cbn. lia.
  - cbn [need print List.length]. apply le_n_S.
    induction IH as [|x l Hx Hl IHl]; [cbn; lia|].
    cbn [List.map]. rewrite list_sum_cons.
    destruct l as [|y l'].
    + cbn [print_elems List.map list_sum fold_right]. rewrite length_app. cbn. lia.
    + change (print_elems print (x :: y :: l'))
        with (print x ++ ","%char :: print_elems print (y :: l')).
      rewrite length_app. cbn [List.length]. lia.
  - cbn [need print List.length]. apply le_n_S.
    induction IH as [|[k x] l Hx Hl IHl]; [cbn; lia|].
    cbn [List.map snd] in *. rewrite list_sum_cons.
    assert (Hm : S (need x) <= List.length (print_member print (k, x))).
    { unfold print_member, quote_chars. cbn [fst snd List.length].
      rewrite length_app. cbn [List.length]. lia. }
    destruct l as [|m l'].
    + cbn [print_members List.map list_sum fold_right]. rewrite length_app. cbn [List.length]. lia.
    + change (print_members print ((k, x) :: m :: l'))
        with (print_member print (k, x) ++ ","%char :: print_members print (m :: l')).
      rewrite length_app. cbn [List.length]. lia.
Qed.

Theorem JSON_parse_stringify (v : json) : JSON_parse (JSON_stringify v) = Some v.
Proof.
  unfold JSON_parse, JSON_stringify. rewrite list_ascii_of_string_of_list_ascii.
  rewrite <- (app_nil_r (print v)) at 2.
  rewrite parse_value_print; [reflexivity | | reflexivity].
  pose proof (need_le_length v). lia.
Qed.

Corollary JSON_stringify_inj (v w : json) :
  JSON_stringify v = JSON_stringify w -> v = w.
Proof.
  intros E. apply (f_equal JSON_parse) in E.
  rewrite !JSON_parse_stringify in E. congruence.
Qed.



Example parse_demo :
  JSON_parse "{ 'a' : [1, -20, true, null] }" = None /\
  JSON_parse " [1, -20, true , null, [], {} ] " =
    Some (JArr [JNum 1; JNum (-20); JBool true; JNull; JArr []; JObj []]).
Proof. vm_compute. auto. Qed.

Example stringify_demo :
  JSON_stringify (JObj [("a", JArr [JNum 1; JNum (-20)]); ("b", JStr "q\")]) =
  String "{" (String dquote ("a" +:+ String dquote (":[1,-20]," +:+ String dquote ("b" +:+
  String dquote (":" +:+ String dquote ("q\\" +:+ String dquote "}")))))).
Proof. vm_compute. reflexivity. Qed.

Example parse_stringify_demo :
  let v := JObj [("a", JArr [JNum 1; JNum (-20)]); ("b", JStr "q\"); ("c", JObj [("d", JNull)])] in
  JSON_parse (JSON_stringify v) = Some v.
Proof. vm_compute. reflexivity. Qed.

Example parse_bad : JSON_parse "007" = None /\ JSON_parse "abc" = None /\ JSON_parse "1 2" = None.
Proof. vm_compute. auto. Qed.

End Json.

(** * Base64, as [Buffer.from(bytes).toString('base64')] writes it *)
Module Base64.

(* Six bits, most significant first. *)
Definition sextet : Type := bool * bool * bool * bool * bool * bool.

Definition alphabet : chars :=
  list_ascii_of_string "ABCDEFGHIJKLMNOPQRSTUVWXYZabcdefghijklmnopqrstuvwxyz0123456789+/".

Definition sextet_index (s : sextet) : nat :=
  let '(b5, b4, b3, b2, b1, b0) := s in
  let w (b : bool) (k : nat) := if b then k else 0 in
  w b5 32 + w b4 16 + w b3 8 + w b2 4 + w b1 2 + w b0 1.

Definition sextet_char (s : sextet) : ascii :=
  nth (sextet_index s) alphabet "="%char.

Definition index_sextet (n : nat) : sextet :=
  (Nat.testbit n 5, Nat.testbit n 4, Nat.testbit n 3,
   Nat.testbit n 2, Nat.testbit n 1, Nat.testbit n 0).

Fixpoint find_index (c : ascii) (l : chars) (i : nat) : option nat :=
  match l with
  | [] => None
  | x :: l' => if Ascii.eqb x c then Some i else find_index c l' (S i)
  end.

Definition char_sextet (c : ascii) : option sextet :=
  match find_index c alphabet 0 with
  | Some i => Some (index_sextet i)
  | None => None
  end.

(* Bits of a byte, most significant first. *)
Definition group3 (a b c : ascii) : sextet * sextet * sextet * sextet :=
  let '(Ascii a0 a1 a2 a3 a4 a5 a6 a7) := a in
  let '(Ascii b0 b1 b2 b3 b4 b5 b6 b7) := b in
  let '(Ascii c0 c1 c2 c3 c4 c5 c6 c7) := c in
  ((a7, a6, a5, a4, a3, a2), (a1, a0, b7, b6, b5, b4),
   (b3, b2, b1, b0, c7, c6), (c5, c4, c3, c2, c1, c0)).

Definition ungroup3 (q : sextet * sextet * sextet * sextet) : ascii * ascii * ascii :=
  let '((a7, a6, a5, a4, a3, a2), (a1, a0, b7, b6, b5, b4),
        (b3, b2, b1, b0, c7, c6), (c5, c4, c3, c2, c1, c0)) := q in
  (Ascii a0 a1 a2 a3 a4 a5 a6 a7, Ascii b0 b1 b2 b3 b4 b5 b6 b7,
   Ascii c0 c1 c2 c3 c4 c5 c6 c7).

Fixpoint encode (bs : chars) : chars :=
  match bs with
  | [] => []
  | [a] =>
      let '(s1, s2, _, _) := group3 a Ascii.zero Ascii.zero in
      [sextet_char s1; sextet_char s2; "="; "="]%char
  | [a; b] =>
      let '(s1, s2, s3, _) := group3 a b Ascii.zero in
      [sextet_char s1; sextet_char s2; sextet_char s3; "="%char]
  | a :: b :: c :: rest =>
      let '(s1, s2, s3, s4) := group3 a b c in
      sextet_char s1 :: sextet_char s2 :: sextet_char s3 :: sextet_char s4 :: encode rest
  end.

Fixpoint decode (cs : chars) : option chars :=
  match cs with
  | [] => Some []
  | c1 :: c2 :: c3 :: c4 :: rest =>
      match char_sextet c1, char_sextet c2 with
      | Some s1, Some s2 =>
          if Ascii.eqb c3 "=" then
            match rest with
            | [] => if Ascii.eqb c4 "="
                    then let '(a, _, _) := ungroup3 (s1, s2, index_sextet 0, index_sextet 0) in Some [a]
                    else None
            | _ :: _ => None
            end
          else
            match char_sextet c3 with
            | Some s3 =>
                if Ascii.eqb c4 "=" then
                  match rest with
                  | [] => let '(a, b, _) := ungroup3 (s1, s2, s3, index_sextet 0) in Some [a; b]
                  | _ :: _ => None
                  end
                else
                  match char_sextet c4, decode rest with
                  | Some s4, Some bs =>
                      let '(a, b, c) := ungroup3 (s1, s2, s3, s4) in Some (a :: b :: c :: bs)
                  | _, _ => None
                  end
            | None => None
            end
      | _, _ => None
      end
  | _ => None
  end.

Example encode_demo :
  string_of_list_ascii (encode (list_ascii_of_string "Man")) = "TWFu" /\
  string_of_list_ascii (encode (list_ascii_of_string "Ma")) = "TWE=" /\
  string_of_list_ascii (encode (list_ascii_of_string "M")) = "TQ==" /\
  string_of_list_ascii (encode (list_ascii_of_string "hello world")) = "aGVsbG8gd29ybGQ=".
Proof. vm_compute. auto. Qed.

Lemma char_sextet_char (s : sextet) : char_sextet (sextet_char s) = Some s.
Proof. destruct s as [[[[[[] []] []] []] []] []]; vm_compute; reflexivity. Qed.

Lemma sextet_char_not_pad (s : sextet) : Ascii.eqb (sextet_char s) "=" = false.
Proof. destruct s as [[[[[[] []] []] []] []] []]; vm_compute; reflexivity. Qed.

Lemma list_ind3 (P : chars -> Prop) :
  P [] -> (forall a, P [a]) -> (forall a b, P [a; b]) ->
  (forall a b c l, P l -> P (a :: b :: c :: l)) ->
  forall l, P l.
Proof.
  intros H0 H1 H2 H3. fix IH 1. intros [|a [|b [|c l]]]; [exact H0 | apply H1 | apply H2 | apply H3, IH].
Qed.

Theorem decode_encode (bs : chars) : decode (encode bs) = Some bs.
Proof.
  induction bs as [ | a | a b | a b c l IH ] using list_ind3.
  - reflexivity.
  - destruct a as [a0 a1 a2 a3 a4 a5 a6 a7]. cbn [encode group3 Ascii.zero decode].
    rewrite !char_sextet_char. reflexivity.
  - destruct a as [a0 a1 a2 a3 a4 a5 a6 a7], b as [b0 b1 b2 b3 b4 b5 b6 b7].
    cbn [encode group3 Ascii.zero decode].
    rewrite !char_sextet_char, !sextet_char_not_pad. reflexivity.
  - destruct a as [a0 a1 a2 a3 a4 a5 a6 a7], b as [b0 b1 b2 b3 b4 b5 b6 b7],
      c as [c0 c1 c2 c3 c4 c5 c6 c7].
    cbn [encode group3 decode].
    rewrite !char_sextet_char, !sextet_char_not_pad, IH. reflexivity.
Qed.

Corollary encode_inj (x y : chars) : encode x = encode y -> x = y.
Proof.
  intros E. apply (f_equal decode) in E. rewrite !decode_encode in E. congruence.
Qed.

End Base64.

(** * The JavaScript runtime operations the sources use *)
Module Js.

Import Json.

(** What a call can raise. *)
Inductive js_error : Type :=
| TypeError (what : string)
| SyntaxError
| Error (message : string).

(** The outcome of a call: a value, or an exception (a rejected promise). *)
Inductive result (A : Type) : Type :=
| Ok (a : A)
| Throw (e : js_error).
Arguments Ok {A} a.
Arguments Throw {A} e.

Definition bind {A B : Type} (r : result A) (k : A -> result B) : result B :=
  match r with
  | Ok a => k a
  | Throw e => Throw e
  end.

(** [try { r } catch { handler }] *)
Definition catch {A : Type} (r : result A) (handler : js_error -> A) : A :=
  match r with
  | Ok a => a
  | Throw e => handler e
  end.

(** ToBoolean of a string that may be undefined. *)
Definition truthy_string (s : string) : bool :=
  match s with
  | EmptyString => false
  | String _ _ => true
  end.

Definition truthy_opt (o : option string) : bool :=
  match o with
  | Some s => truthy_string s
  | None => false
  end.

(** [o || d] for a string that may be undefined. *)
Definition or_else (o : option string) (d : string) : string :=
  match o with
  | Some s => if truthy_string s then s else d
  | None => d
  end.

(** ToBoolean of a value. *)
Definition truthy (v : json) : bool :=
  match v with
  | JNull => false
  | JBool b => b
  | JNum n => negb (Z.eqb n 0)
  | JStr s => truthy_string s
  | JArr _ | JObj _ => true
  end.

(** [typeof v === 'string'] *)
Definition is_string (v : json) : bool :=
  match v with
  | JStr _ => true
  | _ => false
  end.

(** The own property [name] of an object given by its members in
    insertion order; a later member of the same name replaces an earlier one. *)
Fixpoint lookup_member (name : string) (members : list (string * json)) : option json :=
  match members with
  | [] => None
  | (k, v) :: rest =>
      match lookup_member name rest with
      | Some w => Some w
      | None => if String.eqb k name then Some v else None
      end
  end.

(** [v.name], for a name that no prototype defines (the sources read
    [loginPassword], [enableLogin] and [deviceFingerprint]): undefined
    ([None]) on anything but an object that has it, a TypeError on null. *)
Definition get_prop (v : json) (name : string) : result (option json) :=
  match v with
  | JNull => Throw (TypeError "Cannot read properties of null")
  | JObj members => Ok (lookup_member name members)
  | _ => Ok None
  end.

(** [obj.name = v] on an object: replaces the member, or appends it. *)
Definition set_member (name : string) (v : json) (members : list (string * json))
  : list (string * json) :=
  match lookup_member name members with
  | Some _ => List.map (fun m => if String.eqb (fst m) name then (fst m, v) else m) members
  | None => members ++ [(name, v)]
  end.

(** [a === b]: primitives by value, objects and arrays by identity (two
    values that come from different parses are never the same object);
    [None] is undefined. *)
Definition strict_equal (a b : option json) : bool :=
  match a, b with
  | None, None => true
  | Some JNull, Some JNull => true
  | Some (JBool x), Some (JBool y) => Bool.eqb x y
  | Some (JNum x), Some (JNum y) => Z.eqb x y
  | Some (JStr x), Some (JStr y) => String.eqb x y
  | _, _ => false
  end.

Definition nat_string (i : nat) : string :=
  string_of_list_ascii (Z_chars (Z.of_nat i)).

Fixpoint indexed {A : Type} (i : nat) (l : list A) : list (string * A) :=
  match l with
  | [] => []
  | x :: rest => (nat_string i, x) :: indexed (S i) rest
  end.

(** The own enumerable properties of ToObject(v): the members of an
    object, the elements of an array and the characters of a string under
    their indices, nothing for a number or a boolean. *)
Definition own_properties (v : json) : result (list (string * json)) :=
  match v with
  | JNull => Throw (TypeError "Cannot destructure null")
  | JObj members => Ok members
  | JArr items => Ok (indexed 0 items)
  | JStr s =>
      Ok (indexed 0 (List.map (fun c => JStr (String c EmptyString)) (list_ascii_of_string s)))
  | JBool _ | JNum _ => Ok []
  end.

(** [const { name, ...rest } = v]: the object [rest]. *)
Definition object_rest (name : string) (v : json) : result json :=
  bind (own_properties v) (fun members =>
    Ok (JObj (List.filter (fun m => negb (String.eqb (fst m) name)) members))).

(** [typeof cell === 'string' ? JSON.parse(cell) : cell] *)
Definition decode_cell (cell : json) : result json :=
  match cell with
  | JStr text =>
      match JSON_parse text with
      | Some v => Ok v
      | None => Throw SyntaxError
      end
  | v => Ok v
  end.

(** [s.split(sep)] for a one-character separator: never empty. *)
Fixpoint split (sep : ascii) (s : chars) : list chars :=
  match s with
  | [] => [[]]
  | c :: rest =>
      if Ascii.eqb c sep then [] :: split sep rest
      else
        match split sep rest with
        | piece :: pieces => (c :: piece) :: pieces
        | [] => [[c]]
        end
  end.

(** [s.replace(pattern, '')] for a string pattern: the first occurrence goes. *)
Fixpoint remove_first (pattern s : chars) : chars :=
  match strip_prefix pattern s with
  | Some rest => rest
  | None =>
      match s with
      | [] => []
      | c :: rest => c :: remove_first pattern rest
      end
  end.

Definition is_js_space (c : ascii) : bool :=
  let code := N_of_ascii c in
  ((9 <=? code) && (code <=? 13) || (code =? 32))%N.

Fixpoint trim_start (s : chars) : chars :=
  match s with
  | c :: rest => if is_js_space c then trim_start rest else s
  | [] => []
  end.

(** The digits of [s] in [radix], read from the left until the first
    character that is not one; [None] when there is none. *)
Fixpoint digits_value (radix : Z) (acc : option Z) (s : chars) : option Z :=
  match s with
  | c :: rest =>
      match hex_value c with
      | Some d =>
          if (Z.of_N d <? radix)%Z
          then digits_value radix (Some (match acc with Some a => a | None => 0 end * radix + Z.of_N d)%Z) rest
          else acc
      | None => acc
      end
  | [] => acc
  end.

(** [parseInt(s)] without a radix: leading white space (of the ASCII
    range), a sign, a [0x] prefix for base 16, then the longest run of
    digits; [None] is NaN. The value is the integer the digits write,
    which is the number JavaScript returns up to 2^53. The argument
    undefined reads as the text "undefined". *)
Definition parseInt_chars (s : chars) : option Z :=
  let s1 := trim_start s in
  let '(negative, s2) :=
    match s1 with
    | "-"%char :: r => (true, r)
    | "+"%char :: r => (false, r)
    | _ => (false, s1)
    end in
  let magnitude :=
    match s2 with
    | "0"%char :: "x"%char :: r => digits_value 16 None r
    | "0"%char :: "X"%char :: r => digits_value 16 None r
    | _ => digits_value 10 None s2
    end in
  match magnitude with
  | Some m => Some (if negative then Z.opp m else m)
  | None => None
  end.

Definition parseInt (arg : option string) : option Z :=
  match arg with
  | Some s => parseInt_chars (list_ascii_of_string s)
  | None => None
  end.

Example parseInt_examples :
  parseInt (Some "3306") = Some 3306%Z /\ parseInt (Some "3306)") = Some 3306%Z /\
  parseInt (Some " -12px") = Some (-12)%Z /\ parseInt (Some "0x1f") = Some 31%Z /\
  parseInt (Some "b") = None /\ parseInt (Some "") = None /\ parseInt None = None.
Proof. vm_compute. repeat split. Qed.

Example split_examples :
  split ":" (list_ascii_of_string "a:b:c") =
    List.map list_ascii_of_string ["a"; "b"; "c"] /\
  split ":" (list_ascii_of_string "") = [[]] /\
  split ":" (list_ascii_of_string "a:") = List.map list_ascii_of_string ["a"; ""].
Proof. vm_compute. repeat split. Qed.

End Js.

(** * The DSN parser: [parseDSN] of src/utils/db.ts (and of SQLAdapter) *)
Module Dsn.

Import Json Js.

Record PoolOptions : Type := {
  host : string;
  port : option Z;                (* None is NaN *)
  user : string;
  password : option string;       (* None is undefined *)
  database : option string;
  waitForConnections : bool;
  connectionLimit : Z;
  maxIdle : Z;
  queueLimit : Z
}.

(** [const [a, b] = pieces]: the first two elements, undefined when missing. *)
Definition first_of (pieces : list chars) : option chars := nth_error pieces 0.
Definition second_of (pieces : list chars) : option chars := nth_error pieces 1.

Definition text (s : chars) : string := string_of_list_ascii s.

Definition tcp_open : chars := list_ascii_of_string "tcp(".
Definition paren_close : chars := list_ascii_of_string ")".

(** [parseDSN(dsn)]; reading [rest.split] when the DSN has no '@' is a TypeError. *)
Definition parseDSN (dsn : string) : result PoolOptions :=
  let pieces := split "@" (list_ascii_of_string dsn) in
  match first_of pieces, second_of pieces with
  | Some auth, Some rest =>
      let credentials := split ":" auth in
      let location := split "/" rest in
      match first_of credentials, first_of location with
      | Some username, Some hostport =>
          let endpoint := split ":" hostport in
          match first_of endpoint with
          | Some hostname =>
              Ok {| host := text (remove_first paren_close (remove_first tcp_open hostname));
                    port := parseInt (option_map text (second_of endpoint));
                    user := text username;
                    password := option_map text (second_of credentials);
                    database := option_map text (second_of location);
                    waitForConnections := true;
                    connectionLimit := 10;
                    maxIdle := 10;
                    queueLimit := 0 |}
          | None => Throw (TypeError "Cannot read properties of undefined")
          end
      | _, _ => Throw (TypeError "Cannot read properties of undefined")
      end
  | _, _ => Throw (TypeError "Cannot read properties of undefined (reading 'split')")
  end.

(** ** Positions in a string *)

(** The text before the first [c] (all of it when there is none). *)
Fixpoint before (c : ascii) (s : chars) : chars :=
  match s with
  | [] => []
  | x :: rest => if Ascii.eqb x c then [] else x :: before c rest
  end.

(** The text after the first [c], when there is one. *)
Fixpoint after (c : ascii) (s : chars) : option chars :=
  match s with
  | [] => None
  | x :: rest => if Ascii.eqb x c then Some rest else after c rest
  end.

(** The text before the last [c] and the text after it. *)
Fixpoint after_last (c : ascii) (s : chars) : option chars :=
  match s with
  | [] => None
  | x :: rest =>
      match after_last c rest with
      | Some tail => Some tail
      | None => if Ascii.eqb x c then Some rest else None
      end
  end.

Fixpoint before_last (c : ascii) (s : chars) : chars :=
  match s with
  | [] => []
  | x :: rest =>
      match after_last c rest with
      | Some _ => x :: before_last c rest
      | None => if Ascii.eqb x c then [] else x :: before_last c rest
      end
  end.

Fixpoint count_char (c : ascii) (s : chars) : nat :=
  match s with
  | [] => 0
  | x :: rest => (if Ascii.eqb x c then 1 else 0) + count_char c rest
  end.

Definition count_in (c : ascii) (s : string) : nat :=
  count_char c (list_ascii_of_string s).

(** The text between the first and the second [c]. *)
Definition second_segment (c : ascii) (s : chars) : option chars :=
  option_map (before c) (after c s).

(** The split points as the specification words them: the first ':' of
    the credentials, the first '/' after the '@', the last ':' of the host
    segment. *)
Definition parseDSN_spec (dsn : string) : PoolOptions :=
  let s := list_ascii_of_string dsn in
  let auth := before "@" s in
  let rest := match after "@" s with Some r => r | None => [] end in
  let hostport := before "/" rest in
  {| host := text (before_last ":" hostport);
     port := parseInt (option_map text (after_last ":" hostport));
     user := text (before ":" auth);
     password := option_map text (after ":" auth);
     database := option_map text (after "/" rest);
     waitForConnections := true;
     connectionLimit := 10;
     maxIdle := 10;
     queueLimit := 0 |}.

Lemma split_nonempty (c : ascii) (s : chars) : split c s <> [].
Proof.
  destruct s as [|x rest]; cbn; [discriminate|].
  destruct (Ascii.eqb x c); [discriminate|]. destruct (split c rest); discriminate.
Qed.

Lemma first_of_split (c : ascii) (s : chars) :
  first_of (split c s) = Some (before c s).
Proof.
  induction s as [|x rest IH]; [reflexivity|]. cbn.
  destruct (Ascii.eqb x c); [reflexivity|].
  destruct (split c rest) as [|piece pieces] eqn:E.
  - now destruct (split_nonempty c rest).
  - cbn in IH |- *. congruence.
Qed.

Lemma second_of_split (c : ascii) (s : chars) :
  second_of (split c s) = second_segment c s.
Proof.
  unfold second_segment.
  induction s as [|x rest IH]; [reflexivity|]. cbn [split after].
  destruct (Ascii.eqb x c).
  - cbn [option_map]. rewrite <- first_of_split. reflexivity.
  - destruct (split c rest) as [|piece pieces] eqn:E.
    + now destruct (split_nonempty c rest).
    + exact IH.
Qed.

Lemma after_some_of_count (c : ascii) (s : chars) :
  0 < count_char c s -> exists r, after c s = Some r.
Proof.
  induction s as [|x rest IH]; cbn; [lia|].
  destruct (Ascii.eqb x c); [eauto|]. exact IH.
Qed.

(** The record [parseDSN] builds from the two sides of the first '@'. *)
Definition options_of (auth rest : chars) : PoolOptions :=
  let hostport := before "/" rest in
  {| host := text (remove_first paren_close (remove_first tcp_open (before ":" hostport)));
     port := parseInt (option_map text (second_segment ":" hostport));
     user := text (before ":" auth);
     password := option_map text (second_segment ":" auth);
     database := option_map text (second_segment "/" rest);
     waitForConnections := true;
     connectionLimit := 10;
     maxIdle := 10;
     queueLimit := 0 |}.

Lemma parseDSN_with_at (dsn : string) (rest : chars) :
  after "@" (list_ascii_of_string dsn) = Some rest ->
  parseDSN dsn =
  Ok (options_of (before "@" (list_ascii_of_string dsn)) (before "@" rest)).
Proof.
  intros Hat. unfold parseDSN.
  rewrite first_of_split, second_of_split. unfold second_segment at 1.
  rewrite Hat. cbn [option_map].
  rewrite !first_of_split, !second_of_split. reflexivity.
Qed.

Lemma parseDSN_without_at (dsn : string) :
  after "@" (list_ascii_of_string dsn) = None ->
  exists e, parseDSN dsn = Throw e.
Proof.
  intros Hat. unfold parseDSN.
  rewrite first_of_split, second_of_split. unfold second_segment.
  rewrite Hat. cbn. eauto.
Qed.

Lemma before_no_occurrence (c : ascii) (s : chars) :
  count_char c s = 0 -> before c s = s.
Proof.
  induction s as [|x rest IH]; cbn; [reflexivity|].
  destruct (Ascii.eqb x c); [discriminate|]. intros H. f_equal. now apply IH.
Qed.

Lemma count_after (c : ascii) (s rest : chars) :
  after c s = Some rest -> count_char c s = S (count_char c rest).
Proof.
  revert rest. induction s as [|x tail IH]; cbn; [discriminate|]. intros rest.
  destruct (Ascii.eqb x c); [now intros [= ->]|]. apply IH.
Qed.

Lemma after_last_absent (c : ascii) (s : chars) :
  count_char c s = 0 -> after_last c s = None.
Proof.
  induction s as [|x rest IH]; cbn; [reflexivity|].
  destruct (Ascii.eqb x c); [discriminate|]. intros H. now rewrite IH.
Qed.

Lemma after_last_single (c : ascii) (s : chars) :
  count_char c s <= 1 -> after_last c s = after c s.
Proof.
  induction s as [|x rest IH]; cbn; [reflexivity|].
  destruct (Ascii.eqb x c); cbn; intros H.
  - rewrite after_last_absent by lia. reflexivity.
  - rewrite IH by exact H. now destruct (after c rest).
Qed.

Lemma before_last_single (c : ascii) (s : chars) :
  count_char c s <= 1 -> before_last c s = before c s.
Proof.
  induction s as [|x rest IH]; cbn; [reflexivity|].
  destruct (Ascii.eqb x c) eqn:E; cbn; intros H.
  - rewrite after_last_absent by lia. reflexivity.
  - rewrite IH by exact H. rewrite after_last_single by exact H.
    destruct (after c rest); reflexivity.
Qed.

Lemma second_segment_single (c : ascii) (s : chars) :
  count_char c s <= 1 -> second_segment c s = after c s.
Proof.
  intros H. unfold second_segment. destruct (after c s) as [tail|] eqn:E; [|reflexivity].
  cbn. f_equal. apply before_no_occurrence.
  pose proof (count_after c s tail E). lia.
Qed.

(** On a DSN of the documented shape (one ':' at most in the credentials
    and in the host segment, one '/' at most after the '@', no [tcp(...)]
    wrapper) the parser and the specification's split points agree. *)
Lemma parseDSN_agrees_on_simple_dsn (dsn : string) (rest : chars) :
  let s := list_ascii_of_string dsn in
  let hostname := before ":" (before "/" rest) in
  count_in "@" dsn = 1 ->
  after "@" s = Some rest ->
  count_char ":" (before "@" s) <= 1 ->
  count_char "/" rest <= 1 ->
  count_char ":" (before "/" rest) <= 1 ->
  remove_first paren_close (remove_first tcp_open hostname) = hostname ->
  parseDSN dsn = Ok (parseDSN_spec dsn).
Proof.
  intros s hostname Hat Hrest Hauth Hslash Hcolon Htcp.
  assert (Hclean : before "@" rest = rest).
  { apply before_no_occurrence. unfold count_in in Hat. fold s in Hat.
    pose proof (count_after "@" s rest Hrest). lia. }
  rewrite (parseDSN_with_at dsn rest Hrest), Hclean.
  unfold options_of, parseDSN_spec. fold s. rewrite Hrest. fold hostname.
  rewrite Htcp. unfold hostname.
  rewrite !second_segment_single by assumption.
  rewrite after_last_single, before_last_single by assumption.
  reflexivity.
Qed.

(** C5, as stated, fails: with two ':' in the host segment the parser
    splits at the first one, not at the last. *)
Lemma parseDSN_splits_host_at_first_colon :
  count_in "@" "u:p@a:b:3306/db" = 1 /\
  parseDSN "u:p@a:b:3306/db" =
    Ok {| host := "a"; port := None; user := "u"; password := Some "p";
          database := Some "db"; waitForConnections := true;
          connectionLimit := 10; maxIdle := 10; queueLimit := 0 |} /\
  parseDSN_spec "u:p@a:b:3306/db" =
    {| host := "a:b"; port := Some 3306%Z; user := "u"; password := Some "p";
       database := Some "db"; waitForConnections := true;
       connectionLimit := 10; maxIdle := 10; queueLimit := 0 |}.
Proof. repeat split; vm_compute; reflexivity. Qed.

(** C5, amended. For every DSN with exactly one '@', parseDSN returns
    options whose user is the text before the first ':' of the credentials
    and whose password is the text between their first and second ':';
    whose database is the text between the first and the second '/' after
    the '@'; whose host is the text before the first ':' of the host
    segment, less one "tcp(" and one ")", and whose port is parseInt of
    the text between the first and the second ':' of that segment; with
    connectionLimit 10, maxIdle 10 and queueLimit 0. *)
Theorem parseDSN_splits_at_first_separators (dsn : string) :
  count_in "@" dsn = 1 ->
  exists rest : chars,
    after "@" (list_ascii_of_string dsn) = Some rest /\
    let auth := before "@" (list_ascii_of_string dsn) in
    let hostport := before "/" rest in
    parseDSN dsn =
    Ok {| host := text (remove_first paren_close
                          (remove_first tcp_open (before ":" hostport)));
          port := parseInt (option_map text (second_segment ":" hostport));
          user := text (before ":" auth);
          password := option_map text (second_segment ":" auth);
          database := option_map text (second_segment "/" rest);
          waitForConnections := true;
          connectionLimit := 10;
          maxIdle := 10;
          queueLimit := 0 |}.
Proof.
  intros Hat. unfold count_in in Hat.
  destruct (after_some_of_count "@" (list_ascii_of_string dsn)) as [rest Hrest]; [lia|].
  exists rest. split; [exact Hrest|]. cbv zeta.
  rewrite (parseDSN_with_at dsn rest Hrest).
  assert (Hclean : before "@" rest = rest).
  { apply before_no_occurrence.
    pose proof (count_after "@" _ rest Hrest). lia. }
  rewrite Hclean. reflexivity.
Qed.

Lemma parseDSN_splits_at_first_separators_witness :
  count_in "@" "root:secret@tcp(db.local:3306)/videos" = 1 /\
  parseDSN "root:secret@tcp(db.local:3306)/videos" =
    Ok {| host := "db.local"; port := Some 3306%Z; user := "root";
          password := Some "secret"; database := Some "videos";
          waitForConnections := true;
          connectionLimit := 10; maxIdle := 10; queueLimit := 0 |}.
Proof.
  split; [reflexivity|].
  destruct (parseDSN_splits_at_first_separators
              "root:secret@tcp(db.local:3306)/videos" eq_refl) as (rest & Hrest & E).
  rewrite E. injection Hrest as <-. reflexivity.
Defined.

End Dsn.

(** * The configuration service of the Express server
    ([config-handler.js] with its [db.js]: getConfig, getPublicConfig,
    verifyPassword over a DSN) *)
Module ConfigHandler.

Import Json Js Dsn.

(** What lies outside the process: the MySQL server behind the pool and
    the one runtime operation whose behaviour the sources do not fix. *)
Record Environment : Type := {
  (* pool.getConnection() succeeds for these options *)
  accepts : PoolOptions -> bool;
  (* CREATE TABLE IF NOT EXISTS configs succeeds *)
  creates_table : bool;
  (* SELECT config FROM configs ORDER BY id DESC LIMIT 1: the config
     column of the rows, as the driver hands it over (a string or a parsed
     value), or the error of the query *)
  latest_config : result (list json);
  (* Buffer.from(v) for a value that is not a string *)
  buffer_from_value : json -> result chars
}.

(** The module variable [pool] of db.js: the options the pool was created with. *)
Definition Pool : Type := option PoolOptions.

Definition defaultConfig : json :=
  JObj [("resourceSites", JArr []);
        ("parseApi", JStr "");
        ("backgroundImage", JStr "");
        ("enableLogin", JBool false);
        ("loginPassword", JStr "");
        ("announcement", JStr "");
        ("customTitle", JStr "")].

(** [initializePool(dsn)]: the pool it returns (null is [None]) and the
    module variable afterwards. *)
Definition initializePool (env : Environment) (dsn : option string) (pool : Pool)
  : Pool * Pool :=
  match dsn with
  | Some d =>
      if truthy_string d then
        match pool with
        | Some _ => (pool, pool)
        | None =>
            match parseDSN d with
            | Ok opts =>
                if accepts env opts && creates_table env
                then (Some opts, Some opts)
                else (None, None)
            | Throw _ => (None, None)
            end
        end
      else (None, pool)
  | None => (None, pool)
  end.

(** [withConnection(dsn, callback)] *)
Definition withConnection {A : Type} (env : Environment) (dsn : option string)
  (pool : Pool) (callback : Environment -> result A) : result A * Pool :=
  let '(p, pool') := initializePool env dsn pool in
  match p with
  | None => (Throw (Error "无法初始化数据库连接池"), pool')
  | Some opts =>
      if accepts env opts then (callback env, pool')
      else (Throw (Error "getConnection failed"), pool')
  end.

Definition base64_thrice (bytes : chars) : string :=
  string_of_list_ascii
    (Base64.encode (Base64.encode (Base64.encode bytes))).

(** [encodeBase64(v)]: only the first [Buffer.from] sees [v] itself. *)
Definition encodeBase64 (env : Environment) (v : json) : result string :=
  match v with
  | JStr s => Ok (base64_thrice (list_ascii_of_string s))
  | other => bind (buffer_from_value env other) (fun bytes => Ok (base64_thrice bytes))
  end.

(** [config.loginPassword = v] *)
Definition assign_loginPassword (config : json) (v : json) : json :=
  match config with
  | JObj members => JObj (set_member "loginPassword" v members)
  | other => other
  end.

(** [if (config.loginPassword) config.loginPassword = encodeBase64(config.loginPassword)],
    then [return config]. *)
Definition encode_for_transport (env : Environment) (config : json) : result json :=
  bind (get_prop config "loginPassword") (fun pw =>
    match pw with
    | Some v =>
        if truthy v
        then bind (encodeBase64 env v) (fun encoded =>
               Ok (assign_loginPassword config (JStr encoded)))
        else Ok config
    | None => Ok config
    end).

(** The callback of getConfig. *)
Definition read_config (env : Environment) : result json :=
  bind (latest_config env) (fun rows =>
    match rows with
    | cell :: _ => bind (decode_cell cell) (encode_for_transport env)
    | [] => Ok defaultConfig
    end).

(** [getConfig(dsn)] *)
Definition getConfig (env : Environment) (dsn : option string) (pool : Pool)
  : json * Pool :=
  if truthy_opt dsn then
    let '(r, pool') := withConnection env dsn pool read_config in
    (catch r (fun _ => defaultConfig), pool')
  else (defaultConfig, pool).

(** [getPublicConfig(dsn)] *)
Definition getPublicConfig (env : Environment) (dsn : option string) (pool : Pool)
  : result json * Pool :=
  let '(config, pool') := getConfig env dsn pool in
  (object_rest "loginPassword" config, pool').

(** The callback of verifyPassword. *)
Definition check_password (password : json) (env : Environment) : result bool :=
  bind (latest_config env) (fun rows =>
    match rows with
    | cell :: _ =>
        bind (decode_cell cell) (fun dbConfig =>
        bind (get_prop dbConfig "loginPassword") (fun stored =>
          Ok (strict_equal (Some password) stored)))
    | [] => Ok true
    end).

(** [verifyPassword(password, dsn)] *)
Definition verifyPassword (env : Environment) (password : json)
  (dsn : option string) (pool : Pool) : bool * Pool :=
  if truthy_opt dsn then
    let '(r, pool') := withConnection env dsn pool (check_password password) in
    (catch r (fun _ => false), pool')
  else (true, pool).

(** [withConnection] reaches its callback. *)
Definition connects (env : Environment) (dsn : option string) (pool : Pool) : bool :=
  match fst (initializePool env dsn pool) with
  | Some opts => accepts env opts
  | None => false
  end.

Lemma withConnection_connected {A : Type} (env : Environment) (dsn : option string)
  (pool : Pool) (callback : Environment -> result A) :
  connects env dsn pool = true ->
  fst (withConnection env dsn pool callback) = callback env.
Proof.
  unfold connects, withConnection.
  destruct (initializePool env dsn pool) as [[opts|] pool']; cbn; [|discriminate].
  now intros ->.
Qed.

Lemma withConnection_cases {A : Type} (env : Environment) (dsn : option string)
  (pool : Pool) (callback : Environment -> result A) :
  fst (withConnection env dsn pool callback) = callback env \/
  exists e, fst (withConnection env dsn pool callback) = Throw e.
Proof.
  unfold withConnection.
  destruct (initializePool env dsn pool) as [[opts|] pool']; cbn; [|eauto].
  destruct (accepts env opts); cbn; eauto.
Qed.

Lemma connects_truthy (env : Environment) (dsn : option string) (pool : Pool) :
  connects env dsn pool = true -> truthy_opt dsn = true.
Proof.
  unfold connects, initializePool. destruct dsn as [d|]; [|discriminate].
  cbn. destruct (truthy_string d); [reflexivity|discriminate].
Qed.

Lemma fst_getConfig (env : Environment) (dsn : option string) (pool : Pool) :
  fst (getConfig env dsn pool) =
  if truthy_opt dsn
  then catch (fst (withConnection env dsn pool read_config)) (fun _ => defaultConfig)
  else defaultConfig.
Proof.
  unfold getConfig. destruct (truthy_opt dsn); [|reflexivity].
  now destruct (withConnection env dsn pool read_config).
Qed.

Lemma fst_verifyPassword (env : Environment) (password : json)
  (dsn : option string) (pool : Pool) :
  fst (verifyPassword env password dsn pool) =
  if truthy_opt dsn
  then catch (fst (withConnection env dsn pool (check_password password))) (fun _ => false)
  else true.
Proof.
  unfold verifyPassword. destruct (truthy_opt dsn); [|reflexivity].
  now destruct (withConnection env dsn pool (check_password password)).
Qed.

Definition is_null (v : json) : bool :=
  match v with
  | JNull => true
  | _ => false
  end.

Lemma encode_for_transport_not_null (env : Environment) (config v : json) :
  encode_for_transport env config = Ok v -> is_null v = false.
Proof.
  unfold encode_for_transport.
  destruct config as [ | b | n | s | items | members ]; cbn; try discriminate;
    try (now intros [= <-]).
  destruct (lookup_member "loginPassword" members) as [pw|]; [|now intros [= <-]].
  destruct (truthy pw); [|now intros [= <-]].
  destruct (encodeBase64 env pw); cbn; [now intros [= <-]|discriminate].
Qed.

Lemma read_config_not_null (env : Environment) (v : json) :
  read_config env = Ok v -> is_null v = false.
Proof.
  unfold read_config. destruct (latest_config env) as [rows|e]; cbn; [|discriminate].
  destruct rows as [|cell more]; [now intros [= <-]|].
  destruct (decode_cell cell) as [config|e]; cbn; [|discriminate].
  apply encode_for_transport_not_null.
Qed.

Lemma getConfig_not_null (env : Environment) (dsn : option string) (pool : Pool) :
  is_null (fst (getConfig env dsn pool)) = false.
Proof.
  rewrite fst_getConfig. destruct (truthy_opt dsn); [|reflexivity].
  destruct (withConnection_cases env dsn pool read_config) as [E|[e E]]; rewrite E.
  - destruct (read_config env) as [v|e] eqn:R; [|reflexivity].
    cbn. now apply (read_config_not_null env).
  - reflexivity.
Qed.

Lemma lookup_member_filtered (name : string) (members : list (string * json)) :
  lookup_member name
    (List.filter (fun m => negb (String.eqb (fst m) name)) members) = None.
Proof.
  induction members as [|[k v] rest IH]; [reflexivity|]. cbn.
  destruct (String.eqb k name) eqn:E; cbn; [exact IH|]. now rewrite IH, E.
Qed.

Lemma object_rest_not_null (name : string) (v : json) :
  is_null v = false ->
  exists members,
    object_rest name v = Ok (JObj members) /\ lookup_member name members = None.
Proof.
  intros Hv. unfold object_rest.
  destruct v; try discriminate Hv; cbn [own_properties bind]; eexists;
    (split; [reflexivity|]); apply lookup_member_filtered.
Qed.

Lemma getPublicConfig_redacts (env : Environment) (dsn : option string) (pool : Pool) :
  exists members,
    fst (getPublicConfig env dsn pool) = Ok (JObj members) /\
    lookup_member "loginPassword" members = None.
Proof.
  unfold getPublicConfig. pose proof (getConfig_not_null env dsn pool) as Hn.
  destruct (getConfig env dsn pool) as [config pool']. cbn in *.
  now apply object_rest_not_null.
Qed.

(** A server that answers, holding one record. *)
Definition serving (record : json) : Environment :=
  {| accepts := fun _ => true;
     creates_table := true;
     latest_config := Ok [record];
     buffer_from_value := fun _ => Throw (TypeError "The first argument must be of type string") |}.

Definition sample_dsn : option string := Some "root:secret@localhost:3306/videos".

Definition disabled_login_record : json :=
  JObj [("resourceSites", JArr []); ("enableLogin", JBool false);
        ("loginPassword", JStr "hunter2")].

(** This verifyPassword never reads enableLogin: with login disabled in
    the stored record, the stored password is accepted. *)
Lemma verifyPassword_accepts_with_login_disabled :
  get_prop disabled_login_record "enableLogin" = Ok (Some (JBool false)) /\
  fst (verifyPassword (serving disabled_login_record) (JStr "hunter2") sample_dsn None)
  = true.
Proof. split; vm_compute; reflexivity. Qed.

(** C9. getConfig never returns null, and it returns the literal default
    record when no DSN is given, when the connection cannot be made, when
    the query returns no rows, and when the read throws. *)
Theorem getConfig_falls_back_to_default
  (env : Environment) (dsn : option string) (pool : Pool) :
  let config := fst (getConfig env dsn pool) in
  is_null config = false /\
  (truthy_opt dsn = false -> config = defaultConfig) /\
  (connects env dsn pool = false -> config = defaultConfig) /\
  (latest_config env = Ok [] -> config = defaultConfig) /\
  (forall e, read_config env = Throw e -> config = defaultConfig) /\
  defaultConfig =
    JObj [("resourceSites", JArr []); ("parseApi", JStr "");
          ("backgroundImage", JStr ""); ("enableLogin", JBool false);
          ("loginPassword", JStr ""); ("announcement", JStr "");
          ("customTitle", JStr "")].
Proof.
  cbv zeta. split; [apply getConfig_not_null|].
  rewrite fst_getConfig.
  split; [now intros ->|].
  destruct (truthy_opt dsn); [|repeat split; reflexivity].
  split.
  - unfold connects, withConnection.
    destruct (initializePool env dsn pool) as [[opts|] pool']; cbn; [|reflexivity].
    now intros ->.
  - destruct (withConnection_cases env dsn pool read_config) as [E|[e E]]; rewrite E.
    + split; [|split; [|reflexivity]].
      * intros Hrows. unfold read_config. now rewrite Hrows.
      * intros e He. now rewrite He.
    + repeat split; reflexivity.
Qed.

Definition broken_query : Environment :=
  {| accepts := fun _ => true;
     creates_table := true;
     latest_config := Throw (Error "ER_NO_SUCH_TABLE");
     buffer_from_value := fun _ => Throw (TypeError "The first argument must be of type string") |}.

Lemma getConfig_falls_back_to_default_witness :
  read_config broken_query = Throw (Error "ER_NO_SUCH_TABLE") /\
  fst (getConfig broken_query sample_dsn None) = defaultConfig.
Proof.
  split; [reflexivity|].
  exact (proj1 (proj2 (proj2 (proj2 (proj2
           (getConfig_falls_back_to_default broken_query sample_dsn None)))))
           (Error "ER_NO_SUCH_TABLE") eq_refl).
Defined.

(** C10. verifyPassword accepts every candidate when no DSN is given, and
    when the query succeeds but the configs table holds no record. *)
Theorem verifyPassword_accepts_without_record
  (env : Environment) (password : json) (dsn : option string) (pool : Pool) :
  (truthy_opt dsn = false -> fst (verifyPassword env password dsn pool) = true) /\
  (connects env dsn pool = true -> latest_config env = Ok [] ->
   fst (verifyPassword env password dsn pool) = true).
Proof.
  rewrite fst_verifyPassword. split.
  - now intros ->.
  - intros Hconn Hrows. rewrite (connects_truthy _ _ _ Hconn).
    rewrite withConnection_connected by exact Hconn.
    unfold check_password. now rewrite Hrows.
Qed.

Definition empty_table : Environment :=
  {| accepts := fun _ => true;
     creates_table := true;
     latest_config := Ok [];
     buffer_from_value := fun _ => Throw (TypeError "The first argument must be of type string") |}.

Lemma verifyPassword_accepts_without_record_witness :
  (truthy_opt None = false /\
   fst (verifyPassword empty_table (JStr "anything") None None) = true) /\
  (connects empty_table sample_dsn None = true /\
   latest_config empty_table = Ok [] /\
   fst (verifyPassword empty_table (JStr "anything") sample_dsn None) = true).
Proof.
  split.
  - split; [reflexivity|].
    exact (proj1 (verifyPassword_accepts_without_record
                    empty_table (JStr "anything") None None) eq_refl).
  - split; [reflexivity|]. split; [reflexivity|].
    exact (proj2 (verifyPassword_accepts_without_record
                    empty_table (JStr "anything") sample_dsn None) eq_refl eq_refl).
Defined.

End ConfigHandler.

(** * The configuration service of src/server/config-handler.js
    (getConfig and getPublicConfig over the process environment) *)
Module ServerConfigHandler.

Import Json Js Dsn.

Record ProcessEnv : Type := {
  SQL_DSN : option string;
  PG_CONNECTION_STRING : option string
}.

Record Environment : Type := {
  process_env : ProcessEnv;
  (* the MySQL side, as db.js sees it *)
  mysql : ConfigHandler.Environment;
  (* a client for this connection string reaches its server *)
  pg_connects : string -> bool;
  (* CREATE TABLE IF NOT EXISTS configs succeeds *)
  pg_creates_table : bool;
  (* SELECT config FROM configs ORDER BY id DESC LIMIT 1 through the
     client, whose jsonb parser hands over parsed values *)
  pg_latest_config : result (list json)
}.

Inductive DbType : Type := mysql_type | postgresql_type.

(** [getDbConnectionInfo()] *)
Definition getDbConnectionInfo (env : Environment) : option (DbType * string) :=
  let sqlDsn := SQL_DSN (process_env env) in
  let pgConnectionString := PG_CONNECTION_STRING (process_env env) in
  if truthy_opt sqlDsn then Some (mysql_type, or_else sqlDsn "")
  else if truthy_opt pgConnectionString
       then Some (postgresql_type, or_else pgConnectionString "")
       else None.

(** [withDatabaseConnection(callback)]; without connection information it
    returns the default configuration whatever the callback is. *)
Definition withDatabaseConnection (env : Environment) (pool : ConfigHandler.Pool)
  (callback : Environment -> result json) : result json * ConfigHandler.Pool :=
  match getDbConnectionInfo env with
  | None => (Ok ConfigHandler.defaultConfig, pool)
  | Some (mysql_type, dsn) =>
      ConfigHandler.withConnection (mysql env) (Some dsn) pool (fun _ => callback env)
  | Some (postgresql_type, conn) =>
      if pg_connects env conn && pg_creates_table env
      then (callback env, pool)
      else (Throw (Error "PostgreSQL operation failed"), pool)
  end.

(** The callback of getConfig. *)
Definition read_config (env : Environment) : result json :=
  match getDbConnectionInfo env with
  | Some (mysql_type, _) =>
      bind (ConfigHandler.latest_config (mysql env)) (fun rows =>
        match rows with
        | cell :: _ =>
            bind (decode_cell cell)
                 (ConfigHandler.encode_for_transport (mysql env))
        | [] => Ok ConfigHandler.defaultConfig
        end)
  | _ =>
      bind (pg_latest_config env) (fun rows =>
        match rows with
        | config :: _ => ConfigHandler.encode_for_transport (mysql env) config
        | [] => Ok ConfigHandler.defaultConfig
        end)
  end.

(** [getConfig()] *)
Definition getConfig (env : Environment) (pool : ConfigHandler.Pool)
  : json * ConfigHandler.Pool :=
  let '(r, pool') := withDatabaseConnection env pool read_config in
  (catch r (fun _ => ConfigHandler.defaultConfig), pool').

(** [getPublicConfig()] *)
Definition getPublicConfig (env : Environment) (pool : ConfigHandler.Pool)
  : result json * ConfigHandler.Pool :=
  let '(config, pool') := getConfig env pool in
  (object_rest "loginPassword" config, pool').

Lemma server_read_config_not_null (env : Environment) (v : json) :
  read_config env = Ok v -> ConfigHandler.is_null v = false.
Proof.
  unfold read_config.
  assert (Hpg :
    bind (pg_latest_config env) (fun rows =>
      match rows with
      | config :: _ => ConfigHandler.encode_for_transport (mysql env) config
      | [] => Ok ConfigHandler.defaultConfig
      end) = Ok v -> ConfigHandler.is_null v = false).
  { destruct (pg_latest_config env) as [rows|e]; cbn; [|discriminate].
    destruct rows as [|config more]; [now intros [= <-]|].
    apply ConfigHandler.encode_for_transport_not_null. }
  destruct (getDbConnectionInfo env) as [[[] conn]|]; try exact Hpg.
  apply (ConfigHandler.read_config_not_null (mysql env)).
Qed.

Lemma server_getConfig_not_null (env : Environment) (pool : ConfigHandler.Pool) :
  ConfigHandler.is_null (fst (getConfig env pool)) = false.
Proof.
  unfold getConfig, withDatabaseConnection.
  pose proof (server_read_config_not_null env) as Hr.
  destruct (getDbConnectionInfo env) as [[[] conn]|]; cbn.
  - pose proof (ConfigHandler.withConnection_cases (mysql env) (Some conn) pool
                  (fun _ => read_config env)) as Hc.
    destruct (ConfigHandler.withConnection (mysql env) (Some conn) pool
                (fun _ => read_config env)) as [r pool'].
    cbn in *. destruct Hc as [-> | [e ->]]; [|reflexivity].
    destruct (read_config env) as [v|e]; cbn; [now apply Hr | reflexivity].
  - destruct (pg_connects env conn && pg_creates_table env); cbn; [|reflexivity].
    destruct (read_config env) as [v|e]; cbn; [now apply Hr | reflexivity].
  - reflexivity.
Qed.

Lemma server_getPublicConfig_redacts (env : Environment) (pool : ConfigHandler.Pool) :
  exists members,
    fst (getPublicConfig env pool) = Ok (JObj members) /\
    lookup_member "loginPassword" members = None.
Proof.
  unfold getPublicConfig. pose proof (server_getConfig_not_null env pool) as Hn.
  destruct (getConfig env pool) as [config pool']. cbn in *.
  now apply ConfigHandler.object_rest_not_null.
Qed.

(** C8. For every stored configuration record, with loginPassword a
    string, empty, of another type or absent, and for every state of the
    backend, the object getPublicConfig returns has no loginPassword
    field: in the DSN-based handler and in src/server/config-handler.js. *)
Theorem getPublicConfig_never_has_loginPassword
  (env : ConfigHandler.Environment) (dsn : option string)
  (server : Environment) (pool : ConfigHandler.Pool) :
  (exists members,
     fst (ConfigHandler.getPublicConfig env dsn pool) = Ok (JObj members) /\
     lookup_member "loginPassword" members = None) /\
  (exists members,
     fst (getPublicConfig server pool) = Ok (JObj members) /\
     lookup_member "loginPassword" members = None).
Proof.
  split.
  - destruct (ConfigHandler.getPublicConfig_redacts env dsn pool) as (ms & E & L).
    exists ms. now split.
  - destruct (server_getPublicConfig_redacts server pool) as (ms & E & L).
    exists ms. now split.
Qed.

End ServerConfigHandler.

(** * The backing stores and what the adapters do to them *)
Module Store.

Import Json Js Dsn.

Inductive Kind : Type := SqlKind | PgKind | KvKind.

(** A record of what ran, kept beside the stores. It has no counterpart in
    the sources and no operation reads it: it is there to state which
    adapters were constructed and which pools were opened. *)
Inductive Event : Type :=
| Constructed (k : Kind)
| InitializeCalled (k : Kind) (ok : bool)
| PoolCreated
| PoolEnded.

(** [connection] of PgAdapterOptions: a connection string or an options object. *)
Inductive PgConnection : Type :=
| ConnString (s : string)
| ConnObject (description : string).

Abbreviation SqlRows := (list (Z * json)).
Abbreviation PgRows := (list (string * json)).

Record World : Type := {
  (* MySQL: pool.getConnection() succeeds for these options *)
  mysql_accepts : PoolOptions -> bool;
  (* CREATE TABLE IF NOT EXISTS configs succeeds *)
  mysql_creates_table : bool;
  (* the driver hands a JSON column over as text (true) or parsed (false) *)
  mysql_json_as_text : bool;
  (* the integer that [id = 'key'] selects for a key given as text, if any *)
  mysql_id_of_key : string -> option Z;
  (* a statement passed through [query]: its rows and its effect *)
  mysql_run : string -> list json -> SqlRows -> result (list json) * SqlRows;
  (* the rows (id, config) of the table configs, oldest first *)
  mysql_rows : SqlRows;
  (* Postgres: a client for this connection reaches its server *)
  pg_accepts : PgConnection -> bool;
  (* CREATE TABLE IF NOT EXISTS succeeds *)
  pg_creates_table : bool;
  (* the table an unquoted name in a raw statement addresses, if any *)
  pg_unquoted : string -> option string;
  (* the document a JSONB column keeps of a value bound to it, or the
     refusal of the driver or of the server (null against NOT NULL, ...) *)
  pg_encode : json -> result json;
  pg_run : string -> list json -> gmap string PgRows -> result (list json) * gmap string PgRows;
  (* the rows (id, config) of each table *)
  pg_tables : gmap string PgRows;
  (* the entries of the key-value namespace *)
  kv_entries : gmap string string;
  trace : list Event
}.

Definition with_mysql_rows (rows : SqlRows) (w : World) : World :=
  {| mysql_accepts := mysql_accepts w; mysql_creates_table := mysql_creates_table w;
     mysql_json_as_text := mysql_json_as_text w;
     mysql_id_of_key := mysql_id_of_key w; mysql_run := mysql_run w;
     mysql_rows := rows;
     pg_accepts := pg_accepts w; pg_creates_table := pg_creates_table w;
     pg_unquoted := pg_unquoted w; pg_encode := pg_encode w; pg_run := pg_run w;
     pg_tables := pg_tables w; kv_entries := kv_entries w; trace := trace w |}.

Definition with_pg_tables (tables : gmap string PgRows) (w : World) : World :=
  {| mysql_accepts := mysql_accepts w; mysql_creates_table := mysql_creates_table w;
     mysql_json_as_text := mysql_json_as_text w;
     mysql_id_of_key := mysql_id_of_key w; mysql_run := mysql_run w;
     mysql_rows := mysql_rows w;
     pg_accepts := pg_accepts w; pg_creates_table := pg_creates_table w;
     pg_unquoted := pg_unquoted w; pg_encode := pg_encode w; pg_run := pg_run w;
     pg_tables := tables; kv_entries := kv_entries w; trace := trace w |}.

Definition with_kv_entries (entries : gmap string string) (w : World) : World :=
  {| mysql_accepts := mysql_accepts w; mysql_creates_table := mysql_creates_table w;
     mysql_json_as_text := mysql_json_as_text w;
     mysql_id_of_key := mysql_id_of_key w; mysql_run := mysql_run w;
     mysql_rows := mysql_rows w;
     pg_accepts := pg_accepts w; pg_creates_table := pg_creates_table w;
     pg_unquoted := pg_unquoted w; pg_encode := pg_encode w; pg_run := pg_run w;
     pg_tables := pg_tables w; kv_entries := entries; trace := trace w |}.

Definition log (e : Event) (w : World) : World :=
  {| mysql_accepts := mysql_accepts w; mysql_creates_table := mysql_creates_table w;
     mysql_json_as_text := mysql_json_as_text w;
     mysql_id_of_key := mysql_id_of_key w; mysql_run := mysql_run w;
     mysql_rows := mysql_rows w;
     pg_accepts := pg_accepts w; pg_creates_table := pg_creates_table w;
     pg_unquoted := pg_unquoted w; pg_encode := pg_encode w; pg_run := pg_run w;
     pg_tables := pg_tables w; kv_entries := kv_entries w; trace := trace w ++ [e] |}.

(** ** A column [config JSONB NOT NULL]

    What such a column keeps of a value bound to it. The members of an
    object are kept in the order of the column: shorter names first, names
    of one length in the order of their bytes, and of several members of
    one name the last. The value null is bound as SQL NULL, which the
    column refuses. *)
Definition name_before (a b : string) : bool :=
  Nat.ltb (String.length a) (String.length b)
  || (Nat.eqb (String.length a) (String.length b) && String.ltb a b).

Fixpoint jsonb_insert (name : string) (v : json) (members : list (string * json))
  : list (string * json) :=
  match members with
  | [] => [(name, v)]
  | (k, x) :: rest =>
      if String.eqb k name then (name, v) :: rest
      else if name_before name k then (name, v) :: members
      else (k, x) :: jsonb_insert name v rest
  end.

Fixpoint jsonb (v : json) : json :=
  match v with
  | JArr items => JArr (List.map jsonb items)
  | JObj members =>
      JObj (List.fold_left
              (fun kept m => jsonb_insert (fst m) (jsonb (snd m)) kept) members [])
  | other => other
  end.

Definition jsonb_column (v : json) : result json :=
  match v with
  | JNull => Throw (Error "null value in column config violates not-null constraint")
  | other => Ok (jsonb other)
  end.

Example jsonb_examples :
  jsonb_column (JObj [("title", JStr "b"); ("id", JNum 2); ("sites", JArr []);
                      ("id", JNum 3)]) =
    Ok (JObj [("id", JNum 3); ("sites", JArr []); ("title", JStr "b")]) /\
  jsonb_column (JStr "null") = Ok (JStr "null") /\
  (exists e : js_error, jsonb_column JNull = Throw e).
Proof. vm_compute. repeat split. eexists. reflexivity. Qed.

(** A world for examples: both servers up or down as told, the given
    rows and tables, a JSONB column, an empty namespace; raw statements
    return no rows. *)
Definition sample_world (mysql_up pg_up : bool) (rows : SqlRows)
  (tables : gmap string PgRows) : World :=
  {| mysql_accepts := fun _ => mysql_up;
     mysql_creates_table := true;
     mysql_json_as_text := false;
     mysql_id_of_key := fun _ => None;
     mysql_run := fun _ _ table => (Ok [], table);
     mysql_rows := rows;
     pg_accepts := fun _ => pg_up;
     pg_creates_table := true;
     pg_unquoted := fun name => Some name;
     pg_encode := jsonb_column;
     pg_run := fun _ _ t => (Ok [], t);
     pg_tables := tables;
     kv_entries := empty;
     trace := [] |}.

(** ** Rows of a table with a primary key *)

Section Rows.
Context {K : Type} (same : K -> K -> bool).

(** [SELECT ... WHERE id = k] *)
Definition select_id (k : K) (rows : list (K * json)) : list (K * json) :=
  List.filter (fun r => same (fst r) k) rows.

(** [UPDATE ... SET config = doc WHERE id = k] *)
Definition update_id (k : K) (doc : json) (rows : list (K * json)) : list (K * json) :=
  List.map (fun r => if same (fst r) k then (fst r, doc) else r) rows.

(** [INSERT ... VALUES (k, doc)]: refused when the key is taken. *)
Definition insert_row (k : K) (doc : json) (rows : list (K * json))
  : result (list (K * json)) :=
  match select_id k rows with
  | [] => Ok (rows ++ [(k, doc)])
  | _ :: _ => Throw (Error "duplicate key")
  end.

(** [INSERT ... ON CONFLICT (id) DO UPDATE SET config = doc] *)
Definition upsert_row (k : K) (doc : json) (rows : list (K * json)) : list (K * json) :=
  match select_id k rows with
  | [] => rows ++ [(k, doc)]
  | _ :: _ => update_id k doc rows
  end.

(** [DELETE ... WHERE id = k] *)
Definition delete_id (k : K) (rows : list (K * json)) : list (K * json) :=
  List.filter (fun r => negb (same (fst r) k)) rows.

(** The primary key: no two rows share an id. *)
Definition primary_key (rows : list (K * json)) : Prop :=
  forall k, List.length (select_id k rows) <= 1.

Hypothesis same_eq : forall x y : K, same x y = true <-> x = y.

Lemma same_refl (k : K) : same k k = true.
Proof. now apply same_eq. Qed.

Lemma select_id_app (k : K) (rows more : list (K * json)) :
  select_id k (rows ++ more) = select_id k rows ++ select_id k more.
Proof. apply List.filter_app. Qed.

Lemma select_id_update_length (k k' : K) (doc : json) (rows : list (K * json)) :
  List.length (select_id k' (update_id k doc rows)) = List.length (select_id k' rows).
Proof.
  unfold select_id, update_id.
  induction rows as [|[i d] rest IH]; [reflexivity|]. cbn.
  destruct (same i k); cbn; destruct (same i k'); cbn; now rewrite ?IH.
Qed.

Lemma select_id_update (k : K) (doc : json) (rows : list (K * json)) :
  select_id k (update_id k doc rows) =
  List.map (fun r => (fst r, doc)) (select_id k rows).
Proof.
  unfold select_id, update_id.
  induction rows as [|[i d] rest IH]; [reflexivity|]. cbn.
  destruct (same i k) eqn:E; cbn; rewrite ?E; cbn; now rewrite IH.
Qed.

Lemma select_id_fst (k : K) (rows : list (K * json)) (r : K * json) :
  In r (select_id k rows) -> fst r = k.
Proof.
  unfold select_id. rewrite List.filter_In. intros [_ H]. now apply same_eq.
Qed.

(** After an upsert the key has one row, which holds the new document,
    and the primary key still holds. *)
Lemma upsert_row_spec (k : K) (doc : json) (rows : list (K * json)) :
  primary_key rows ->
  select_id k (upsert_row k doc rows) = [(k, doc)] /\
  primary_key (upsert_row k doc rows).
Proof.
  intros Hpk. unfold upsert_row. destruct (select_id k rows) as [|r more] eqn:E.
  - split.
    + rewrite select_id_app, E. cbn. now rewrite same_refl.
    + intros k'. rewrite select_id_app, length_app. cbn.
      destruct (same k k') eqn:Ek; cbn; [|specialize (Hpk k'); lia].
      apply same_eq in Ek. subst k'. rewrite E. cbn. lia.
  - split.
    + rewrite select_id_update, E.
      assert (Hr : fst r = k) by (apply (select_id_fst k rows); rewrite E; now left).
      specialize (Hpk k). rewrite E in Hpk. cbn in Hpk.
      destruct more; [|cbn in Hpk; lia]. cbn. now rewrite Hr.
    + intros k'. rewrite select_id_update_length. apply Hpk.
Qed.

Lemma insert_row_free (k : K) (doc : json) (rows : list (K * json)) :
  select_id k rows = [] -> insert_row k doc rows = Ok (rows ++ [(k, doc)]).
Proof. unfold insert_row. now intros ->. Qed.

End Rows.

(** ** The script of a transaction callback

    A callback receives a handle and calls its methods; what it does with
    each answer, a value or an exception, is up to it. *)
Inductive Script : Type :=
| Return (v : json)
| Raise (e : js_error)
| CallInitialize (next : result bool -> Script)
| CallGet (key : string) (next : result (option json) -> Script)
| CallSet (key : string) (value : json) (next : result bool -> Script)
| CallDelete (key : string) (next : result bool -> Script)
| CallList (next : result (list string) -> Script)
| CallQuery (query : string) (params : list json) (next : result (list json) -> Script)
| CallTransaction (callback : Script) (next : result json -> Script)
| CallClose (next : result unit -> Script).

(** [return await handle.transaction(callback)] *)
Definition nested (callback : Script) : Script :=
  CallTransaction callback (fun r =>
    match r with
    | Ok v => Return v
    | Throw e => Raise e
    end).

Definition nested_transaction_error : js_error := Error "不支持嵌套事务".
Definition not_initialized_error : js_error := Error "数据库未初始化".
Definition not_a_function (method : string) : js_error := TypeError (method +:+ " is not a function").

End Store.

(** * SQLAdapter (MySQL through a connection pool) *)
Module SQLAdapter.

Import Json Js Dsn Store.

Record t : Type := {
  dsn : string;
  pool : option PoolOptions;     (* the pool, by the options it was created with *)
  initialized : bool
}.

(** [new SQLAdapter(dsn)] *)
Definition new (dsn : string) (w : World) : t * World :=
  ({| dsn := dsn; pool := None; initialized := false |}, log (Constructed SqlKind) w).

(** The body of [initialize()]. *)
Definition initialize_body (a : t) (w : World) : bool * t * World :=
  if initialized a then (true, a, w)
  else if negb (truthy_string (dsn a)) then (false, a, w)
  else
    match parseDSN (dsn a) with
    | Ok opts =>
        let w1 := log PoolCreated w in
        if mysql_accepts w opts && mysql_creates_table w
        then (true, {| dsn := dsn a; pool := Some opts; initialized := true |}, w1)
        else (false, {| dsn := dsn a; pool := None; initialized := initialized a |}, w1)
    | Throw _ =>
        (false, {| dsn := dsn a; pool := None; initialized := initialized a |}, w)
    end.

(** [initialize()] *)
Definition initialize (a : t) (w : World) : bool * t * World :=
  let '(ok, a', w') := initialize_body a w in
  (ok, a', log (InitializeCalled SqlKind ok) w').

(** [if (!this.pool) await this.initialize()] *)
Definition ensure_pool (a : t) (w : World) : t * World :=
  match pool a with
  | Some _ => (a, w)
  | None => let '(_, a', w') := initialize a w in (a', w')
  end.

(** The id a key addresses: the literal 1 for "config", the key itself otherwise. *)
Definition key_id (w : World) (key : string) : option Z :=
  if String.eqb key "config" then Some 1%Z else mysql_id_of_key w key.

(** The config column of a row as the driver hands it over. *)
Definition deliver (w : World) (doc : json) : json :=
  if mysql_json_as_text w then JStr (JSON_stringify doc) else doc.

(** What a JSON column keeps of the text bound to it. *)
Definition store_text (text : string) : result json :=
  match JSON_parse text with
  | Some doc => Ok doc
  | None => Throw (Error "Invalid JSON text")
  end.

(** [get(key)] *)
Definition get (key : string) (a : t) (w : World) : option json * t * World :=
  let '(a1, w1) := ensure_pool a w in
  match pool a1 with
  | None => (None, a1, w1)
  | Some opts =>
      if mysql_accepts w1 opts then
        match key_id w1 key with
        | Some id =>
            match select_id Z.eqb id (mysql_rows w1) with
            | row :: _ =>
                (catch (bind (decode_cell (deliver w1 (snd row))) (fun v => Ok (Some v)))
                       (fun _ => None), a1, w1)
            | [] => (None, a1, w1)
            end
        | None => (None, a1, w1)
        end
      else (None, a1, w1)
  end.

(** The statements of [set] between beginTransaction and commit. *)
Definition write (w : World) (key : string) (value : json) (rows : SqlRows)
  : result SqlRows :=
  bind (store_text (JSON_stringify value)) (fun doc =>
    match key_id w key with
    | Some id =>
        match select_id Z.eqb id rows with
        | _ :: _ => Ok (update_id Z.eqb id doc rows)
        | [] => insert_row Z.eqb id doc rows
        end
    | None => Throw (Error "Incorrect integer value")
    end).

(** [set(key, value)]: commit on success, rollback and false otherwise. *)
Definition set (key : string) (value : json) (a : t) (w : World) : bool * t * World :=
  let '(a1, w1) := ensure_pool a w in
  match pool a1 with
  | None => (false, a1, w1)
  | Some opts =>
      if mysql_accepts w1 opts then
        match write w1 key value (mysql_rows w1) with
        | Ok rows' => (true, a1, with_mysql_rows rows' w1)
        | Throw _ => (false, a1, w1)
        end
      else (false, a1, w1)
  end.

(** [delete(key)] *)
Definition delete (key : string) (a : t) (w : World) : bool * t * World :=
  let '(a1, w1) := ensure_pool a w in
  match pool a1 with
  | None => (false, a1, w1)
  | Some opts =>
      if mysql_accepts w1 opts then
        match key_id w1 key with
        | Some id => (true, a1, with_mysql_rows (delete_id Z.eqb id (mysql_rows w1)) w1)
        | None => (true, a1, w1)
        end
      else (false, a1, w1)
  end.

Definition id_text (id : Z) : string := string_of_list_ascii (Z_chars id).

(** [list()] *)
Definition list_keys (a : t) (w : World) : list string * t * World :=
  let '(a1, w1) := ensure_pool a w in
  match pool a1 with
  | None => ([], a1, w1)
  | Some opts =>
      if mysql_accepts w1 opts
      then (List.map (fun r => id_text (fst r)) (mysql_rows w1), a1, w1)
      else ([], a1, w1)
  end.

(** [query(query, params)] *)
Definition query (q : string) (params : list json) (a : t) (w : World)
  : list json * t * World :=
  let '(a1, w1) := ensure_pool a w in
  match pool a1 with
  | None => ([], a1, w1)
  | Some opts =>
      if mysql_accepts w1 opts then
        match mysql_run w1 q params (mysql_rows w1) with
        | (Ok rows, table) => (rows, a1, with_mysql_rows table w1)
        | (Throw _, table) => ([], a1, with_mysql_rows table w1)
        end
      else ([], a1, w1)
  end.

(** A callback run against [transactionAdapter], the object
    [{ ...this, query, transaction }]: the spread copies the fields of the
    adapter, not the methods of its class, so the handle has the two
    methods written out and no other. *)
Fixpoint run_handle (w : World) (s : Script) (rows : SqlRows) : result json * SqlRows :=
  match s with
  | Return v => (Ok v, rows)
  | Raise e => (Throw e, rows)
  | CallQuery q params next =>
      let '(r, rows') := mysql_run w q params rows in run_handle w (next r) rows'
  | CallTransaction _ next => run_handle w (next (Throw nested_transaction_error)) rows
  | CallInitialize next => run_handle w (next (Throw (not_a_function "initialize"))) rows
  | CallGet _ next => run_handle w (next (Throw (not_a_function "get"))) rows
  | CallSet _ _ next => run_handle w (next (Throw (not_a_function "set"))) rows
  | CallDelete _ next => run_handle w (next (Throw (not_a_function "delete"))) rows
  | CallList next => run_handle w (next (Throw (not_a_function "list"))) rows
  | CallClose next => run_handle w (next (Throw (not_a_function "close"))) rows
  end.

(** [transaction(callback)]: commit when the callback returns, rollback
    and rethrow when it throws. The rollback is taken to undo the
    statements the callback ran, as it does for the rows of a
    transactional table. *)
Definition transaction (callback : Script) (a : t) (w : World) : result json * t * World :=
  let '(a1, w1) := ensure_pool a w in
  match pool a1 with
  | None => (Throw not_initialized_error, a1, w1)
  | Some opts =>
      if mysql_accepts w1 opts then
        match run_handle w1 callback (mysql_rows w1) with
        | (Ok v, rows') => (Ok v, a1, with_mysql_rows rows' w1)
        | (Throw e, _) => (Throw e, a1, w1)
        end
      else (Throw (Error "getConnection failed"), a1, w1)
  end.

(** [close()] *)
Definition close (a : t) (w : World) : t * World :=
  match pool a with
  | Some _ => ({| dsn := dsn a; pool := None; initialized := false |}, log PoolEnded w)
  | None => (a, w)
  end.

End SQLAdapter.

(** * PgAdapter (src/db/adapters/pg-adapter.ts: one connection per operation) *)
Module PgAdapter.

Import Json Js Store.

Record PgAdapterOptions : Type := {
  connection : PgConnection;
  tableName_option : option string
}.

Record t : Type := {
  options : PgAdapterOptions;
  initialized : bool;
  tableName : string
}.

(** [new PgAdapter(options)] *)
Definition new (options : PgAdapterOptions) (w : World) : t * World :=
  ({| options := options; initialized := false;
      tableName := or_else (tableName_option options) "configs" |},
   log (Constructed PgKind) w).

(** A connection made by [createConnection()] reaches the server. *)
Definition reachable (a : t) (w : World) : bool :=
  pg_accepts w (connection (options a)).

(** [CREATE TABLE IF NOT EXISTS] under the quoted name. *)
Definition create_table (name : string) (tables : gmap string PgRows) : gmap string PgRows :=
  match tables !! name with
  | Some _ => tables
  | None => <[name := []]> tables
  end.

(** The body of [initialize()]. *)
Definition initialize_body (a : t) (w : World) : bool * t * World :=
  if initialized a then (true, a, w)
  else if reachable a w && pg_creates_table w then
    (true,
     {| options := options a; initialized := true; tableName := tableName a |},
     with_pg_tables (create_table (tableName a) (pg_tables w)) w)
  else (false, a, w).

(** [initialize()] *)
Definition initialize (a : t) (w : World) : bool * t * World :=
  let '(ok, a', w') := initialize_body a w in
  (ok, a', log (InitializeCalled PgKind ok) w').

(** [!this.initialized && !(await this.initialize())], negated: the
    operation may go on. *)
Definition ensure_initialized (a : t) (w : World) : bool * t * World :=
  if initialized a then (true, a, w) else initialize a w.

(** The value [set] hands to the driver: a string that is JSON text is
    replaced by what it parses to, anything else is kept. *)
Definition dataToStore (value : json) : json :=
  match value with
  | JStr text =>
      match JSON_parse text with
      | Some parsed => parsed
      | None => value
      end
  | _ => value
  end.

(** The statements, on the tables of the server. A table is addressed by
    its quoted name in the tagged templates and by its bare name in the
    raw INSERT of [set]. *)
Definition select_config (name key : string) (tables : gmap string PgRows)
  : result (option json) :=
  match tables !! name with
  | Some rows =>
      match select_id String.eqb key rows with
      | row :: _ => Ok (Some (snd row))
      | [] => Ok None
      end
  | None => Throw (Error "relation does not exist")
  end.

(** The raw INSERT ... ON CONFLICT of [set]. The value goes to the driver
    as it is: the conversion to JSONB is what the comments of the source
    leave to the driver. *)
Definition upsert_config (w : World) (name key : string) (value : json)
  (tables : gmap string PgRows) : result (gmap string PgRows) :=
  match pg_unquoted w name with
  | Some table =>
      match tables !! table with
      | Some rows =>
          bind (pg_encode w (dataToStore value)) (fun doc =>
            Ok (<[table := upsert_row String.eqb key doc rows]> tables))
      | None => Throw (Error "relation does not exist")
      end
  | None => Throw (Error "syntax error")
  end.

Definition delete_config (name key : string) (tables : gmap string PgRows)
  : result (gmap string PgRows) :=
  match tables !! name with
  | Some rows => Ok (<[name := delete_id String.eqb key rows]> tables)
  | None => Throw (Error "relation does not exist")
  end.

Definition select_ids (name : string) (tables : gmap string PgRows)
  : result (list string) :=
  match tables !! name with
  | Some rows => Ok (List.map fst rows)
  | None => Throw (Error "relation does not exist")
  end.

(** [get(key)]: [None] is the null returned for a key without a row; a
    row that holds JSON null gives [Some JNull], which is null to the
    caller as well. *)
Definition get (key : string) (a : t) (w : World) : option json * t * World :=
  let '(ok, a1, w1) := ensure_initialized a w in
  if ok then
    if reachable a1 w1
    then (catch (select_config (tableName a1) key (pg_tables w1)) (fun _ => None), a1, w1)
    else (None, a1, w1)
  else (None, a1, w1).

(** [set(key, value)] *)
Definition set (key : string) (value : json) (a : t) (w : World) : bool * t * World :=
  let '(ok, a1, w1) := ensure_initialized a w in
  if ok then
    if reachable a1 w1 then
      match upsert_config w1 (tableName a1) key value (pg_tables w1) with
      | Ok tables => (true, a1, with_pg_tables tables w1)
      | Throw _ => (false, a1, w1)
      end
    else (false, a1, w1)
  else (false, a1, w1).

(** [delete(key)] *)
Definition delete (key : string) (a : t) (w : World) : bool * t * World :=
  let '(ok, a1, w1) := ensure_initialized a w in
  if ok then
    if reachable a1 w1 then
      match delete_config (tableName a1) key (pg_tables w1) with
      | Ok tables => (true, a1, with_pg_tables tables w1)
      | Throw _ => (false, a1, w1)
      end
    else (false, a1, w1)
  else (false, a1, w1).

(** [list()] *)
Definition list_keys (a : t) (w : World) : list string * t * World :=
  let '(ok, a1, w1) := ensure_initialized a w in
  if ok then
    if reachable a1 w1
    then (catch (select_ids (tableName a1) (pg_tables w1)) (fun _ => []), a1, w1)
    else ([], a1, w1)
  else ([], a1, w1).

(** [query(query, params)] *)
Definition query (q : string) (params : list json) (a : t) (w : World)
  : list json * t * World :=
  let '(ok, a1, w1) := ensure_initialized a w in
  if ok then
    if reachable a1 w1 then
      match pg_run w1 q params (pg_tables w1) with
      | (Ok rows, tables) => (rows, a1, with_pg_tables tables w1)
      | (Throw _, tables) => ([], a1, with_pg_tables tables w1)
      end
    else ([], a1, w1)
  else ([], a1, w1).

(** The state of an open transaction: the tables as the transaction sees
    them, and the error of the first statement that failed. After a
    failure the server refuses every later statement of the transaction. *)
Record Tx : Type := {
  tx_tables : gmap string PgRows;
  tx_failed : option js_error
}.

Definition aborted_error : js_error := Error "current transaction is aborted".

(** One statement of the transaction. *)
Definition statement {A : Type} (tx : Tx)
  (run : gmap string PgRows -> result A * gmap string PgRows) : result A * Tx :=
  match tx_failed tx with
  | Some _ => (Throw aborted_error, tx)
  | None =>
      match run (tx_tables tx) with
      | (Ok v, tables) => (Ok v, {| tx_tables := tables; tx_failed := None |})
      | (Throw e, _) => (Throw e, {| tx_tables := tx_tables tx; tx_failed := Some e |})
      end
  end.

Definition reading {A : Type} (r : result A) (tables : gmap string PgRows)
  : result A * gmap string PgRows := (r, tables).

Definition writing (r : result (gmap string PgRows)) (tables : gmap string PgRows)
  : result bool * gmap string PgRows :=
  match r with
  | Ok tables' => (Ok true, tables')
  | Throw e => (Throw e, tables)
  end.

(** A callback run against [tempAdapter], whose methods use the client of
    the transaction; its [transaction] calls the callback it is given with
    [tempAdapter] itself. *)
Fixpoint run_handle (w : World) (a : t) (s : Script) (tx : Tx) : result json * Tx :=
  match s with
  | Return v => (Ok v, tx)
  | Raise e => (Throw e, tx)
  | CallInitialize next => run_handle w a (next (Ok true)) tx
  | CallGet key next =>
      let '(r, tx') := statement tx (fun tables =>
                         reading (select_config (tableName a) key tables) tables) in
      run_handle w a (next r) tx'
  | CallSet key value next =>
      let '(r, tx') := statement tx (fun tables =>
                         writing (upsert_config w (tableName a) key value tables) tables) in
      run_handle w a (next r) tx'
  | CallDelete key next =>
      let '(r, tx') := statement tx (fun tables =>
                         writing (delete_config (tableName a) key tables) tables) in
      run_handle w a (next r) tx'
  | CallList next =>
      let '(r, tx') := statement tx (fun tables =>
                         reading (select_ids (tableName a) tables) tables) in
      run_handle w a (next r) tx'
  | CallQuery q params next =>
      let '(r, tx') := statement tx (pg_run w q params) in
      run_handle w a (next r) tx'
  | CallTransaction callback next =>
      let '(r, tx') := run_handle w a callback tx in
      run_handle w a (next r) tx'
  | CallClose next => run_handle w a (next (Ok tt)) tx
  end.

(** [transaction(callback)]: [sql.begin] commits when the callback
    returns and no statement has failed; it rolls back and rejects when
    the callback throws, and also, with the error of the statement, when
    a statement has failed, whatever the callback made of that error. *)
Definition transaction (callback : Script) (a : t) (w : World) : result json * t * World :=
  let '(ok, a1, w1) := ensure_initialized a w in
  if ok then
    if reachable a1 w1 then
      match run_handle w1 a1 callback {| tx_tables := pg_tables w1; tx_failed := None |} with
      | (Ok v, tx) =>
          match tx_failed tx with
          | None => (Ok v, a1, with_pg_tables (tx_tables tx) w1)
          | Some e => (Throw e, a1, w1)
          end
      | (Throw e, _) => (Throw e, a1, w1)
      end
    else (Throw (Error "connection failed"), a1, w1)
  else (Throw not_initialized_error, a1, w1).

(** [close()] *)
Definition close (a : t) (w : World) : t * World :=
  ({| options := options a; initialized := false; tableName := tableName a |}, w).

End PgAdapter.

(** * KVAdapter (a key-value namespace, used through whatever methods it has) *)
Module KVAdapter.

Import Json Js Store.

(** The methods a namespace object offers. *)
Record KvObject : Type := {
  has_get : bool; has_read : bool;
  has_put : bool; has_write : bool; has_set : bool;
  has_delete : bool; has_remove : bool;
  has_list : bool; has_keys : bool
}.

(** [kvNamespace: any]: nothing (undefined, null), a value that is not an
    object, or a namespace object. *)
Inductive KvNamespace : Type :=
| KvAbsent
| KvPrimitive
| KvObj (api : KvObject).

Definition present (ns : KvNamespace) : bool :=
  match ns with
  | KvAbsent => false
  | _ => true
  end.

Definition offers (method : KvObject -> bool) (ns : KvNamespace) : bool :=
  match ns with
  | KvObj api => method api
  | _ => false
  end.

Record t : Type := {
  kvNamespace : KvNamespace;
  initialized : bool
}.

(** [new KVAdapter(kvNamespace)] *)
Definition new (ns : KvNamespace) (w : World) : t * World :=
  ({| kvNamespace := ns; initialized := false |}, log (Constructed KvKind) w).

Definition initialize_body (a : t) : bool * t :=
  match kvNamespace a with
  | KvObj _ => (true, {| kvNamespace := kvNamespace a; initialized := true |})
  | _ => (false, a)
  end.

(** [initialize()] *)
Definition initialize (a : t) (w : World) : bool * t * World :=
  let '(ok, a') := initialize_body a in
  (ok, a', log (InitializeCalled KvKind ok) w).

(** [JSON.parse(value)], or the value itself when it is no JSON text. *)
Definition parse_or_keep (value : string) : json :=
  match JSON_parse value with
  | Some v => v
  | None => JStr value
  end.

(** [get(key)] *)
Definition get (key : string) (a : t) (w : World) : option json :=
  if offers has_get (kvNamespace a) || offers has_read (kvNamespace a)
  then option_map parse_or_keep (kv_entries w !! key)
  else None.

Definition stringValue (value : json) : string :=
  match value with
  | JStr s => s
  | v => JSON_stringify v
  end.

(** [set(key, value)] *)
Definition set (key : string) (value : json) (a : t) (w : World) : bool * World :=
  if offers has_put (kvNamespace a) || offers has_write (kvNamespace a)
     || offers has_set (kvNamespace a)
  then (true, with_kv_entries (<[key := stringValue value]> (kv_entries w)) w)
  else (false, w).

(** [delete(key)] *)
Definition delete (key : string) (a : t) (w : World) : bool * World :=
  if offers has_delete (kvNamespace a) || offers has_remove (kvNamespace a)
  then (true, with_kv_entries (base.delete key (kv_entries w)) w)
  else (false, w).

(** [list()] *)
Definition list_keys (a : t) (w : World) : list string :=
  if offers has_list (kvNamespace a) || offers has_keys (kvNamespace a)
  then List.map fst (map_to_list (kv_entries w))
  else [].

(** [query()] *)
Definition query : list json := [].

(** [close()] *)
Definition close (a : t) : t :=
  {| kvNamespace := kvNamespace a; initialized := false |}.

(** A callback run against the adapter itself, which is what
    [transaction] passes to it. *)
Fixpoint run_handle (s : Script) (a : t) (w : World) : result json * t * World :=
  match s with
  | Return v => (Ok v, a, w)
  | Raise e => (Throw e, a, w)
  | CallInitialize next =>
      let '(ok, a', w') := initialize a w in run_handle (next (Ok ok)) a' w'
  | CallGet key next => run_handle (next (Ok (get key a w))) a w
  | CallSet key value next =>
      let '(ok, w') := set key value a w in run_handle (next (Ok ok)) a w'
  | CallDelete key next =>
      let '(ok, w') := delete key a w in run_handle (next (Ok ok)) a w'
  | CallList next => run_handle (next (Ok (list_keys a w))) a w
  | CallQuery _ _ next => run_handle (next (Ok query)) a w
  | CallTransaction callback next =>
      let '(r, a', w') := run_handle callback a w in run_handle (next r) a' w'
  | CallClose next => run_handle (next (Ok tt)) (close a) w
  end.

(** [transaction(callback)]: [return await callback(this)] *)
Definition transaction (callback : Script) (a : t) (w : World) : result json * t * World :=
  run_handle callback a w.

End KVAdapter.

(** * The facade: class Database *)
Module Database.

Import Json Js Store.

(** [pgConfig] of DatabaseConfig. *)
Record PgConfig : Type := {
  connection : PgConnection;
  tableName : option string
}.

Record DatabaseConfig : Type := {
  sqlDsn : option string;
  pgConfig : option PgConfig;
  kvNamespace : KVAdapter.KvNamespace
}.

(** The adapter the facade holds: an instance of one of the three classes. *)
Inductive Adapter : Type :=
| Sql (a : SQLAdapter.t)
| Pg (a : PgAdapter.t)
| Kv (a : KVAdapter.t).

Record t : Type := {
  adapter : option Adapter;
  initialized : bool
}.

(** [new Database()] *)
Definition fresh : t := {| adapter := None; initialized := false |}.

(** [this.initialized && this.adapter] *)
Definition bound (db : t) : bool :=
  initialized db && match adapter db with Some _ => true | None => false end.

Definition kind_of (a : Adapter) : Kind :=
  match a with
  | Sql _ => SqlKind
  | Pg _ => PgKind
  | Kv _ => KvKind
  end.

(** [adapter.close()] *)
Definition adapter_close (a : Adapter) (w : World) : Adapter * World :=
  match a with
  | Sql s => let '(s', w') := SQLAdapter.close s w in (Sql s', w')
  | Pg p => let '(p', w') := PgAdapter.close p w in (Pg p', w')
  | Kv k => (Kv (KVAdapter.close k), w)
  end.

(** [config.pgConfig && config.pgConfig.connection] *)
Definition connection_given (c : PgConnection) : bool :=
  match c with
  | ConnString s => truthy_string s
  | ConnObject _ => true
  end.

Definition pg_candidate (config : DatabaseConfig) : option PgConfig :=
  match pgConfig config with
  | Some pg => if connection_given (connection pg) then Some pg else None
  | None => None
  end.

(** The third block of [initialize]: the key-value namespace, then the
    final test of [this.adapter]. Each block starts with no adapter held. *)
Definition try_kv (config : DatabaseConfig) (db : t) (w : World) : bool * t * World :=
  if KVAdapter.present (kvNamespace config) then
    let '(a, w1) := KVAdapter.new (kvNamespace config) w in
    let '(ok, a', w2) := KVAdapter.initialize a w1 in
    if ok then (true, {| adapter := Some (Kv a'); initialized := true |}, w2)
    else (false, {| adapter := None; initialized := initialized db |}, w2)
  else (false, {| adapter := None; initialized := initialized db |}, w).

(** The second block: Postgres. *)
Definition try_pg (config : DatabaseConfig) (db : t) (w : World) : bool * t * World :=
  match pg_candidate config with
  | Some pg =>
      let options := {| PgAdapter.connection := connection pg;
                        PgAdapter.tableName_option := tableName pg |} in
      let '(a, w1) := PgAdapter.new options w in
      let '(ok, a', w2) := PgAdapter.initialize a w1 in
      if ok then (true, {| adapter := Some (Pg a'); initialized := true |}, w2)
      else try_kv config db w2
  | None => try_kv config db w
  end.

(** The first block: the SQL DSN. *)
Definition try_sql (config : DatabaseConfig) (db : t) (w : World) : bool * t * World :=
  match sqlDsn config with
  | Some dsn =>
      if truthy_string dsn then
        let '(a, w1) := SQLAdapter.new dsn w in
        let '(ok, a', w2) := SQLAdapter.initialize a w1 in
        if ok then (true, {| adapter := Some (Sql a'); initialized := true |}, w2)
        else try_pg config db w2
      else try_pg config db w
  | None => try_pg config db w
  end.

(** [if (this.adapter) { await this.adapter.close(); this.adapter = null }] *)
Definition release (db : t) (w : World) : t * World :=
  match adapter db with
  | Some a =>
      let '(_, w') := adapter_close a w in
      ({| adapter := None; initialized := initialized db |}, w')
  | None => (db, w)
  end.

(** [initialize(config)]. No adapter operation throws, so the catch
    clause of the source is never entered. *)
Definition initialize (config : DatabaseConfig) (db : t) (w : World) : bool * t * World :=
  if bound db then (true, db, w)
  else
    let '(db1, w1) := release db w in
    try_sql config db1 w1.

(** [getAdapter()] *)
Definition getAdapter (db : t) : option Adapter := adapter db.

Definition rebind (db : t) (a : Adapter) : t :=
  {| adapter := Some a; initialized := initialized db |}.

(** The forwarders: a "not initialized" error without an adapter. *)
Definition get (key : string) (db : t) (w : World) : result (option json) * t * World :=
  match adapter db with
  | None => (Throw not_initialized_error, db, w)
  | Some (Sql a) => let '(r, a', w') := SQLAdapter.get key a w in (Ok r, rebind db (Sql a'), w')
  | Some (Pg a) => let '(r, a', w') := PgAdapter.get key a w in (Ok r, rebind db (Pg a'), w')
  | Some (Kv a) => (Ok (KVAdapter.get key a w), db, w)
  end.

Definition set (key : string) (value : json) (db : t) (w : World)
  : result bool * t * World :=
  match adapter db with
  | None => (Throw not_initialized_error, db, w)
  | Some (Sql a) =>
      let '(r, a', w') := SQLAdapter.set key value a w in (Ok r, rebind db (Sql a'), w')
  | Some (Pg a) =>
      let '(r, a', w') := PgAdapter.set key value a w in (Ok r, rebind db (Pg a'), w')
  | Some (Kv a) => let '(r, w') := KVAdapter.set key value a w in (Ok r, db, w')
  end.

Definition delete (key : string) (db : t) (w : World) : result bool * t * World :=
  match adapter db with
  | None => (Throw not_initialized_error, db, w)
  | Some (Sql a) =>
      let '(r, a', w') := SQLAdapter.delete key a w in (Ok r, rebind db (Sql a'), w')
  | Some (Pg a) =>
      let '(r, a', w') := PgAdapter.delete key a w in (Ok r, rebind db (Pg a'), w')
  | Some (Kv a) => let '(r, w') := KVAdapter.delete key a w in (Ok r, db, w')
  end.

Definition list_keys (db : t) (w : World) : result (list string) * t * World :=
  match adapter db with
  | None => (Throw not_initialized_error, db, w)
  | Some (Sql a) =>
      let '(r, a', w') := SQLAdapter.list_keys a w in (Ok r, rebind db (Sql a'), w')
  | Some (Pg a) =>
      let '(r, a', w') := PgAdapter.list_keys a w in (Ok r, rebind db (Pg a'), w')
  | Some (Kv a) => (Ok (KVAdapter.list_keys a w), db, w)
  end.

Definition query (q : string) (params : list json) (db : t) (w : World)
  : result (list json) * t * World :=
  match adapter db with
  | None => (Throw not_initialized_error, db, w)
  | Some (Sql a) =>
      let '(r, a', w') := SQLAdapter.query q params a w in (Ok r, rebind db (Sql a'), w')
  | Some (Pg a) =>
      let '(r, a', w') := PgAdapter.query q params a w in (Ok r, rebind db (Pg a'), w')
  | Some (Kv a) => (Ok KVAdapter.query, db, w)
  end.

Definition transaction (callback : Script) (db : t) (w : World)
  : result json * t * World :=
  match adapter db with
  | None => (Throw not_initialized_error, db, w)
  | Some (Sql a) =>
      let '(r, a', w') := SQLAdapter.transaction callback a w in (r, rebind db (Sql a'), w')
  | Some (Pg a) =>
      let '(r, a', w') := PgAdapter.transaction callback a w in (r, rebind db (Pg a'), w')
  | Some (Kv a) =>
      let '(r, a', w') := KVAdapter.transaction callback a w in (r, rebind db (Kv a'), w')
  end.

(** [close()] *)
Definition close (db : t) (w : World) : t * World :=
  match adapter db with
  | Some a =>
      let '(_, w') := adapter_close a w in
      ({| adapter := None; initialized := false |}, w')
  | None => (db, w)
  end.

(** ** The selection rule as the specification words it *)

Inductive Candidate : Type :=
| SqlCandidate (dsn : string)
| PgCandidate (pg : PgConfig)
| KvCandidate (ns : KVAdapter.KvNamespace).

Definition candidate_kind (c : Candidate) : Kind :=
  match c with
  | SqlCandidate _ => SqlKind
  | PgCandidate _ => PgKind
  | KvCandidate _ => KvKind
  end.

(** The candidates present in a configuration, in priority order. *)
Definition candidates (config : DatabaseConfig) : list Candidate :=
  match sqlDsn config with
  | Some dsn => if truthy_string dsn then [SqlCandidate dsn] else []
  | None => []
  end ++
  match pg_candidate config with
  | Some pg => [PgCandidate pg]
  | None => []
  end ++
  (if KVAdapter.present (kvNamespace config) then [KvCandidate (kvNamespace config)] else []).

(** Construct the adapter of a candidate and call its [initialize()]. *)
Definition attempt (c : Candidate) (w : World) : bool * Adapter * World :=
  match c with
  | SqlCandidate dsn =>
      let '(a, w1) := SQLAdapter.new dsn w in
      let '(ok, a', w2) := SQLAdapter.initialize a w1 in (ok, Sql a', w2)
  | PgCandidate pg =>
      let '(a, w1) := PgAdapter.new {| PgAdapter.connection := connection pg;
                                       PgAdapter.tableName_option := tableName pg |} w in
      let '(ok, a', w2) := PgAdapter.initialize a w1 in (ok, Pg a', w2)
  | KvCandidate ns =>
      let '(a, w1) := KVAdapter.new ns w in
      let '(ok, a', w2) := KVAdapter.initialize a w1 in (ok, Kv a', w2)
  end.

(** Try the candidates in order; stop at the first whose adapter
    initializes, dropping the adapters that did not. *)
Fixpoint first_success (cs : list Candidate) (w : World) : option Adapter * World :=
  match cs with
  | [] => (None, w)
  | c :: rest =>
      let '(ok, a, w') := attempt c w in
      if ok then (Some a, w') else first_success rest w'
  end.

(** The facade after the selection. *)
Definition selected (db : t) (found : option Adapter) : bool * t :=
  match found with
  | Some a => (true, {| adapter := Some a; initialized := true |})
  | None => (false, {| adapter := None; initialized := initialized db |})
  end.

Lemma try_kv_first_success (config : DatabaseConfig) (db : t) (w : World) :
  try_kv config db w =
  let '(found, w') :=
    first_success (if KVAdapter.present (kvNamespace config)
                   then [KvCandidate (kvNamespace config)] else []) w in
  let '(ok, db') := selected db found in (ok, db', w').
Proof.
  unfold try_kv. destruct (KVAdapter.present (kvNamespace config)); [|reflexivity].
  cbn [first_success attempt].
  destruct (KVAdapter.new (kvNamespace config) w) as [a w1].
  destruct (KVAdapter.initialize a w1) as [[[] a'] w2]; reflexivity.
Qed.

Lemma try_pg_first_success (config : DatabaseConfig) (db : t) (w : World) :
  try_pg config db w =
  let '(found, w') :=
    first_success (match pg_candidate config with
                   | Some pg => [PgCandidate pg]
                   | None => []
                   end ++
                   (if KVAdapter.present (kvNamespace config)
                    then [KvCandidate (kvNamespace config)] else [])) w in
  let '(ok, db') := selected db found in (ok, db', w').
Proof.
  unfold try_pg. destruct (pg_candidate config) as [pg|].
  - cbn [app first_success attempt].
    destruct (PgAdapter.new _ w) as [a w1].
    destruct (PgAdapter.initialize a w1) as [[[] a'] w2]; [reflexivity|].
    apply try_kv_first_success.
  - apply try_kv_first_success.
Qed.

Lemma try_sql_first_success (config : DatabaseConfig) (db : t) (w : World) :
  try_sql config db w =
  let '(found, w') := first_success (candidates config) w in
  let '(ok, db') := selected db found in (ok, db', w').
Proof.
  unfold try_sql, candidates. destruct (sqlDsn config) as [dsn|].
  - destruct (truthy_string dsn).
    + cbn [app first_success attempt].
      destruct (SQLAdapter.new dsn w) as [a w1].
      destruct (SQLAdapter.initialize a w1) as [[[] a'] w2]; [reflexivity|].
      apply try_pg_first_success.
    + apply try_pg_first_success.
  - apply try_pg_first_success.
Qed.

(** The kinds of the candidates always come in the order SQL, Postgres, key-value. *)
Lemma candidates_in_priority_order (config : DatabaseConfig) :
  exists (sql pg kv : bool),
    List.map candidate_kind (candidates config) =
    (if sql then [SqlKind] else []) ++ (if pg then [PgKind] else []) ++
    (if kv then [KvKind] else []).
Proof.
  unfold candidates.
  exists (match sqlDsn config with Some dsn => truthy_string dsn | None => false end),
         (match pg_candidate config with Some _ => true | None => false end),
         (KVAdapter.present (kvNamespace config)).
  rewrite !List.map_app.
  destruct (sqlDsn config) as [dsn|]; [destruct (truthy_string dsn)|];
    destruct (pg_candidate config); destruct (KVAdapter.present (kvNamespace config));
    reflexivity.
Qed.

Lemma release_unbinds (db : t) (w : World) :
  adapter (fst (release db w)) = None /\
  initialized (fst (release db w)) = initialized db.
Proof.
  unfold release. destruct (adapter db) as [a|] eqn:E.
  - destruct (adapter_close a w). cbn. auto.
  - cbn. auto.
Qed.

(** C2. On a facade that is not bound, initialize(config) tries the
    candidates present in the configuration in the order SQL DSN, Postgres
    connection, key-value namespace: it constructs the adapter of each and
    calls its initialize(); the first success binds that adapter and ends
    the call with true, nothing of a later candidate being constructed; a
    failure drops the adapter and moves on; with no success (or no
    candidate) the call returns false and no adapter is bound. *)
Theorem initialize_tries_candidates_in_priority_order
  (config : DatabaseConfig) (db : t) (w : World) :
  bound db = false ->
  initialize config db w =
  let '(db1, w1) := release db w in
  let '(found, w2) := first_success (candidates config) w1 in
  let '(ok, db2) := selected db found in
  (ok, db2, w2).
Proof.
  intros Hunbound. unfold initialize. rewrite Hunbound.
  pose proof (release_unbinds db w) as [_ Hinit].
  destruct (release db w) as [db1 w1]. cbn [fst] in Hinit.
  rewrite try_sql_first_success.
  destruct (first_success (candidates config) w1) as [[a|] w2]; cbn [selected];
    [reflexivity|]. now rewrite Hinit.
Qed.

Definition sql_and_pg : DatabaseConfig :=
  {| sqlDsn := Some "root:secret@db.local:3306/videos";
     pgConfig := Some {| connection := ConnString "postgres://app@pg.local/videos";
                         tableName := None |};
     kvNamespace := KVAdapter.KvAbsent |}.

Lemma initialize_tries_candidates_in_priority_order_witness :
  bound fresh = false /\
  (* SQL answers: it is bound, and nothing of Postgres runs *)
  (let '(ok, db, w) := initialize sql_and_pg fresh (sample_world true true [] empty) in
   ok = true /\ option_map kind_of (adapter db) = Some SqlKind /\
   trace w = [Constructed SqlKind; PoolCreated; InitializeCalled SqlKind true]) /\
  (* SQL fails: Postgres is tried next, once *)
  (let '(ok, db, w) := initialize sql_and_pg fresh (sample_world false true [] empty) in
   ok = true /\ option_map kind_of (adapter db) = Some PgKind /\
   trace w = [Constructed SqlKind; PoolCreated; InitializeCalled SqlKind false;
              Constructed PgKind; InitializeCalled PgKind true]) /\
  (* both fail: nothing is bound *)
  (let '(ok, db, w) := initialize sql_and_pg fresh (sample_world false false [] empty) in
   ok = false /\ adapter db = None /\
   trace w = [Constructed SqlKind; PoolCreated; InitializeCalled SqlKind false;
              Constructed PgKind; InitializeCalled PgKind false]).
Proof.
  split; [reflexivity|].
  rewrite !(initialize_tries_candidates_in_priority_order sql_and_pg fresh _ eq_refl).
  repeat split; reflexivity.
Defined.

(** ** Calls on the facade other than close *)

Inductive Call : Type :=
| Initialize (config : DatabaseConfig)
| Get (key : string)
| Set_ (key : string) (value : json)
| Delete (key : string)
| ListKeys
| Query (q : string) (params : list json)
| Transaction (callback : Script).

Definition call (c : Call) (db : t) (w : World) : t * World :=
  match c with
  | Initialize config => let '(_, db', w') := initialize config db w in (db', w')
  | Get key => let '(_, db', w') := get key db w in (db', w')
  | Set_ key value => let '(_, db', w') := set key value db w in (db', w')
  | Delete key => let '(_, db', w') := delete key db w in (db', w')
  | ListKeys => let '(_, db', w') := list_keys db w in (db', w')
  | Query q params => let '(_, db', w') := query q params db w in (db', w')
  | Transaction callback => let '(_, db', w') := transaction callback db w in (db', w')
  end.

Fixpoint calls (cs : list Call) (db : t) (w : World) : t * World :=
  match cs with
  | [] => (db, w)
  | c :: rest => let '(db', w') := call c db w in calls rest db' w'
  end.

(** The class of the bound adapter. *)
Definition bound_kind (db : t) : option Kind := option_map kind_of (adapter db).

Lemma initialize_when_bound (config : DatabaseConfig) (db : t) (w : World) :
  bound db = true -> initialize config db w = (true, db, w).
Proof. intros H. unfold initialize. now rewrite H. Qed.

Lemma initialize_success_binds (config : DatabaseConfig) (db db' : t) (w w' : World) :
  initialize config db w = (true, db', w') -> bound db' = true.
Proof.
  unfold initialize. destruct (bound db) eqn:Hb; [now intros [= <- <-]|].
  destruct (release db w) as [db1 w1]. rewrite try_sql_first_success.
  destruct (first_success (candidates config) w1) as [[a|] w2]; cbn [selected];
    [now intros [= <- <-] | discriminate].
Qed.

Lemma rebind_bound (db : t) (a a' : Adapter) :
  bound db = true -> adapter db = Some a -> kind_of a' = kind_of a ->
  bound (rebind db a') = true /\ bound_kind (rebind db a') = bound_kind db.
Proof.
  unfold bound, bound_kind, rebind. cbn. intros Hb Ha Hk. rewrite Ha in *. cbn.
  rewrite andb_true_r in *. rewrite Hk. auto.
Qed.

Lemma call_keeps_binding (c : Call) (db : t) (w : World) :
  bound db = true ->
  bound (fst (call c db w)) = true /\ bound_kind (fst (call c db w)) = bound_kind db.
Proof.
  intros Hb.
  assert (Ha : exists a, adapter db = Some a).
  { unfold bound in Hb. destruct (adapter db); [eauto|].
    rewrite andb_false_r in Hb. discriminate. }
  destruct Ha as [a Ha].
  destruct c; cbn [call].
  - rewrite initialize_when_bound by exact Hb. auto.
  - unfold get. rewrite Ha. destruct a as [s|p|k].
    + destruct (SQLAdapter.get key s w) as [[r s'] w']. now apply (rebind_bound db (Sql s)).
    + destruct (PgAdapter.get key p w) as [[r p'] w']. now apply (rebind_bound db (Pg p)).
    + auto.
  - unfold set. rewrite Ha. destruct a as [s|p|k].
    + destruct (SQLAdapter.set key value s w) as [[r s'] w']. now apply (rebind_bound db (Sql s)).
    + destruct (PgAdapter.set key value p w) as [[r p'] w']. now apply (rebind_bound db (Pg p)).
    + destruct (KVAdapter.set key value k w). auto.
  - unfold delete. rewrite Ha. destruct a as [s|p|k].
    + destruct (SQLAdapter.delete key s w) as [[r s'] w']. now apply (rebind_bound db (Sql s)).
    + destruct (PgAdapter.delete key p w) as [[r p'] w']. now apply (rebind_bound db (Pg p)).
    + destruct (KVAdapter.delete key k w). auto.
  - unfold list_keys. rewrite Ha. destruct a as [s|p|k].
    + destruct (SQLAdapter.list_keys s w) as [[r s'] w']. now apply (rebind_bound db (Sql s)).
    + destruct (PgAdapter.list_keys p w) as [[r p'] w']. now apply (rebind_bound db (Pg p)).
    + auto.
  - unfold query. rewrite Ha. destruct a as [s|p|k].
    + destruct (SQLAdapter.query q params s w) as [[r s'] w']. now apply (rebind_bound db (Sql s)).
    + destruct (PgAdapter.query q params p w) as [[r p'] w']. now apply (rebind_bound db (Pg p)).
    + auto.
  - unfold transaction. rewrite Ha. destruct a as [s|p|k].
    + destruct (SQLAdapter.transaction callback s w) as [[r s'] w'].
      now apply (rebind_bound db (Sql s)).
    + destruct (PgAdapter.transaction callback p w) as [[r p'] w'].
      now apply (rebind_bound db (Pg p)).
    + destruct (KVAdapter.transaction callback k w) as [[r k'] w'].
      now apply (rebind_bound db (Kv k)).
Qed.

Lemma calls_keep_binding (cs : list Call) (db : t) (w : World) :
  bound db = true ->
  bound (fst (calls cs db w)) = true /\ bound_kind (fst (calls cs db w)) = bound_kind db.
Proof.
  revert db w. induction cs as [|c rest IH]; intros db w Hb; [now split|].
  cbn [calls]. pose proof (call_keeps_binding c db w Hb) as [Hb' Hk'].
  destruct (call c db w) as [db' w']. cbn [fst] in *.
  destruct (IH db' w' Hb') as [Hb'' Hk'']. split; [exact Hb''|congruence].
Qed.

(** C3. Once initialize has succeeded, after any later calls on the
    facade other than close (initialize with any configuration, get, set,
    delete, list, query, transaction), the facade still holds an adapter
    of the same class, and a call of initialize with any configuration
    returns true and changes neither the facade nor anything outside it:
    no adapter is constructed and no pool is created. *)
Theorem initialize_is_idempotent_once_bound
  (config : DatabaseConfig) (db db1 : t) (w w1 : World) (later : list Call) :
  initialize config db w = (true, db1, w1) ->
  let '(db2, w2) := calls later db1 w1 in
  bound_kind db2 = bound_kind db1 /\
  forall again : DatabaseConfig, initialize again db2 w2 = (true, db2, w2).
Proof.
  intros Hinit. apply initialize_success_binds in Hinit.
  pose proof (calls_keep_binding later db1 w1 Hinit) as [Hb Hk].
  destruct (calls later db1 w1) as [db2 w2]. cbn [fst] in *.
  split; [exact Hk|]. intros again. now apply initialize_when_bound.
Qed.

Definition kv_only : DatabaseConfig :=
  {| sqlDsn := None; pgConfig := None; kvNamespace := KVAdapter.KvPrimitive |}.

Lemma initialize_is_idempotent_once_bound_witness :
  let first := initialize sql_and_pg fresh (sample_world true true [] empty) in
  let db1 := snd (fst first) in
  let w1 := snd first in
  first = (true, db1, w1) /\
  let '(db2, w2) :=
    calls [Set_ "config" (JNum 7); Initialize kv_only; Get "config";
           Transaction (nested (Return JNull))] db1 w1 in
  bound_kind db2 = bound_kind db1 /\
  forall again : DatabaseConfig, initialize again db2 w2 = (true, db2, w2).
Proof.
  intros first db1 w1. split; [reflexivity|].
  apply (initialize_is_idempotent_once_bound sql_and_pg fresh db1
           (sample_world true true [] empty) w1).
  reflexivity.
Defined.

End Database.

(** * The contract of the adapters: upsert and transactions *)
Module Contract.

Import Json Js Dsn Store.

(** ** SQLAdapter on the singleton key *)

Lemma store_text_stringify (v : json) : SQLAdapter.store_text (JSON_stringify v) = Ok v.
Proof. unfold SQLAdapter.store_text. now rewrite JSON_parse_stringify. Qed.

Lemma sql_write_config (w : World) (v : json) (rows : SqlRows) :
  SQLAdapter.write w "config" v rows = Ok (upsert_row Z.eqb 1%Z v rows).
Proof.
  unfold SQLAdapter.write. rewrite store_text_stringify. cbn [bind].
  change (SQLAdapter.key_id w "config") with (Some 1%Z). cbv iota.
  unfold upsert_row. destruct (select_id Z.eqb 1%Z rows) eqn:E; [|reflexivity].
  now apply insert_row_free.
Qed.

Lemma ensure_pool_ready (a : SQLAdapter.t) (w : World) (opts : PoolOptions) :
  SQLAdapter.pool a = Some opts -> SQLAdapter.ensure_pool a w = (a, w).
Proof. unfold SQLAdapter.ensure_pool. now intros ->. Qed.

Lemma sql_set_config (a : SQLAdapter.t) (w : World) (opts : PoolOptions) (v : json) :
  SQLAdapter.pool a = Some opts -> mysql_accepts w opts = true ->
  SQLAdapter.set "config" v a w =
  (true, a, with_mysql_rows (upsert_row Z.eqb 1%Z v (mysql_rows w)) w).
Proof.
  intros Hpool Hup. unfold SQLAdapter.set.
  rewrite (ensure_pool_ready a w opts Hpool), Hpool, Hup, sql_write_config.
  reflexivity.
Qed.




(** ** PgAdapter *)

(** The adapter is initialized, its server answers, and its table exists
    under the name the raw INSERT addresses. *)
Definition pg_ready (a : PgAdapter.t) (w : World) (rows : PgRows) : Prop :=
  PgAdapter.initialized a = true /\
  PgAdapter.reachable a w = true /\
  pg_unquoted w (PgAdapter.tableName a) = Some (PgAdapter.tableName a) /\
  pg_tables w !! PgAdapter.tableName a = Some rows.

Lemma pg_set_ready (a : PgAdapter.t) (w : World) (rows : PgRows) (key : string)
  (v doc : json) :
  pg_ready a w rows ->
  pg_encode w (PgAdapter.dataToStore v) = Ok doc ->
  let rows' := upsert_row String.eqb key doc rows in
  PgAdapter.set key v a w =
    (true, a, with_pg_tables (<[PgAdapter.tableName a := rows']> (pg_tables w)) w) /\
  pg_ready a (with_pg_tables (<[PgAdapter.tableName a := rows']> (pg_tables w)) w) rows'.
Proof.
  intros (Hinit & Hup & Hname & Htable) Hdoc. cbv zeta. split.
  - unfold PgAdapter.set, PgAdapter.ensure_initialized, PgAdapter.upsert_config.
    rewrite Hinit. cbv beta iota. rewrite Hup, Hname. cbv beta iota.
    rewrite Htable, Hdoc. reflexivity.
  - repeat split; try assumption. cbn. apply lookup_insert_eq.
Qed.

Lemma pg_set_refused (a : PgAdapter.t) (w : World) (rows : PgRows) (key : string)
  (v : json) (e : js_error) :
  pg_ready a w rows ->
  pg_encode w (PgAdapter.dataToStore v) = Throw e ->
  PgAdapter.set key v a w = (false, a, w).
Proof.
  intros (Hinit & Hup & Hname & Htable) Hdoc.
  unfold PgAdapter.set, PgAdapter.ensure_initialized, PgAdapter.upsert_config.
  rewrite Hinit. cbv beta iota. rewrite Hup, Hname. cbv beta iota.
  rewrite Htable, Hdoc. reflexivity.
Qed.


Lemma dataToStore_not_string (v : json) :
  is_string v = false -> PgAdapter.dataToStore v = v.
Proof. destruct v; try reflexivity. discriminate. Qed.

(** ** Upsert *)

Definition sql_sample : SQLAdapter.t :=
  {| SQLAdapter.dsn := "root:secret@db.local:3306/videos";
     SQLAdapter.pool :=
       Some {| host := "db.local"; port := Some 3306%Z; user := "root";
               password := Some "secret"; database := Some "videos";
               waitForConnections := true; connectionLimit := 10;
               maxIdle := 10; queueLimit := 0 |};
     SQLAdapter.initialized := true |}.

Definition pg_sample : PgAdapter.t :=
  {| PgAdapter.options :=
       {| PgAdapter.connection := ConnString "postgres://app@pg.local/videos";
          PgAdapter.tableName_option := None |};
     PgAdapter.initialized := true;
     PgAdapter.tableName := "configs" |}.

Definition configs_table (rows : PgRows) : gmap string PgRows :=
  <["configs" := rows]> empty.


(** What one call of set leaves: the adapter as it was, its table in
    place under the primary key, and the same column. When the column
    refuses the value nothing is written. *)
Lemma pg_set_outcome (a : PgAdapter.t) (w : World) (rows : PgRows) (key : string)
  (v : json) :
  pg_ready a w rows -> primary_key String.eqb rows ->
  exists (ok : bool) (w1 : World) (rows1 : PgRows),
    PgAdapter.set key v a w = (ok, a, w1) /\
    pg_ready a w1 rows1 /\ primary_key String.eqb rows1 /\
    pg_encode w1 = pg_encode w /\
    match pg_encode w (PgAdapter.dataToStore v) with
    | Ok doc => ok = true /\ rows1 = upsert_row String.eqb key doc rows
    | Throw _ => ok = false /\ w1 = w /\ rows1 = rows
    end.
Proof.
  intros Hready Hpk.
  destruct (pg_encode w (PgAdapter.dataToStore v)) as [doc|e] eqn:Hdoc.
  - destruct (pg_set_ready a w rows key v doc Hready Hdoc) as [Hset Hready1].
    eexists _, _, _. split; [exact Hset|]. split; [exact Hready1|].
    split; [now apply (upsert_row_spec String.eqb String.eqb_eq)|].
    split; [reflexivity|]. now split.
  - exists false, w, rows. split; [now apply (pg_set_refused a w rows key v e)|].
    split; [exact Hready|]. split; [exact Hpk|]. split; [reflexivity|]. now split.
Qed.


Definition sample_record : json :=
  JObj [("resourceSites", JArr []); ("enableLogin", JBool true);
        ("loginPassword", JStr "hunter2")].

(** [sample_record] as a JSONB column returns it. *)
Definition sample_document : json :=
  JObj [("enableLogin", JBool true); ("loginPassword", JStr "hunter2");
        ("resourceSites", JArr [])].


(** ** Transactions *)

Lemma pg_run_nested (w : World) (a : PgAdapter.t) (callback : Script) (tx : PgAdapter.Tx) :
  PgAdapter.run_handle w a (nested callback) tx = PgAdapter.run_handle w a callback tx.
Proof.
  unfold nested. cbn [PgAdapter.run_handle].
  destruct (PgAdapter.run_handle w a callback tx) as [[v|e] tx']; reflexivity.
Qed.

Definition kv_sample : KVAdapter.t :=
  {| KVAdapter.kvNamespace :=
       KVAdapter.KvObj {| KVAdapter.has_get := true; KVAdapter.has_read := false;
                          KVAdapter.has_put := true; KVAdapter.has_write := false;
                          KVAdapter.has_set := false; KVAdapter.has_delete := true;
                          KVAdapter.has_remove := false; KVAdapter.has_list := true;
                          KVAdapter.has_keys := false |};
     KVAdapter.initialized := true |}.

(** C6, as stated, fails on Postgres: the transaction method of the
    handle runs the callback it is given instead of failing. *)
Lemma pg_nested_transaction_runs_the_callback :
  let w := sample_world false true [] (configs_table []) in
  let '(r, _, w') :=
    PgAdapter.transaction
      (nested (CallSet "config" (JNum 1) (fun _ => Return (JStr "inner ran"))))
      pg_sample w in
  r = Ok (JStr "inner ran") /\
  pg_tables w' !! "configs" = Some [("config", JNum 1)].
Proof. vm_compute. split; reflexivity. Qed.

(** C6, amended. For every callback: on the SQL adapter, calling
    transaction on the handle of a running transaction fails at once with
    the nested-transaction error, without running the callback, and a
    transaction that lets this error through is rolled back; on the
    Postgres adapter the same call runs the callback against the same
    handle, inside the running transaction; the key-value adapter runs a
    callback against the adapter itself, and what the callback wrote
    before it threw stays written. *)
Theorem nested_transaction_per_adapter (callback : Script) :
  (forall (w : World) (rows : SqlRows) (next : result json -> Script),
     SQLAdapter.run_handle w (CallTransaction callback next) rows =
     SQLAdapter.run_handle w (next (Throw nested_transaction_error)) rows) /\
  (forall (a : SQLAdapter.t) (w : World) (opts : PoolOptions),
     SQLAdapter.pool a = Some opts -> mysql_accepts w opts = true ->
     SQLAdapter.transaction (nested callback) a w =
     (Throw nested_transaction_error, a, w)) /\
  (forall (w : World) (a : PgAdapter.t) (tx : PgAdapter.Tx) (next : result json -> Script),
     PgAdapter.run_handle w a (CallTransaction callback next) tx =
     let '(r, tx') := PgAdapter.run_handle w a callback tx in
     PgAdapter.run_handle w a (next r) tx') /\
  (forall (a : PgAdapter.t) (w : World),
     PgAdapter.transaction (nested callback) a w = PgAdapter.transaction callback a w) /\
  (forall (a : KVAdapter.t) (w : World),
     KVAdapter.transaction callback a w = KVAdapter.run_handle callback a w) /\
  (forall (a : KVAdapter.t) (w : World) (key : string) (value : json) (e : js_error),
     KVAdapter.offers KVAdapter.has_put (KVAdapter.kvNamespace a) = true ->
     KVAdapter.transaction (CallSet key value (fun _ => Raise e)) a w =
     (Throw e, a,
      with_kv_entries (<[key := KVAdapter.stringValue value]> (kv_entries w)) w)).
Proof.
  split; [reflexivity|]. split.
  - intros a w opts Hpool Hup. unfold SQLAdapter.transaction.
    rewrite (ensure_pool_ready a w opts Hpool), Hpool, Hup. reflexivity.
  - split; [reflexivity|]. split.
    + intros a w. unfold PgAdapter.transaction.
      destruct (PgAdapter.ensure_initialized a w) as [[ok a1] w1].
      now rewrite pg_run_nested.
    + split; [reflexivity|].
      intros a w key value e Hput. unfold KVAdapter.transaction.
      cbn [KVAdapter.run_handle]. unfold KVAdapter.set. rewrite Hput. reflexivity.
Qed.

Lemma nested_transaction_per_adapter_witness :
  (SQLAdapter.pool sql_sample <> None /\
   SQLAdapter.transaction
     (nested (CallQuery "DELETE FROM configs" [] (fun _ => Return JNull)))
     sql_sample (sample_world true true [(1%Z, sample_record)] empty)
   = (Throw nested_transaction_error, sql_sample,
      sample_world true true [(1%Z, sample_record)] empty)) /\
  (KVAdapter.offers KVAdapter.has_put (KVAdapter.kvNamespace kv_sample) = true /\
   let '(r, _, w') :=
     KVAdapter.transaction (CallSet "config" (JNum 1) (fun _ => Raise SyntaxError))
       kv_sample (sample_world true true [] empty) in
   r = Throw SyntaxError /\ kv_entries w' !! "config" = Some "1").
Proof.
  pose proof (nested_transaction_per_adapter
                (CallQuery "DELETE FROM configs" [] (fun _ => Return JNull)))
    as (_ & Hsql & _ & _ & _ & _).
  pose proof (nested_transaction_per_adapter (Return JNull)) as (_ & _ & _ & _ & _ & Hkv).
  split.
  - split; [discriminate|]. now apply (Hsql sql_sample _ _ eq_refl).
  - split; [reflexivity|].
    rewrite (Hkv kv_sample _ "config" (JNum 1) SyntaxError eq_refl).
    split; [reflexivity|]. vm_compute. reflexivity.
Defined.

End Contract.

(** * Session tokens of the Express server: generateDeviceFingerprint,
    generateToken, verifyToken *)
Module Auth.

Import Json Js.

(** What the handlers read of a request. *)
Record Request : Type := {
  headers : gmap string string;
  ip : option string;                (* req.ip *)
  remoteAddress : option string      (* req.connection.remoteAddress *)
}.

(** [req.headers[name] || 'unknown'] *)
Definition header_or_unknown (req : Request) (name : string) : string :=
  or_else (headers req !! name) "unknown".

(** [req.ip || req.connection.remoteAddress] *)
Definition client_ip (req : Request) : option string :=
  if truthy_opt (ip req) then ip req else remoteAddress req.

(** A member whose value may be undefined: JSON.stringify leaves it out. *)
Definition optional_member (name : string) (value : option string)
  : list (string * json) :=
  match value with
  | Some s => [(name, JStr s)]
  | None => []
  end.

(** The object [fingerprint] of generateDeviceFingerprint. *)
Definition fingerprint_object (req : Request) : json :=
  JObj ([("userAgent", JStr (header_or_unknown req "user-agent"));
         ("acceptLanguage", JStr (header_or_unknown req "accept-language"));
         ("acceptEncoding", JStr (header_or_unknown req "accept-encoding"))]
        ++ optional_member "ip" (client_ip req)
        ++ [("platform", JStr (header_or_unknown req "sec-ch-ua-platform"));
            ("mobile", JStr (header_or_unknown req "sec-ch-ua-mobile"));
            ("secFetch",
             JObj [("site", JStr (header_or_unknown req "sec-fetch-site"));
                   ("mode", JStr (header_or_unknown req "sec-fetch-mode"));
                   ("dest", JStr (header_or_unknown req "sec-fetch-dest"))])]).

(** [Buffer.from(s).toString('base64')] *)
Definition base64 (s : string) : string :=
  string_of_list_ascii (Base64.encode (list_ascii_of_string s)).

(** [generateDeviceFingerprint(req)] *)
Definition generateDeviceFingerprint (req : Request) : string :=
  base64 (JSON_stringify (fingerprint_object req)).

(** A token as [jwt.verify] sees it: text that is no token, or a payload
    with the signature that came with it. *)
Inductive Token : Type :=
| Malformed (text : string)
| Signed (payload : json) (signature : string).

Section Jwt.

(** The keyed hash of the signing algorithm, and the server secret
    ([process.env.LOGIN_JWT_SECRET_KEY || 'your_secret_key']). *)
Variable mac : string -> string -> string.
Variable JWT_SECRET : string.

Definition signature_of (payload : json) : string :=
  mac JWT_SECRET (JSON_stringify payload).

Definition day_in_seconds : Z := 86400.

(** [jwt.sign(payload, JWT_SECRET, { expiresIn: '24h' })] at the time
    [now_ms]: the library takes [payload.iat || Math.floor(Date.now() / 1000)]
    for the time of issue, writes it to [iat], and sets [exp] to it plus
    the time span in seconds. *)
Definition jwt_sign (now_ms : Z) (members : list (string * json)) : Token :=
  let timestamp :=
    match lookup_member "iat" members with
    | Some (JNum iat) => if (iat =? 0)%Z then (now_ms / 1000)%Z else iat
    | _ => (now_ms / 1000)%Z
    end in
  let payload :=
    JObj (set_member "iat" (JNum timestamp) members
          ++ [("exp", JNum (timestamp + day_in_seconds))]) in
  Signed payload (signature_of payload).

(** The signature of the token is the one the secret gives its payload. *)
Definition signature_verifies (payload : json) (signature : string) : bool :=
  String.eqb signature (signature_of payload).

(** The [exp] of the payload, when it has one, lies after the clock of
    the library, which counts seconds. *)
Definition unexpired (now_ms : Z) (payload : json) : bool :=
  match get_prop payload "exp" with
  | Ok (Some (JNum exp)) => (now_ms / 1000 <? exp)%Z
  | Ok (Some _) => false
  | Ok None => true
  | Throw _ => false
  end.

(** [jwt.verify(token, JWT_SECRET)] at the time [now_ms] of Date.now():
    the signature, then the [exp] claim, which are the checks a token of
    generateToken can fail. *)
Definition jwt_verify (now_ms : Z) (token : Token) : result json :=
  match token with
  | Malformed _ => Throw (Error "jwt malformed")
  | Signed payload signature =>
      if signature_verifies payload signature then
        if unexpired now_ms payload then Ok payload
        else Throw (Error "jwt expired")
      else Throw (Error "invalid signature")
  end.

(** [generateToken(isAdmin, req)] at the time [now_ms]. *)
Definition generateToken (now_ms : Z) (isAdmin : json) (req : Request) : Token :=
  jwt_sign now_ms
           ([("isAdmin", isAdmin);
             ("deviceFingerprint", JStr (generateDeviceFingerprint req));
             ("iat", JNum now_ms)]
            ++ optional_member "ip" (client_ip req)).

(** [verifyToken(token, req)]: the decoded payload, or null. *)
Definition verifyToken (now_ms : Z) (token : Token) (req : Request) : option json :=
  catch
    (bind (jwt_verify now_ms token) (fun decoded =>
     bind (get_prop decoded "deviceFingerprint") (fun embedded =>
       if strict_equal embedded (Some (JStr (generateDeviceFingerprint req)))
       then Ok (Some decoded)
       else Ok None)))
    (fun _ => None).

Lemma strict_equal_string (embedded : option json) (s : string) :
  strict_equal embedded (Some (JStr s)) = true <-> embedded = Some (JStr s).
Proof.
  destruct embedded as [[ | b | n | s' | items | members ]|]; cbn;
    try (split; [discriminate | congruence]).
  rewrite String.eqb_eq. split; congruence.
Qed.

Lemma verifyToken_accepts (now_ms : Z) (token : Token) (req : Request) (decoded : json) :
  verifyToken now_ms token req = Some decoded <->
  exists signature,
    token = Signed decoded signature /\
    signature_verifies decoded signature = true /\
    unexpired now_ms decoded = true /\
    get_prop decoded "deviceFingerprint" =
      Ok (Some (JStr (generateDeviceFingerprint req))).
Proof.
  unfold verifyToken, jwt_verify. split.
  - destruct token as [text|payload signature]; cbn [bind catch]; [discriminate|].
    destruct (signature_verifies payload signature) eqn:Hsig; cbn [bind catch];
      [|discriminate].
    destruct (unexpired now_ms payload) eqn:Hexp; cbn [bind catch]; [|discriminate].
    destruct (get_prop payload "deviceFingerprint") as [embedded|e] eqn:Hfp;
      cbn [bind catch]; [|discriminate].
    destruct (strict_equal embedded (Some (JStr (generateDeviceFingerprint req))))
      eqn:Heq; cbn [bind catch]; [|discriminate].
    intros [= <-]. exists signature. apply strict_equal_string in Heq. subst embedded.
    auto.
  - intros (signature & -> & Hsig & Hexp & Hfp). rewrite Hsig, Hexp. cbn [bind catch].
    rewrite Hfp. cbn [bind catch].
    now rewrite (proj2 (strict_equal_string _ _) eq_refl).
Qed.

(** The payload generateToken signs. *)
Definition token_payload (now_ms : Z) (isAdmin : json) (req : Request) : json :=
  JObj ([("isAdmin", isAdmin);
         ("deviceFingerprint", JStr (generateDeviceFingerprint req));
         ("iat", JNum now_ms)]
        ++ optional_member "ip" (client_ip req)
        ++ [("exp", JNum (now_ms + day_in_seconds))]).

Lemma generateToken_signed (now_ms : Z) (isAdmin : json) (req : Request) :
  generateToken now_ms isAdmin req =
  Signed (token_payload now_ms isAdmin req)
         (signature_of (token_payload now_ms isAdmin req)).
Proof.
  assert (Htime : (if (now_ms =? 0)%Z then (now_ms / 1000)%Z else now_ms) = now_ms).
  { destruct (Z.eqb_spec now_ms 0) as [->|]; reflexivity. }
  unfold generateToken, jwt_sign, token_payload, optional_member.
  destruct (client_ip req); cbn [app lookup_member String.eqb Ascii.eqb Bool.eqb];
    rewrite Htime; reflexivity.
Qed.

Lemma token_payload_claims (now_ms : Z) (isAdmin : json) (req : Request) :
  get_prop (token_payload now_ms isAdmin req) "deviceFingerprint" =
    Ok (Some (JStr (generateDeviceFingerprint req))) /\
  get_prop (token_payload now_ms isAdmin req) "exp" =
    Ok (Some (JNum (now_ms + day_in_seconds))).
Proof.
  unfold token_payload, optional_member. destruct (client_ip req); split; reflexivity.
Qed.

End Jwt.

Lemma base64_inj (s1 s2 : string) : base64 s1 = base64 s2 -> s1 = s2.
Proof.
  unfold base64. intros E.
  apply (f_equal list_ascii_of_string) in E.
  rewrite !list_ascii_of_string_of_list_ascii in E.
  apply Base64.encode_inj in E.
  apply (f_equal string_of_list_ascii) in E.
  now rewrite !string_of_list_ascii_of_string in E.
Qed.

(** Equal fingerprints come from equal user-agent fields. *)
Lemma fingerprint_fixes_user_agent (req1 req2 : Request) :
  generateDeviceFingerprint req1 = generateDeviceFingerprint req2 ->
  header_or_unknown req1 "user-agent" = header_or_unknown req2 "user-agent".
Proof.
  unfold generateDeviceFingerprint. intros E.
  apply base64_inj, JSON_stringify_inj in E.
  unfold fingerprint_object in E. now injection E.
Qed.

Definition sample_mac (key message : string) : string := key +:+ "." +:+ message.

Definition sample_secret : string := "your_secret_key".

Definition request_with (user_agent : option string) : Request :=
  {| headers :=
       match user_agent with
       | Some ua => <["user-agent" := ua]> (<["accept-language" := "en"]> empty)
       | None => <["accept-language" := "en"]> empty
       end;
     ip := Some "203.0.113.7";
     remoteAddress := None |}.

Definition accepted (answer : option json) : bool :=
  match answer with
  | Some _ => true
  | None => false
  end.

(** C7, as stated, fails: a request without a user-agent header and a
    request whose user-agent is the text "unknown" differ in that header
    and have the same fingerprint, so the token of the one is accepted
    from the other. *)
Lemma token_accepted_from_defaulted_user_agent :
  headers (request_with None) !! "user-agent" = None /\
  headers (request_with (Some "unknown")) !! "user-agent" = Some "unknown" /\
  accepted
    (verifyToken sample_mac sample_secret 1700000060000
       (generateToken sample_mac sample_secret 1700000000000 (JBool false)
          (request_with None))
       (request_with (Some "unknown"))) = true.
Proof. vm_compute. repeat split. Qed.

(** C7, amended. verifyToken returns the decoded payload of a token
    exactly when its signature verifies under the server secret, it is
    unexpired and the fingerprint in it equals the fingerprint of the
    presenting request, and null otherwise. A token issued for a request
    is accepted from the same request during the next 24 hours, and is
    rejected from a request whose user-agent, as the fingerprint takes it
    (the header, or "unknown" when the header is absent or empty),
    differs. *)
Theorem verifyToken_binds_the_fingerprint
  (mac : string -> string -> string) (secret : string) :
  (forall (now_ms : Z) (token : Token) (req : Request) (decoded : json),
     verifyToken mac secret now_ms token req = Some decoded <->
     exists signature,
       token = Signed decoded signature /\
       signature_verifies mac secret decoded signature = true /\
       unexpired now_ms decoded = true /\
       get_prop decoded "deviceFingerprint" =
         Ok (Some (JStr (generateDeviceFingerprint req)))) /\
  (forall (issued now_ms : Z) (isAdmin : json) (req : Request),
     (0 <= issued)%Z -> (now_ms < issued + 24 * 60 * 60 * 1000)%Z ->
     verifyToken mac secret now_ms (generateToken mac secret issued isAdmin req) req =
     Some (token_payload issued isAdmin req)) /\
  (forall (issued now_ms : Z) (isAdmin : json) (req1 req2 : Request),
     header_or_unknown req1 "user-agent" <> header_or_unknown req2 "user-agent" ->
     verifyToken mac secret now_ms (generateToken mac secret issued isAdmin req1) req2 =
     None).
Proof.
  split; [apply verifyToken_accepts|]. split.
  - intros issued now_ms isAdmin req Hissued Hnow.
    apply verifyToken_accepts. exists (signature_of mac secret (token_payload issued isAdmin req)).
    destruct (token_payload_claims issued isAdmin req) as [Hfp Hexp].
    repeat split.
    + apply generateToken_signed.
    + apply String.eqb_refl.
    + unfold unexpired. rewrite Hexp. apply Z.ltb_lt.
      apply Z.div_lt_upper_bound; unfold day_in_seconds; lia.
    + exact Hfp.
  - intros issued now_ms isAdmin req1 req2 Hua.
    destruct (verifyToken mac secret now_ms
                (generateToken mac secret issued isAdmin req1) req2) as [decoded|] eqn:E;
      [|reflexivity].
    apply verifyToken_accepts in E. destruct E as (signature & Htoken & _ & _ & Hfp).
    rewrite generateToken_signed in Htoken. injection Htoken as <- _.
    destruct (token_payload_claims issued isAdmin req1) as [Hfp1 _].
    assert (Hsame : generateDeviceFingerprint req1 = generateDeviceFingerprint req2)
      by congruence.
    now apply fingerprint_fixes_user_agent in Hsame.
Qed.

Lemma verifyToken_binds_the_fingerprint_witness :
  let issued := 1700000000000%Z in
  let now_ms := (issued + 23 * 60 * 60 * 1000)%Z in
  let chrome := request_with (Some "Mozilla/5.0 Chrome/120") in
  let firefox := request_with (Some "Mozilla/5.0 Firefox/121") in
  let token := generateToken sample_mac sample_secret issued (JBool false) chrome in
  ((0 <= issued)%Z /\ (now_ms < issued + 24 * 60 * 60 * 1000)%Z /\
   verifyToken sample_mac sample_secret now_ms token chrome =
     Some (token_payload issued (JBool false) chrome)) /\
  (header_or_unknown chrome "user-agent" = "Mozilla/5.0 Chrome/120" /\
   header_or_unknown firefox "user-agent" = "Mozilla/5.0 Firefox/121" /\
   verifyToken sample_mac sample_secret now_ms token firefox = None).
Proof.
  cbv zeta.
  pose proof (verifyToken_binds_the_fingerprint sample_mac sample_secret)
    as (_ & Hreplay & Hother).
  split.
  - split; [lia|]. split; [lia|]. apply Hreplay; lia.
  - split; [reflexivity|]. split; [reflexivity|]. apply Hother.
    vm_compute. discriminate.
Defined.

End Auth.

(** * parseDSN on the documented format *)
Module DsnLaws.

Import Json Js Dsn.

(** ** Strings and their characters *)

Lemma chars_append (a b : string) :
  list_ascii_of_string (a +:+ b) = list_ascii_of_string a ++ list_ascii_of_string b.
Proof.
  induction a as [|c a IH]; [reflexivity|].
  change (String c a +:+ b) with (String c (a +:+ b)).
  cbn [list_ascii_of_string app]. now f_equal.
Qed.

Lemma count_char_app (c : ascii) (s t : chars) :
  count_char c (s ++ t) = count_char c s + count_char c t.
Proof. induction s as [|x rest IH]; cbn; [reflexivity|]. rewrite IH. lia. Qed.

Lemma after_absent (c : ascii) (s : chars) : count_char c s = 0 -> after c s = None.
Proof.
  induction s as [|x rest IH]; cbn; [reflexivity|].
  destruct (Ascii.eqb x c); [discriminate|]. exact IH.
Qed.

Lemma after_first (c : ascii) (s t : chars) :
  count_char c s = 0 -> after c (s ++ c :: t) = Some t.
Proof.
  induction s as [|x rest IH]; cbn.
  - now rewrite Ascii.eqb_refl.
  - destruct (Ascii.eqb x c); [discriminate|]. exact IH.
Qed.

Lemma before_first (c : ascii) (s t : chars) :
  count_char c s = 0 -> before c (s ++ c :: t) = s.
Proof.
  induction s as [|x rest IH]; cbn.
  - now rewrite Ascii.eqb_refl.
  - destruct (Ascii.eqb x c); [discriminate|]. intros H. f_equal. now apply IH.
Qed.

(** ** parseInt on decimal numerals *)

Lemma digits_value_step (acc : option Z) (k : N) (c : ascii) (rest : chars) :
  hex_value c = Some k -> (k < 10)%N ->
  digits_value 10 acc (c :: rest) =
  digits_value 10 (Some (match acc with Some a => a | None => 0 end * 10 + Z.of_N k)%Z) rest.
Proof.
  intros Hc Hk. cbn [digits_value]. rewrite Hc.
  destruct (Z.ltb_spec (Z.of_N k) 10); [reflexivity | lia].
Qed.

Ltac digit_value :=
  match goal with
  | |- context [Z.of_N ?k] =>
      let v := eval vm_compute in (Z.of_N k) in change (Z.of_N k) with v
  end.

Lemma digits_value_positive (d : uint) (p : positive) :
  digits_value 10 (Some (Zpos p)) (uint_chars d) = Some (Zpos (Pos.of_uint_acc d p)).
Proof.
  revert p. induction d; intros p; cbn [uint_chars]; [reflexivity|..];
    (erewrite digits_value_step; [|reflexivity|reflexivity]);
    digit_value; cbn [Pos.of_uint_acc]; rewrite <- IHd; f_equal; f_equal; lia.
Qed.

Lemma digits_value_from_zero (d : uint) :
  digits_value 10 (Some 0%Z) (uint_chars d) = Some (Z.of_N (N.of_uint d)).
Proof.
  induction d; cbn [uint_chars]; [reflexivity|..];
    (erewrite digits_value_step; [|reflexivity|reflexivity]);
    digit_value; [exact IHd|..]; cbn [Z.mul Z.add]; exact (digits_value_positive d _).
Qed.

Lemma digits_value_uint (d : uint) :
  d <> Nil -> digits_value 10 None (uint_chars d) = Some (Z.of_N (N.of_uint d)).
Proof.
  intros Hd. destruct d; [contradiction|..]; cbn [uint_chars];
    (erewrite digits_value_step; [|reflexivity|reflexivity]);
    digit_value; [exact (digits_value_from_zero d)|..]; cbn [Z.mul Z.add];
    exact (digits_value_positive d _).
Qed.

Lemma parseInt_chars_uint (d : uint) :
  d <> Nil -> parseInt_chars (uint_chars d) = Some (Z.of_N (N.of_uint d)).
Proof.
  intros Hd. pose proof (digits_value_uint d Hd) as Hvalue.
  unfold parseInt_chars.
  destruct d as [|d'|d'|d'|d'|d'|d'|d'|d'|d'|d']; [contradiction|..];
    try (cbn [uint_chars] in *; cbn [trim_start]; cbv zeta;
         change (is_js_space _) with false; cbv iota; now rewrite Hvalue).
  cbn [uint_chars] in *. cbn [trim_start]. change (is_js_space "0") with false. cbv iota zeta.
  destruct d'; cbn [uint_chars] in *; now rewrite Hvalue.
Qed.

Lemma count_char_uint (c : ascii) (d : uint) :
  (N_of_ascii c < 48 \/ 57 < N_of_ascii c)%N -> count_char c (uint_chars d) = 0.
Proof.
  intros Hc. induction d; cbn [uint_chars count_char]; [reflexivity|..];
    match goal with
    | |- context [Ascii.eqb ?x c] =>
        destruct (Ascii.eqb_spec x c) as [<-|_]; [cbn in Hc; lia | exact IHd]
    end.
Qed.

(** ** The documented format *)

(** [s] holds none of the characters [separators]. *)
Definition free_of (separators : list ascii) (s : string) : bool :=
  forallb (fun c => Nat.eqb (count_in c s) 0) separators.

(** The decimal numeral of [n]. *)
Definition decimal (n : N) : string := text (uint_chars (N.to_uint n)).

(** [username:password@hostname:port/database] *)
Definition dsn_text (username secret hostname : string) (portnumber : N)
  (dbname : string) : string :=
  username +:+ ":" +:+ secret +:+ "@" +:+ hostname +:+ ":" +:+ decimal portnumber
    +:+ "/" +:+ dbname.

Lemma dsn_text_chars (username secret hostname : string) (portnumber : N)
  (dbname : string) :
  list_ascii_of_string (dsn_text username secret hostname portnumber dbname) =
  (list_ascii_of_string username ++ ":"%char :: list_ascii_of_string secret) ++
  "@"%char :: (list_ascii_of_string hostname ++
               ":"%char :: uint_chars (N.to_uint portnumber)) ++
              "/"%char :: list_ascii_of_string dbname.
Proof.
  unfold dsn_text, decimal, text.
  rewrite chars_append.
  change (list_ascii_of_string (":" +:+ ?x)) with (":"%char :: list_ascii_of_string x).
  rewrite chars_append.
  change (list_ascii_of_string ("@" +:+ ?x)) with ("@"%char :: list_ascii_of_string x).
  rewrite chars_append.
  change (list_ascii_of_string (":" +:+ ?x)) with (":"%char :: list_ascii_of_string x).
  rewrite chars_append.
  change (list_ascii_of_string ("/" +:+ ?x)) with ("/"%char :: list_ascii_of_string x).
  rewrite list_ascii_of_string_of_list_ascii.
  now rewrite <- !app_assoc, <- !app_comm_cons, <- ?app_assoc.
Qed.

Lemma to_uint_nonnil (n : N) : N.to_uint n <> Nil.
Proof.
  destruct n as [|p]; [discriminate|]. apply DecimalPos.Unsigned.to_uint_nonnil.
Qed.

Lemma remove_first_absent (pattern s : chars) (c : ascii) :
  In c pattern -> count_char c s = 0 -> remove_first pattern s = s.
Proof.
  intros Hin. induction s as [|x rest IH]; intros Hcount.
  - destruct pattern; [contradiction | reflexivity].
  - assert (Hnone : strip_prefix pattern (x :: rest) = None).
    { clear IH. revert Hcount. generalize (x :: rest). clear x rest.
      induction pattern as [|a p IHp]; [contradiction|]. intros s Hcount.
      destruct s as [|b s']; [reflexivity|]. cbn [strip_prefix].
      destruct (Ascii.eqb_spec a b) as [<-|Hab]; [|reflexivity].
      cbn [count_char] in Hcount. destruct Hin as [->|Hin].
      - rewrite Ascii.eqb_refl in Hcount. discriminate.
      - apply IHp; [exact Hin|]. destruct (Ascii.eqb a c); [discriminate | exact Hcount]. }
    cbn [remove_first]. rewrite Hnone. f_equal. apply IH.
    cbn [count_char] in Hcount. destruct (Ascii.eqb x c); [discriminate | exact Hcount].
Qed.

(** The whole numbers that a JavaScript number holds exactly, which are
    the ones [parseInt] returns as they are written: up to 2^53. *)
Definition exact_number (n : N) : bool := (n <=? 9007199254740992)%N.

(** X1. parseDSN reads back the documented format. For every user
    name and password without '@' and ':', every host name without '@',
    ':', '/', '(' and ')', every port number up to 2^53 (written in
    decimal digits) and every database name without '@' and '/', the DSN
    username:password@hostname:port/database parses to exactly these five
    parts, the port as a number, with the pool settings 10, 10 and 0. A
    DSN without '@' makes parseDSN throw a TypeError. *)
Theorem parseDSN_reads_back_the_documented_format
  (username secret hostname : string) (portnumber : N) (dbname : string) :
  (free_of ["@"; ":"]%char username = true ->
   free_of ["@"; ":"]%char secret = true ->
   free_of ["@"; ":"; "/"; "("; ")"]%char hostname = true ->
   exact_number portnumber = true ->
   free_of ["@"; "/"]%char dbname = true ->
   parseDSN (dsn_text username secret hostname portnumber dbname) =
   Ok {| host := hostname; port := Some (Z.of_N portnumber); user := username;
         password := Some secret; database := Some dbname;
         waitForConnections := true; connectionLimit := 10; maxIdle := 10;
         queueLimit := 0 |}) /\
  (forall dsn : string,
     count_in "@" dsn = 0 -> exists what : string, parseDSN dsn = Throw (TypeError what)).
Proof.
  split.
  - unfold free_of, count_in. cbn [forallb]. rewrite !andb_true_r, !andb_true_iff, !Nat.eqb_eq.
    intros [Hu1 Hu2] [Hp1 Hp2] (Hh1 & Hh2 & Hh3 & Hh4 & Hh5) _ [Hd1 Hd2].
    set (U := list_ascii_of_string username) in *.
    set (P := list_ascii_of_string secret) in *.
    set (H := list_ascii_of_string hostname) in *.
    set (B := list_ascii_of_string dbname) in *.
    set (D := uint_chars (N.to_uint portnumber)).
    assert (HD1 : count_char "@" D = 0) by (apply count_char_uint; cbn; lia).
    assert (HD2 : count_char ":" D = 0) by (apply count_char_uint; cbn; lia).
    assert (HD3 : count_char "/" D = 0) by (apply count_char_uint; cbn; lia).
    assert (Hauth : count_char "@" (U ++ ":"%char :: P) = 0).
    { rewrite count_char_app. cbn [count_char]. cbn. lia. }
    assert (Hrest : count_char "@" ((H ++ ":"%char :: D) ++ "/"%char :: B) = 0).
    { rewrite !count_char_app. cbn [count_char]. rewrite ?count_char_app.
      cbn [count_char]. cbn. lia. }
    assert (Hhostport : count_char "/" (H ++ ":"%char :: D) = 0).
    { rewrite count_char_app. cbn [count_char]. cbn. lia. }
    rewrite (parseDSN_with_at _ ((H ++ ":"%char :: D) ++ "/"%char :: B)).
    2:{ rewrite dsn_text_chars. fold U P H B D. now apply after_first. }
    rewrite dsn_text_chars. fold U P H B D.
    rewrite (before_first "@" _ _ Hauth), (before_no_occurrence "@" _ Hrest).
    unfold options_of, second_segment.
    rewrite (before_first "/" _ _ Hhostport), (after_first "/" _ _ Hhostport).
    rewrite (before_first ":" H D Hh2), (after_first ":" H D Hh2).
    rewrite (before_first ":" U P Hu2), (after_first ":" U P Hu2).
    cbn [option_map].
    rewrite (before_no_occurrence ":" D HD2), (before_no_occurrence ":" P Hp2),
      (before_no_occurrence "/" B Hd2).
    rewrite (remove_first_absent tcp_open H "(") by (cbn; auto).
    rewrite (remove_first_absent paren_close H ")") by (cbn; auto).
    unfold parseInt, text. rewrite list_ascii_of_string_of_list_ascii.
    unfold D. rewrite (parseInt_chars_uint _ (to_uint_nonnil portnumber)).
    rewrite DecimalN.Unsigned.of_to.
    unfold U, P, H, B. now rewrite !string_of_list_ascii_of_string.
  - intros dsn Hat. unfold parseDSN.
    rewrite first_of_split, second_of_split. unfold second_segment.
    rewrite (after_absent "@" _ Hat). cbn. eauto.
Qed.

Lemma parseDSN_reads_back_the_documented_format_witness :
  dsn_text "root" "s3cret/pw" "db.internal" 3306 "videos"
    = "root:s3cret/pw@db.internal:3306/videos" /\
  parseDSN "root:s3cret/pw@db.internal:3306/videos" =
    Ok {| host := "db.internal"; port := Some 3306%Z; user := "root";
          password := Some "s3cret/pw"; database := Some "videos";
          waitForConnections := true; connectionLimit := 10; maxIdle := 10;
          queueLimit := 0 |} /\
  count_in "@" "localhost:3306/videos" = 0 /\
  (exists what : string, parseDSN "localhost:3306/videos" = Throw (TypeError what)).
Proof.
  pose proof (parseDSN_reads_back_the_documented_format
                "root" "s3cret/pw" "db.internal" 3306 "videos") as [Hformat Hthrow].
  split; [reflexivity|]. split.
  - exact (Hformat eq_refl eq_refl eq_refl eq_refl eq_refl).
  - split; [reflexivity|]. exact (Hthrow "localhost:3306/videos" eq_refl).
Defined.

End DsnLaws.

(** * Laws of the adapters: keys, rows and failure *)
Module AdapterLaws.

Import Json Js Dsn Store Contract DsnLaws.

(** The answer of an operation, without the adapter and the world it leaves. *)
Definition answer {A B C : Type} (r : A * B * C) : A := fst (fst r).

Section Keys.
Context {K : Type} (same : K -> K -> bool).
Hypothesis same_eq : forall x y : K, same x y = true <-> x = y.

Lemma same_other (k k' : K) : k <> k' -> same k k' = false.
Proof.
  intros Hne. destruct (same k k') eqn:E; [|reflexivity].
  apply same_eq in E. contradiction.
Qed.

Lemma select_id_update_other (k k' : K) (doc : json) (rows : list (K * json)) :
  k' <> k -> select_id same k' (update_id same k doc rows) = select_id same k' rows.
Proof.
  intros Hne. unfold select_id, update_id.
  induction rows as [|[i d] rest IH]; [reflexivity|]. cbn.
  destruct (same i k) eqn:Ek; cbn; [|now rewrite IH].
  apply same_eq in Ek. subst i.
  rewrite (same_other k k') by congruence. exact IH.
Qed.

Lemma select_id_upsert_other (k k' : K) (doc : json) (rows : list (K * json)) :
  k' <> k -> select_id same k' (upsert_row same k doc rows) = select_id same k' rows.
Proof.
  intros Hne. unfold upsert_row. destruct (select_id same k rows).
  - rewrite select_id_app. cbn. rewrite (same_other k k') by congruence.
    apply app_nil_r.
  - now apply select_id_update_other.
Qed.

Lemma select_id_delete (k : K) (rows : list (K * json)) :
  select_id same k (delete_id same k rows) = [].
Proof.
  unfold select_id, delete_id.
  induction rows as [|[i d] rest IH]; [reflexivity|]. cbn.
  destruct (same i k) eqn:E; cbn; [exact IH|]. now rewrite E.
Qed.

Lemma select_id_delete_other (k k' : K) (rows : list (K * json)) :
  k' <> k -> select_id same k' (delete_id same k rows) = select_id same k' rows.
Proof.
  intros Hne. unfold select_id, delete_id.
  induction rows as [|[i d] rest IH]; [reflexivity|]. cbn.
  destruct (same i k) eqn:E; cbn.
  - apply same_eq in E. subst i. rewrite (same_other k k') by congruence. exact IH.
  - now rewrite IH.
Qed.

Lemma select_id_delete_length (k k' : K) (rows : list (K * json)) :
  List.length (select_id same k' (delete_id same k rows)) <=
  List.length (select_id same k' rows).
Proof.
  unfold select_id, delete_id.
  induction rows as [|[i d] rest IH]; [reflexivity|]. cbn.
  destruct (same i k); cbn; destruct (same i k'); cbn; lia.
Qed.

Lemma primary_key_delete (k : K) (rows : list (K * json)) :
  primary_key same rows -> primary_key same (delete_id same k rows).
Proof.
  intros Hpk k'. pose proof (select_id_delete_length k k' rows). specialize (Hpk k'). lia.
Qed.

Lemma select_id_member (k : K) (rows : list (K * json)) :
  In k (List.map fst rows) -> 1 <= List.length (select_id same k rows).
Proof.
  unfold select_id. induction rows as [|[i d] rest IH]; cbn; [tauto|].
  intros [->|Hin].
  - rewrite (proj2 (same_eq k k) eq_refl). cbn. lia.
  - specialize (IH Hin). destruct (same i k); cbn; lia.
Qed.

(** Under the primary key no id occurs twice. *)
Lemma primary_key_NoDup (rows : list (K * json)) :
  primary_key same rows -> List.NoDup (List.map fst rows).
Proof.
  induction rows as [|[i d] rest IH]; intros Hpk; cbn; constructor.
  - intros Hin. apply select_id_member in Hin.
    specialize (Hpk i). unfold select_id in Hpk, Hin. cbn in Hpk.
    rewrite (proj2 (same_eq i i) eq_refl) in Hpk. cbn in Hpk. lia.
  - apply IH. intros k. specialize (Hpk k). unfold select_id in *. cbn in Hpk.
    destruct (same i k); cbn in Hpk; lia.
Qed.

End Keys.

(** ** PgAdapter: one key at a time *)

Lemma pg_get_select (a : PgAdapter.t) (w : World) (rows : PgRows) (key : string) :
  pg_ready a w rows ->
  PgAdapter.get key a w =
  (match select_id String.eqb key rows with
   | row :: _ => Some (snd row)
   | [] => None
   end, a, w).
Proof.
  intros (Hinit & Hup & Hname & Htable).
  unfold PgAdapter.get, PgAdapter.ensure_initialized, PgAdapter.select_config.
  rewrite Hinit. cbv beta iota. rewrite Hup, Htable.
  destruct (select_id String.eqb key rows); reflexivity.
Qed.

Lemma pg_delete_ready (a : PgAdapter.t) (w : World) (rows : PgRows) (key : string) :
  pg_ready a w rows ->
  let rows' := delete_id String.eqb key rows in
  PgAdapter.delete key a w =
    (true, a, with_pg_tables (<[PgAdapter.tableName a := rows']> (pg_tables w)) w) /\
  pg_ready a (with_pg_tables (<[PgAdapter.tableName a := rows']> (pg_tables w)) w) rows'.
Proof.
  intros (Hinit & Hup & Hname & Htable). cbv zeta. split.
  - unfold PgAdapter.delete, PgAdapter.ensure_initialized, PgAdapter.delete_config.
    rewrite Hinit. cbv beta iota. rewrite Hup, Htable. reflexivity.
  - repeat split; try assumption. cbn. apply lookup_insert_eq.
Qed.

Lemma pg_list_ready (a : PgAdapter.t) (w : World) (rows : PgRows) :
  pg_ready a w rows -> PgAdapter.list_keys a w = (List.map fst rows, a, w).
Proof.
  intros (Hinit & Hup & Hname & Htable).
  unfold PgAdapter.list_keys, PgAdapter.ensure_initialized, PgAdapter.select_ids.
  rewrite Hinit. cbv beta iota. rewrite Hup, Htable. reflexivity.
Qed.

(** X2. On an initialized Postgres adapter whose server answers and whose
    table obeys its primary key, set(key, v) for ANY key and a value v that
    is not a string returns true when the column keeps v as the document
    [doc], and get(key) then returns [doc] (v itself on a column that keeps
    v as it is); it returns false when the column refuses v, and get(key)
    then returns what it returned before. For every v, a string among
    them, and whatever set returned, get of every other key returns what
    it returned before the call. *)
Theorem pg_set_then_get_and_other_keys
  (a : PgAdapter.t) (w : World) (rows : PgRows) (key : string) (v : json) :
  pg_ready a w rows -> primary_key String.eqb rows ->
  let '(ok, a1, w1) := PgAdapter.set key v a w in
  (forall doc : json,
     is_string v = false -> pg_encode w v = Ok doc ->
     ok = true /\ answer (PgAdapter.get key a1 w1) = Some doc) /\
  (forall e : js_error,
     is_string v = false -> pg_encode w v = Throw e ->
     ok = false /\
     answer (PgAdapter.get key a1 w1) = answer (PgAdapter.get key a w)) /\
  forall other : string, other <> key ->
    answer (PgAdapter.get other a1 w1) = answer (PgAdapter.get other a w).
Proof.
  intros Hready Hpk.
  destruct (pg_set_outcome a w rows key v Hready Hpk)
    as (ok & w1 & rows1 & -> & Hready1 & Hpk1 & _ & Hv).
  split; [|split].
  - intros doc Hnot Hdoc. rewrite (dataToStore_not_string v Hnot), Hdoc in Hv.
    destruct Hv as [-> ->]. split; [reflexivity|].
    rewrite (pg_get_select a _ _ key Hready1).
    destruct (upsert_row_spec String.eqb String.eqb_eq key doc rows Hpk) as [-> _].
    reflexivity.
  - intros e Hnot Hdoc. rewrite (dataToStore_not_string v Hnot), Hdoc in Hv.
    now destruct Hv as (-> & -> & _).
  - intros other Hne.
    rewrite (pg_get_select a _ _ other Hready1), (pg_get_select a w rows other Hready).
    unfold answer. cbn [fst].
    destruct (pg_encode w (PgAdapter.dataToStore v)) as [doc|e].
    + destruct Hv as [_ ->].
      now rewrite (select_id_upsert_other String.eqb String.eqb_eq key other).
    + now destruct Hv as (_ & _ & ->).
Qed.

Lemma pg_set_then_get_and_other_keys_witness :
  let w := sample_world false true []
             (configs_table [("config", JNum 1); ("theme", JStr "dark")]) in
  let '(ok, a1, w1) := PgAdapter.set "banner" sample_record pg_sample w in
  pg_encode w sample_record = Ok sample_document /\
  ok = true /\
  answer (PgAdapter.get "banner" a1 w1) = Some sample_document /\
  answer (PgAdapter.get "theme" a1 w1) = Some (JStr "dark").
Proof.
  cbv zeta.
  assert (Hready : pg_ready pg_sample
            (sample_world false true []
               (configs_table [("config", JNum 1); ("theme", JStr "dark")]))
            [("config", JNum 1); ("theme", JStr "dark")]).
  { repeat split. }
  assert (Hpk : primary_key String.eqb [("config", JNum 1); ("theme", JStr "dark")]).
  { intros k. unfold select_id. cbn [List.filter fst].
    destruct (String.eqb_spec "config" k); destruct (String.eqb_spec "theme" k);
      cbn [List.length]; try lia. congruence. }
  pose proof (pg_set_then_get_and_other_keys pg_sample _ _ "banner" sample_record
                Hready Hpk) as H.
  destruct (PgAdapter.set "banner" sample_record pg_sample _) as [[ok a1] w1].
  destruct H as (Hstored & _ & Hother).
  destruct (Hstored sample_document eq_refl eq_refl) as [H1 H2].
  split; [reflexivity|]. split; [exact H1|]. split; [exact H2|].
  rewrite (Hother "theme") by discriminate. reflexivity.
Defined.

(** X3. On a ready Postgres adapter delete(key) returns true whether or
    not the key was there; afterwards get(key) returns null and get of
    every other key returns what it returned before. *)
Theorem pg_delete_then_get_and_other_keys
  (a : PgAdapter.t) (w : World) (rows : PgRows) (key : string) :
  pg_ready a w rows ->
  let '(ok, a1, w1) := PgAdapter.delete key a w in
  ok = true /\
  answer (PgAdapter.get key a1 w1) = None /\
  forall other : string, other <> key ->
    answer (PgAdapter.get other a1 w1) = answer (PgAdapter.get other a w).
Proof.
  intros Hready.
  destruct (pg_delete_ready a w rows key Hready) as [-> Hready1].
  split; [reflexivity|]. split.
  - rewrite (pg_get_select a _ _ key Hready1).
    now rewrite (select_id_delete String.eqb).
  - intros other Hne.
    rewrite (pg_get_select a _ _ other Hready1), (pg_get_select a w rows other Hready).
    unfold answer. cbn [fst].
    now rewrite (select_id_delete_other String.eqb String.eqb_eq key other).
Qed.

Lemma pg_delete_then_get_and_other_keys_witness :
  let w := sample_world false true []
             (configs_table [("config", JNum 1); ("theme", JStr "dark")]) in
  let '(ok, a1, w1) := PgAdapter.delete "config" pg_sample w in
  ok = true /\
  answer (PgAdapter.get "config" a1 w1) = None /\
  answer (PgAdapter.get "theme" a1 w1) = Some (JStr "dark").
Proof.
  cbv zeta.
  assert (Hready : pg_ready pg_sample
            (sample_world false true []
               (configs_table [("config", JNum 1); ("theme", JStr "dark")]))
            [("config", JNum 1); ("theme", JStr "dark")]).
  { repeat split. }
  pose proof (pg_delete_then_get_and_other_keys pg_sample _ _ "config" Hready) as H.
  destruct (PgAdapter.delete "config" pg_sample _) as [[ok a1] w1].
  destruct H as (H1 & H2 & H3). split; [exact H1|]. split; [exact H2|].
  rewrite (H3 "theme") by discriminate. reflexivity.
Defined.


(** ** PgAdapter: list() against get() *)

Inductive Write : Type :=
| Put (key : string) (value : json)
| Remove (key : string).

Definition pg_write (op : Write) (a : PgAdapter.t) (w : World) : PgAdapter.t * World :=
  match op with
  | Put key value => let '(_, a', w') := PgAdapter.set key value a w in (a', w')
  | Remove key => let '(_, a', w') := PgAdapter.delete key a w in (a', w')
  end.

Fixpoint pg_writes (ops : list Write) (a : PgAdapter.t) (w : World) : PgAdapter.t * World :=
  match ops with
  | [] => (a, w)
  | op :: rest => let '(a', w') := pg_write op a w in pg_writes rest a' w'
  end.


Lemma select_id_listed (key : string) (rows : PgRows) :
  In key (List.map fst rows) <-> select_id String.eqb key rows <> [].
Proof.
  unfold select_id. induction rows as [|[i d] rest IH]; cbn; [tauto|].
  destruct (String.eqb_spec i key) as [->|Hne].
  - split; [discriminate | auto].
  - rewrite <- IH. split; [intros [H|H]; [contradiction | exact H] | auto].
Qed.

(** The table holds no JSON null, and the column keeps none: what is
    bound to a column [config JSONB NOT NULL] is stored as a document
    other than null or refused. *)
Definition holds_no_null (rows : PgRows) : Prop :=
  List.Forall (fun r => snd r <> JNull) rows.

Definition pg_keeps_no_null (a : PgAdapter.t) (w : World) : Prop :=
  (forall v doc : json, pg_encode w v = Ok doc -> doc <> JNull) /\
  exists rows : PgRows,
    pg_ready a w rows /\ primary_key String.eqb rows /\ holds_no_null rows.

(** The value of a set is not a string (a string goes through JSON.parse
    before it is stored). *)
Definition no_string_put (op : Write) : bool :=
  match op with
  | Put _ value => negb (is_string value)
  | Remove _ => true
  end.

(** [get] returned something other than null. *)
Definition has_value (r : option json) : bool :=
  match r with
  | Some JNull | None => false
  | Some _ => true
  end.

Lemma holds_no_null_upsert (key : string) (doc : json) (rows : PgRows) :
  doc <> JNull -> holds_no_null rows ->
  holds_no_null (upsert_row String.eqb key doc rows).
Proof.
  intros Hdoc Hrows. unfold upsert_row, holds_no_null in *.
  destruct (select_id String.eqb key rows).
  - apply List.Forall_app. split; [exact Hrows|]. now constructor.
  - unfold update_id. induction Hrows as [|r rest Hr _ IH]; cbn; constructor.
    + now destruct (String.eqb (fst r) key).
    + exact IH.
Qed.

Lemma holds_no_null_delete (key : string) (rows : PgRows) :
  holds_no_null rows -> holds_no_null (delete_id String.eqb key rows).
Proof.
  unfold holds_no_null, delete_id. intros Hrows.
  induction Hrows as [|r rest Hr _ IH]; cbn; [constructor|].
  destruct (negb (String.eqb (fst r) key)); [now constructor | exact IH].
Qed.

Lemma pg_write_keeps_no_null (op : Write) (a : PgAdapter.t) (w : World) :
  pg_keeps_no_null a w ->
  fst (pg_write op a w) = a /\ pg_keeps_no_null a (snd (pg_write op a w)).
Proof.
  intros (Hcolumn & rows & Hready & Hpk & Hrows).
  destruct op as [key value|key]; cbn [pg_write].
  - destruct (pg_set_outcome a w rows key value Hready Hpk)
      as (ok & w1 & rows1 & -> & Hready1 & Hpk1 & Hsame & Hv).
    cbn [fst snd]. split; [reflexivity|]. split.
    + intros v doc. rewrite Hsame. apply Hcolumn.
    + exists rows1. split; [exact Hready1|]. split; [exact Hpk1|].
      destruct (pg_encode w (PgAdapter.dataToStore value)) as [doc|e] eqn:Hdoc.
      * destruct Hv as [_ ->]. apply holds_no_null_upsert; [|exact Hrows].
        exact (Hcolumn _ _ Hdoc).
      * now destruct Hv as (_ & _ & ->).
  - destruct (pg_delete_ready a w rows key Hready) as [-> Hready1].
    cbn [fst snd]. split; [reflexivity|]. split; [exact Hcolumn|].
    eexists. split; [exact Hready1|]. split.
    + now apply primary_key_delete.
    + now apply holds_no_null_delete.
Qed.

Lemma pg_writes_keep_no_null (ops : list Write) (a : PgAdapter.t) (w : World) :
  pg_keeps_no_null a w ->
  fst (pg_writes ops a w) = a /\ pg_keeps_no_null a (snd (pg_writes ops a w)).
Proof.
  revert w. induction ops as [|op rest IH]; intros w Hs; [now split|].
  cbn [pg_writes]. destruct (pg_write_keeps_no_null op a w Hs) as [Ha Hs'].
  destruct (pg_write op a w) as [a' w']. cbn [fst snd] in *. subst a'.
  now apply IH.
Qed.

(** X4. On a Postgres adapter whose table is in place, obeys its primary
    key and holds no JSON null, with a column that keeps no null: after
    any sequence of delete calls and of set calls with values that are not
    strings (whether each one is stored or refused), list() names no key
    twice, and it names exactly the keys for which get() returns something
    other than null. *)
Theorem pg_list_names_the_keys_get_finds
  (ops : list Write) (a : PgAdapter.t) (w : World) :
  pg_keeps_no_null a w -> forallb no_string_put ops = true ->
  let '(a1, w1) := pg_writes ops a w in
  List.NoDup (answer (PgAdapter.list_keys a1 w1)) /\
  forall key : string,
    In key (answer (PgAdapter.list_keys a1 w1)) <->
    has_value (answer (PgAdapter.get key a1 w1)) = true.
Proof.
  intros Hs _.
  pose proof (pg_writes_keep_no_null ops a w Hs) as [Ha (_ & rows & Hready & Hpk & Hrows)].
  destruct (pg_writes ops a w) as [a1 w1]. cbn [fst snd] in *. subst a1.
  rewrite (pg_list_ready a w1 rows Hready). unfold answer at 1 2. cbn [fst].
  split; [now apply (primary_key_NoDup String.eqb String.eqb_eq)|].
  intros key. rewrite (pg_get_select a w1 rows key Hready). unfold answer. cbn [fst].
  rewrite select_id_listed.
  destruct (select_id String.eqb key rows) as [|row more] eqn:E.
  - split; [congruence | discriminate].
  - split; [|discriminate]. intros _.
    assert (Hin : In row rows).
    { unfold select_id in E.
      apply (proj1 (List.filter_In (fun r => String.eqb (fst r) key) row rows)).
      rewrite E. now left. }
    unfold holds_no_null in Hrows. rewrite List.Forall_forall in Hrows.
    specialize (Hrows row Hin). cbn [has_value]. now destruct (snd row).
Qed.

Lemma pg_list_names_the_keys_get_finds_witness :
  let w := sample_world false true [] (configs_table [("config", JNum 1)]) in
  let ops := [Put "theme" (JNum 1); Put "config" JNull; Remove "banner";
              Put "theme" sample_record; Put "volume" (JNum 7)] in
  let '(a1, w1) := pg_writes ops pg_sample w in
  pg_keeps_no_null pg_sample w /\ forallb no_string_put ops = true /\
  List.NoDup (answer (PgAdapter.list_keys a1 w1)) /\
  answer (PgAdapter.list_keys a1 w1) = ["config"; "theme"; "volume"] /\
  answer (PgAdapter.get "config" a1 w1) = Some (JNum 1) /\
  answer (PgAdapter.get "banner" a1 w1) = None.
Proof.
  cbv zeta.
  assert (Hs : pg_keeps_no_null pg_sample
                 (sample_world false true [] (configs_table [("config", JNum 1)]))).
  { split.
    - intros v doc. cbn [pg_encode sample_world]. destruct v; cbn; congruence.
    - exists [("config", JNum 1)]. split; [repeat split|]. split.
      + intros k. unfold select_id. cbn [List.filter fst].
        destruct (String.eqb "config" k); cbn [List.length]; lia.
      + repeat constructor. discriminate. }
  pose proof (pg_list_names_the_keys_get_finds
                [Put "theme" (JNum 1); Put "config" JNull; Remove "banner";
                 Put "theme" sample_record; Put "volume" (JNum 7)]
                pg_sample _ Hs eq_refl) as H.
  destruct (pg_writes _ pg_sample _) as [a1 w1] eqn:E.
  destruct H as [Hnodup _]. split; [exact Hs|]. split; [reflexivity|].
  split; [exact Hnodup|].
  vm_compute in E. injection E as <- <-. repeat split.
Defined.

(** ** SQLAdapter *)

(** The callback uses the methods of the handle other than query: every
    statement it runs is one the adapter wrote, none is SQL text of its
    own. *)
Inductive sends_no_sql : Script -> Prop :=
| no_sql_return (v : json) : sends_no_sql (Return v)
| no_sql_raise (e : js_error) : sends_no_sql (Raise e)
| no_sql_initialize (next : result bool -> Script) :
    (forall r, sends_no_sql (next r)) -> sends_no_sql (CallInitialize next)
| no_sql_get (key : string) (next : result (option json) -> Script) :
    (forall r, sends_no_sql (next r)) -> sends_no_sql (CallGet key next)
| no_sql_set (key : string) (value : json) (next : result bool -> Script) :
    (forall r, sends_no_sql (next r)) -> sends_no_sql (CallSet key value next)
| no_sql_delete (key : string) (next : result bool -> Script) :
    (forall r, sends_no_sql (next r)) -> sends_no_sql (CallDelete key next)
| no_sql_list (next : result (list string) -> Script) :
    (forall r, sends_no_sql (next r)) -> sends_no_sql (CallList next)
| no_sql_transaction (callback : Script) (next : result json -> Script) :
    sends_no_sql callback -> (forall r, sends_no_sql (next r)) ->
    sends_no_sql (CallTransaction callback next)
| no_sql_close (next : result unit -> Script) :
    (forall r, sends_no_sql (next r)) -> sends_no_sql (CallClose next).

(** X5. On an initialized Postgres adapter a transaction that ends in an
    exception commits nothing. For a callback that uses the methods of the
    handle other than query (initialize, get, set, delete, list,
    transaction, close): whatever it wrote before the exception, the
    adapter and everything stored are what they were before the call
    (sql.begin rolls the transaction back and rejects). *)
Theorem failed_transaction_commits_nothing (callback : Script) (e : js_error) :
  sends_no_sql callback ->
  forall (a a' : PgAdapter.t) (w w' : World),
    PgAdapter.initialized a = true ->
    PgAdapter.transaction callback a w = (Throw e, a', w') ->
    a' = a /\ w' = w.
Proof.
  intros _ a a' w w' Hinit. unfold PgAdapter.transaction, PgAdapter.ensure_initialized.
  rewrite Hinit. cbv beta iota.
  destruct (PgAdapter.reachable a w); [|now intros [= _ <- <-]].
  destruct (PgAdapter.run_handle w a callback _) as [[v|e'] tx].
  - destruct (PgAdapter.tx_failed tx); [now intros [= _ <- <-] | discriminate].
  - now intros [= _ <- <-].
Qed.

Definition wipe_then_throw : Script :=
  CallQuery "DELETE FROM configs" [] (fun _ => Raise (Error "changed my mind")).

(** A callback that overwrites one key, deletes another and then gives up. *)
Definition write_then_throw : Script :=
  CallSet "config" (JNum 0) (fun _ =>
    CallDelete "theme" (fun _ => Raise (Error "changed my mind"))).

Lemma failed_transaction_commits_nothing_witness :
  let w := sample_world false true []
             (configs_table [("config", sample_document); ("theme", JStr "dark")]) in
  sends_no_sql write_then_throw /\
  PgAdapter.initialized pg_sample = true /\
  (let '(r, _, w') := PgAdapter.transaction write_then_throw pg_sample w in
   r = Throw (Error "changed my mind") /\ w' = w) /\
  (* the same writes in a callback that returns are committed *)
  (let '(r, _, w') :=
     PgAdapter.transaction
       (CallSet "config" (JNum 0) (fun _ => CallDelete "theme" (fun _ => Return JNull)))
       pg_sample w in
   r = Ok JNull /\ pg_tables w' !! "configs" = Some [("config", JNum 0)]).
Proof.
  cbv zeta.
  assert (Hwrite : sends_no_sql write_then_throw).
  { constructor. intros r. constructor. intros r'. constructor. }
  split; [exact Hwrite|]. split; [reflexivity|]. split.
  - destruct (PgAdapter.transaction write_then_throw pg_sample _) as [[r a'] w'] eqn:E.
    assert (Hr : r = Throw (Error "changed my mind")).
    { vm_compute in E. now injection E as <- _ _. }
    subst r. split; [reflexivity|].
    now destruct (failed_transaction_commits_nothing write_then_throw _ Hwrite
                    pg_sample _ _ _ eq_refl E).
  - vm_compute. split; reflexivity.
Defined.


Lemma initialize_without_at (dsn : string) (w : World) :
  count_in "@" dsn = 0 ->
  let a := {| SQLAdapter.dsn := dsn; SQLAdapter.pool := None;
              SQLAdapter.initialized := false |} in
  SQLAdapter.initialize a w = (false, a, log (InitializeCalled SqlKind false) w).
Proof.
  intros Hat. cbv zeta. unfold SQLAdapter.initialize, SQLAdapter.initialize_body.
  cbn [SQLAdapter.initialized SQLAdapter.dsn].
  destruct (negb (truthy_string dsn)); [reflexivity|].
  destruct (parseDSN_without_at dsn (after_absent "@" _ Hat)) as [e ->].
  reflexivity.
Qed.

(** X6. An SQL adapter constructed with a DSN that holds no '@' (the
    empty DSN among them) never gets a pool: initialize() returns false,
    and get, set, delete, list and query return null, false, false, [] and
    [] without throwing, while transaction throws the "not initialized"
    error. None of them creates a pool or touches a store: each leaves the
    adapter as it was and adds one failed initialize to the record. *)
Theorem sql_adapter_without_at_sign_never_connects
  (dsn : string) (w : World) (key : string) (v : json) (q : string)
  (params : list json) (callback : Script) :
  count_in "@" dsn = 0 ->
  let a := {| SQLAdapter.dsn := dsn; SQLAdapter.pool := None;
              SQLAdapter.initialized := false |} in
  let w' := log (InitializeCalled SqlKind false) w in
  SQLAdapter.initialize a w = (false, a, w') /\
  SQLAdapter.get key a w = (None, a, w') /\
  SQLAdapter.set key v a w = (false, a, w') /\
  SQLAdapter.delete key a w = (false, a, w') /\
  SQLAdapter.list_keys a w = ([], a, w') /\
  SQLAdapter.query q params a w = ([], a, w') /\
  SQLAdapter.transaction callback a w = (Throw not_initialized_error, a, w').
Proof.
  intros Hat. pose proof (initialize_without_at dsn w Hat) as Hinit. cbv zeta in *.
  split; [exact Hinit|].
  unfold SQLAdapter.get, SQLAdapter.set, SQLAdapter.delete, SQLAdapter.list_keys,
    SQLAdapter.query, SQLAdapter.transaction, SQLAdapter.ensure_pool.
  cbn [SQLAdapter.pool]. rewrite Hinit. cbn [SQLAdapter.pool].
  repeat split; reflexivity.
Qed.

Lemma sql_adapter_without_at_sign_never_connects_witness :
  count_in "@" "mysql://root:secret/db.local:3306/videos" = 0 /\
  (let w := sample_world true true [(1%Z, sample_record)] empty in
   let '(a, w0) := SQLAdapter.new "mysql://root:secret/db.local:3306/videos" w in
   let '(r, _, w1) := SQLAdapter.get "config" a w0 in
   r = None /\
   trace w1 = [Constructed SqlKind; InitializeCalled SqlKind false]).
Proof.
  split; [reflexivity|]. cbv zeta. cbn [SQLAdapter.new].
  destruct (sql_adapter_without_at_sign_never_connects
              "mysql://root:secret/db.local:3306/videos"
              (log (Constructed SqlKind) (sample_world true true [(1%Z, sample_record)] empty))
              "config" JNull "" [] (Return JNull) eq_refl) as (_ & -> & _).
  split; reflexivity.
Defined.

Lemma uint_chars_first (d : uint) (c : ascii) (rest : chars) :
  uint_chars d = c :: rest -> (48 <= N_of_ascii c <= 57)%N.
Proof. destruct d; cbn; intros [= <- _]; cbn; lia. Qed.

Lemma id_text_not_config (id : Z) : SQLAdapter.id_text id <> "config".
Proof.
  unfold SQLAdapter.id_text. intros H.
  apply (f_equal list_ascii_of_string) in H.
  rewrite list_ascii_of_string_of_list_ascii in H. cbn in H.
  unfold Z_chars in H. destruct id as [|p|p].
  - apply uint_chars_first in H. cbn in H. lia.
  - apply uint_chars_first in H. cbn in H. lia.
  - discriminate H.
Qed.

Section Upsert.
Context {K : Type} (same : K -> K -> bool).
Hypothesis same_eq : forall x y : K, same x y = true <-> x = y.

Lemma select_id_found (k : K) (rows : list (K * json)) :
  select_id same k rows <> [] -> In k (List.map fst rows).
Proof.
  unfold select_id. induction rows as [|[i d] rest IH]; cbn; [congruence|].
  destruct (same i k) eqn:E; [left; now apply same_eq | auto].
Qed.

Lemma update_id_ids (k : K) (doc : json) (rows : list (K * json)) :
  List.map fst (update_id same k doc rows) = List.map fst rows.
Proof.
  unfold update_id. induction rows as [|[i d] rest IH]; [reflexivity|]. cbn.
  rewrite IH. now destruct (same i k).
Qed.

Lemma upsert_row_listed (k : K) (doc : json) (rows : list (K * json)) :
  In k (List.map fst (upsert_row same k doc rows)).
Proof.
  unfold upsert_row. destruct (select_id same k rows) eqn:E.
  - rewrite List.map_app, List.in_app_iff. right. now left.
  - rewrite update_id_ids. apply select_id_found. congruence.
Qed.

End Upsert.

(** X7. list() does not speak the language of get and set on the SQL
    adapter: after set("config", v) has succeeded, list() holds "1", the
    id of the row, and never the key "config"; on the Postgres adapter
    list() after a set("config", v) that succeeded holds "config" (and the
    call succeeds for every v that is not a string and that the column
    takes). *)
Theorem list_after_set_config (v : json) :
  (forall (a : SQLAdapter.t) (w : World) (opts : PoolOptions),
     SQLAdapter.pool a = Some opts -> mysql_accepts w opts = true ->
     let '(ok, a1, w1) := SQLAdapter.set "config" v a w in
     ok = true /\
     In "1" (answer (SQLAdapter.list_keys a1 w1)) /\
     ~ In "config" (answer (SQLAdapter.list_keys a1 w1))) /\
  (forall (a : PgAdapter.t) (w : World) (rows : PgRows),
     pg_ready a w rows ->
     let '(ok, a1, w1) := PgAdapter.set "config" v a w in
     (ok = true -> In "config" (answer (PgAdapter.list_keys a1 w1))) /\
     (forall doc : json, is_string v = false -> pg_encode w v = Ok doc -> ok = true)).
Proof.
  split.
  - intros a w opts Hpool Hup. rewrite (sql_set_config a w opts v Hpool Hup).
    split; [reflexivity|].
    unfold SQLAdapter.list_keys. rewrite (ensure_pool_ready a _ opts Hpool), Hpool.
    cbn [mysql_accepts with_mysql_rows]. rewrite Hup. unfold answer. cbn [fst mysql_rows].
    split.
    + change "1" with (SQLAdapter.id_text 1).
      rewrite <- (List.map_map fst SQLAdapter.id_text). apply List.in_map.
      apply (upsert_row_listed Z.eqb Z.eqb_eq).
    + rewrite List.in_map_iff. intros (r & Hr & _). now apply id_text_not_config in Hr.
  - intros a w rows Hready.
    destruct (pg_encode w (PgAdapter.dataToStore v)) as [doc|e] eqn:Hdoc.
    + destruct (pg_set_ready a w rows "config" v doc Hready Hdoc) as [-> Hready1].
      split; [|reflexivity]. intros _.
      rewrite (pg_list_ready a _ _ Hready1). unfold answer. cbn [fst].
      apply (upsert_row_listed String.eqb String.eqb_eq).
    + rewrite (pg_set_refused a w rows "config" v e Hready Hdoc).
      split; [discriminate|]. intros doc Hnot Hv.
      rewrite (dataToStore_not_string v Hnot) in Hdoc. congruence.
Qed.

Lemma list_after_set_config_witness :
  (SQLAdapter.pool sql_sample <> None /\
   let w := sample_world true true [(7%Z, JNull)] empty in
   let '(ok, a1, w1) := SQLAdapter.set "config" sample_record sql_sample w in
   ok = true /\ answer (SQLAdapter.list_keys a1 w1) = ["7"; "1"]) /\
  (let w := sample_world false true [] (configs_table [("theme", JStr "dark")]) in
   let '(ok, a1, w1) := PgAdapter.set "config" sample_record pg_sample w in
   ok = true /\ In "config" (answer (PgAdapter.list_keys a1 w1)) /\
   answer (PgAdapter.list_keys a1 w1) = ["theme"; "config"]).
Proof.
  pose proof (list_after_set_config sample_record) as [Hsql Hpg].
  split.
  - split; [discriminate|]. cbv zeta.
    specialize (Hsql sql_sample (sample_world true true [(7%Z, JNull)] empty) _
                  eq_refl eq_refl).
    destruct (SQLAdapter.set "config" sample_record sql_sample _) as [[ok a1] w1] eqn:E.
    destruct Hsql as [Hok _]. split; [exact Hok|].
    vm_compute in E. injection E as _ <- <-. reflexivity.
  - cbv zeta.
    assert (Hready : pg_ready pg_sample
              (sample_world false true [] (configs_table [("theme", JStr "dark")]))
              [("theme", JStr "dark")]) by repeat split.
    specialize (Hpg pg_sample _ _ Hready).
    destruct (PgAdapter.set "config" sample_record pg_sample _) as [[ok a1] w1] eqn:E.
    destruct Hpg as [Hlisted Hok].
    assert (Htrue : ok = true) by exact (Hok sample_document eq_refl eq_refl).
    split; [exact Htrue|]. split; [exact (Hlisted Htrue)|].
    vm_compute in E. injection E as _ <- <-. reflexivity.
Defined.

(** X8. On an SQL adapter with its pool, the server answering,
    delete("config") returns true whether or not the row is there;
    afterwards get("config") returns null, and the rows of every other id
    are what they were. *)
Theorem sql_delete_config_then_get
  (a : SQLAdapter.t) (w : World) (opts : PoolOptions) :
  SQLAdapter.pool a = Some opts -> mysql_accepts w opts = true ->
  let '(ok, a1, w1) := SQLAdapter.delete "config" a w in
  ok = true /\
  answer (SQLAdapter.get "config" a1 w1) = None /\
  forall id : Z, id <> 1%Z ->
    select_id Z.eqb id (mysql_rows w1) = select_id Z.eqb id (mysql_rows w).
Proof.
  intros Hpool Hup. unfold SQLAdapter.delete.
  rewrite (ensure_pool_ready a w opts Hpool), Hpool, Hup.
  change (SQLAdapter.key_id w "config") with (Some 1%Z). cbv iota.
  split; [reflexivity|]. split.
  - unfold SQLAdapter.get. rewrite (ensure_pool_ready a _ opts Hpool), Hpool.
    cbn [mysql_accepts with_mysql_rows]. rewrite Hup.
    change (SQLAdapter.key_id _ "config") with (Some 1%Z). cbv iota.
    cbn [mysql_rows with_mysql_rows]. now rewrite (select_id_delete Z.eqb).
  - intros id Hne. cbn [mysql_rows with_mysql_rows].
    now apply (select_id_delete_other Z.eqb Z.eqb_eq).
Qed.

Lemma sql_delete_config_then_get_witness :
  let w := sample_world true true [(1%Z, sample_record); (2%Z, JNum 5)] empty in
  let '(ok, a1, w1) := SQLAdapter.delete "config" sql_sample w in
  SQLAdapter.pool sql_sample <> None /\
  ok = true /\ answer (SQLAdapter.get "config" a1 w1) = None /\
  mysql_rows w1 = [(2%Z, JNum 5)].
Proof.
  cbv zeta.
  pose proof (sql_delete_config_then_get sql_sample
                (sample_world true true [(1%Z, sample_record); (2%Z, JNum 5)] empty)
                _ eq_refl eq_refl) as H.
  destruct (SQLAdapter.delete "config" sql_sample _) as [[ok a1] w1] eqn:E.
  destruct H as (H1 & H2 & _). split; [discriminate|]. split; [exact H1|].
  split; [exact H2|]. vm_compute in E. injection E as _ _ <-. reflexivity.
Defined.

(** ** KVAdapter *)

Definition can_get (a : KVAdapter.t) : bool :=
  KVAdapter.offers KVAdapter.has_get (KVAdapter.kvNamespace a)
  || KVAdapter.offers KVAdapter.has_read (KVAdapter.kvNamespace a).

Definition can_put (a : KVAdapter.t) : bool :=
  KVAdapter.offers KVAdapter.has_put (KVAdapter.kvNamespace a)
  || KVAdapter.offers KVAdapter.has_write (KVAdapter.kvNamespace a)
  || KVAdapter.offers KVAdapter.has_set (KVAdapter.kvNamespace a).

Definition can_delete (a : KVAdapter.t) : bool :=
  KVAdapter.offers KVAdapter.has_delete (KVAdapter.kvNamespace a)
  || KVAdapter.offers KVAdapter.has_remove (KVAdapter.kvNamespace a).

Lemma parse_or_keep_stringValue (v : json) :
  is_string v = false -> KVAdapter.parse_or_keep (KVAdapter.stringValue v) = v.
Proof.
  intros Hv. unfold KVAdapter.parse_or_keep.
  destruct v; try discriminate Hv; cbn [KVAdapter.stringValue];
    now rewrite JSON_parse_stringify.
Qed.

(** X9. On a key-value adapter whose namespace has a method to write and
    one to read, set(key, v) returns true; get(key) then returns v for
    every v that is not a string; a string is written to the namespace as
    it is, and get hands what it reads to JSON.parse; get of any other key
    returns what it returned before. *)
Theorem kv_set_then_get_and_other_keys
  (a : KVAdapter.t) (w : World) (key : string) (v : json) :
  can_put a = true -> can_get a = true ->
  let '(ok, w1) := KVAdapter.set key v a w in
  ok = true /\
  (is_string v = false -> KVAdapter.get key a w1 = Some v) /\
  (forall text : string, v = JStr text -> kv_entries w1 !! key = Some text) /\
  forall other : string, other <> key ->
    KVAdapter.get other a w1 = KVAdapter.get other a w.
Proof.
  unfold can_put, can_get. intros Hput Hget. unfold KVAdapter.set. rewrite Hput.
  split; [reflexivity|]. unfold KVAdapter.get. rewrite Hget.
  cbn [kv_entries with_kv_entries]. split; [|split].
  - intros Hv. rewrite lookup_insert_eq. cbn [option_map].
    now rewrite parse_or_keep_stringValue.
  - intros text ->. now rewrite lookup_insert_eq.
  - intros other Hne. rewrite lookup_insert_ne by congruence. reflexivity.
Qed.

Lemma kv_set_then_get_and_other_keys_witness :
  can_put kv_sample = true /\ can_get kv_sample = true /\
  (let w := sample_world false false [] empty in
   let '(ok, w1) := KVAdapter.set "config" sample_record kv_sample w in
   ok = true /\ KVAdapter.get "config" kv_sample w1 = Some sample_record) /\
  (let w := sample_world false false [] empty in
   let '(ok, w1) := KVAdapter.set "motd" (JStr "[1,2]") kv_sample w in
   ok = true /\ kv_entries w1 !! "motd" = Some "[1,2]" /\
   KVAdapter.get "motd" kv_sample w1 = Some (JArr [JNum 1; JNum 2])).
Proof.
  split; [reflexivity|]. split; [reflexivity|]. split.
  - cbv zeta.
    pose proof (kv_set_then_get_and_other_keys kv_sample
                  (sample_world false false [] empty) "config" sample_record
                  eq_refl eq_refl) as H.
    destruct (KVAdapter.set "config" sample_record kv_sample _) as [ok w1].
    destruct H as (H1 & H2 & _). split; [exact H1|]. now apply H2.
  - cbv zeta.
    pose proof (kv_set_then_get_and_other_keys kv_sample
                  (sample_world false false [] empty) "motd" (JStr "[1,2]")
                  eq_refl eq_refl) as H.
    destruct (KVAdapter.set "motd" (JStr "[1,2]") kv_sample _) as [ok w1].
    destruct H as (H1 & _ & H3 & _). split; [exact H1|].
    pose proof (H3 "[1,2]" eq_refl) as Htext. split; [exact Htext|].
    unfold KVAdapter.get. rewrite Htext. reflexivity.
Defined.

(** X10. On a key-value adapter whose namespace has a method to delete
    and one to read, delete(key) returns true, get(key) then returns null,
    and get of any other key returns what it returned before. *)
Theorem kv_delete_then_get_and_other_keys
  (a : KVAdapter.t) (w : World) (key : string) :
  can_delete a = true -> can_get a = true ->
  let '(ok, w1) := KVAdapter.delete key a w in
  ok = true /\
  KVAdapter.get key a w1 = None /\
  forall other : string, other <> key ->
    KVAdapter.get other a w1 = KVAdapter.get other a w.
Proof.
  unfold can_delete, can_get. intros Hdel Hget. unfold KVAdapter.delete. rewrite Hdel.
  split; [reflexivity|]. unfold KVAdapter.get. rewrite Hget.
  cbn [kv_entries with_kv_entries]. split.
  - now rewrite lookup_delete_eq.
  - intros other Hne. rewrite lookup_delete_ne by congruence. reflexivity.
Qed.

Lemma kv_delete_then_get_and_other_keys_witness :
  can_delete kv_sample = true /\ can_get kv_sample = true /\
  (let w := with_kv_entries (<["config" := "7"]> (<["theme" := "dark"]> empty))
              (sample_world false false [] empty) in
   let '(ok, w1) := KVAdapter.delete "config" kv_sample w in
   ok = true /\ KVAdapter.get "config" kv_sample w1 = None /\
   KVAdapter.get "theme" kv_sample w1 = Some (JStr "dark")).
Proof.
  split; [reflexivity|]. split; [reflexivity|]. cbv zeta.
  pose proof (kv_delete_then_get_and_other_keys kv_sample
                (with_kv_entries (<["config" := "7"]> (<["theme" := "dark"]> empty))
                   (sample_world false false [] empty)) "config" eq_refl eq_refl) as H.
  destruct (KVAdapter.delete "config" kv_sample _) as [ok w1].
  destruct H as (H1 & H2 & H3). split; [exact H1|]. split; [exact H2|].
  rewrite (H3 "theme") by discriminate. vm_compute. reflexivity.
Defined.

(** ** A server that does not answer *)

(** X11. The operations swallow a connection failure. On an SQL adapter
    that holds a pool whose server refuses connections, and on an
    initialized Postgres adapter whose server cannot be reached, get, set,
    delete, list and query return null, false, false, [] and [] without
    throwing, and transaction throws; none of them changes the adapter or
    anything outside it. *)
Theorem operations_swallow_a_dead_server
  (key : string) (v : json) (q : string) (params : list json) (callback : Script) :
  (forall (a : SQLAdapter.t) (w : World) (opts : PoolOptions),
     SQLAdapter.pool a = Some opts -> mysql_accepts w opts = false ->
     SQLAdapter.get key a w = (None, a, w) /\
     SQLAdapter.set key v a w = (false, a, w) /\
     SQLAdapter.delete key a w = (false, a, w) /\
     SQLAdapter.list_keys a w = ([], a, w) /\
     SQLAdapter.query q params a w = ([], a, w) /\
     exists e : js_error, SQLAdapter.transaction callback a w = (Throw e, a, w)) /\
  (forall (a : PgAdapter.t) (w : World),
     PgAdapter.initialized a = true -> PgAdapter.reachable a w = false ->
     PgAdapter.get key a w = (None, a, w) /\
     PgAdapter.set key v a w = (false, a, w) /\
     PgAdapter.delete key a w = (false, a, w) /\
     PgAdapter.list_keys a w = ([], a, w) /\
     PgAdapter.query q params a w = ([], a, w) /\
     exists e : js_error, PgAdapter.transaction callback a w = (Throw e, a, w)).
Proof.
  split.
  - intros a w opts Hpool Hdown.
    unfold SQLAdapter.get, SQLAdapter.set, SQLAdapter.delete, SQLAdapter.list_keys,
      SQLAdapter.query, SQLAdapter.transaction.
    rewrite (ensure_pool_ready a w opts Hpool), Hpool, Hdown.
    repeat split. eexists. reflexivity.
  - intros a w Hinit Hdown.
    unfold PgAdapter.get, PgAdapter.set, PgAdapter.delete, PgAdapter.list_keys,
      PgAdapter.query, PgAdapter.transaction, PgAdapter.ensure_initialized.
    rewrite Hinit. cbv beta iota. rewrite Hdown.
    repeat split. eexists. reflexivity.
Qed.

Lemma operations_swallow_a_dead_server_witness :
  (SQLAdapter.pool sql_sample <> None /\
   let w := sample_world false false [(1%Z, sample_record)] empty in
   SQLAdapter.get "config" sql_sample w = (None, sql_sample, w) /\
   SQLAdapter.set "config" JNull sql_sample w = (false, sql_sample, w)) /\
  (PgAdapter.initialized pg_sample = true /\
   let w := sample_world false false [] (configs_table [("config", sample_record)]) in
   PgAdapter.get "config" pg_sample w = (None, pg_sample, w) /\
   PgAdapter.delete "config" pg_sample w = (false, pg_sample, w)).
Proof.
  pose proof (operations_swallow_a_dead_server "config" JNull "" [] (Return JNull))
    as [Hsql Hpg].
  split.
  - split; [discriminate|]. cbv zeta.
    destruct (Hsql sql_sample (sample_world false false [(1%Z, sample_record)] empty) _
                eq_refl eq_refl) as (H1 & H2 & _).
    split; [exact H1 | exact H2].
  - split; [reflexivity|]. cbv zeta.
    destruct (Hpg pg_sample
                (sample_world false false [] (configs_table [("config", sample_record)]))
                eq_refl eq_refl) as (H1 & _ & H3 & _).
    split; [exact H1 | exact H3].
Defined.

(** ** close() is not final *)

Lemma create_table_present (name : string) (rows : PgRows) (tables : gmap string PgRows) :
  tables !! name = Some rows -> PgAdapter.create_table name tables = tables.
Proof. unfold PgAdapter.create_table. now intros ->. Qed.

(** X27. close() is not final. After close() the next operation of the
    adapter connects again and finds what was stored. On an SQL adapter
    whose pool was made from its DSN, the server answering: get(key) after
    close() returns what it returned before, and the adapter holds a pool
    for the same options again. On a Postgres adapter with its table in
    place, the server answering: get(key) after close() returns what it
    returned before, the adapter is initialized again, and the rows of the
    table are untouched. *)
Theorem get_after_close_reconnects (key : string) :
  (forall (a : SQLAdapter.t) (w : World) (opts : PoolOptions),
     SQLAdapter.pool a = Some opts ->
     truthy_string (SQLAdapter.dsn a) = true -> parseDSN (SQLAdapter.dsn a) = Ok opts ->
     mysql_accepts w opts = true -> mysql_creates_table w = true ->
     let '(a1, w1) := SQLAdapter.close a w in
     SQLAdapter.pool a1 = None /\
     let '(r, a2, w2) := SQLAdapter.get key a1 w1 in
     r = answer (SQLAdapter.get key a w) /\
     SQLAdapter.pool a2 = Some opts /\ mysql_rows w2 = mysql_rows w) /\
  (forall (a : PgAdapter.t) (w : World) (rows : PgRows),
     pg_ready a w rows -> pg_creates_table w = true ->
     let '(a1, w1) := PgAdapter.close a w in
     PgAdapter.initialized a1 = false /\
     let '(r, a2, w2) := PgAdapter.get key a1 w1 in
     r = answer (PgAdapter.get key a w) /\
     PgAdapter.initialized a2 = true /\ pg_tables w2 = pg_tables w).
Proof.
  split.
  - intros a w opts Hpool Hdsn Hparse Hup Hcreate.
    unfold SQLAdapter.close. rewrite Hpool. split; [reflexivity|].
    unfold SQLAdapter.get at 1, SQLAdapter.ensure_pool, SQLAdapter.initialize,
      SQLAdapter.initialize_body.
    cbn [SQLAdapter.pool SQLAdapter.initialized SQLAdapter.dsn].
    rewrite Hdsn. cbn [negb]. rewrite Hparse.
    cbn [mysql_accepts mysql_creates_table log]. rewrite Hup, Hcreate.
    cbn [andb SQLAdapter.pool mysql_accepts log]. rewrite Hup.
    unfold SQLAdapter.get. rewrite (ensure_pool_ready a w opts Hpool), Hpool, Hup.
    change (SQLAdapter.key_id (log _ (log _ (log _ w))) key) with (SQLAdapter.key_id w key).
    destruct (SQLAdapter.key_id w key) as [id|]; [|repeat split].
    cbn [mysql_rows log].
    destruct (select_id Z.eqb id (mysql_rows w)) as [|row more]; repeat split.
  - intros a w rows Hready Hcreate.
    pose proof Hready as (Hinit & Hup & Hname & Htable).
    unfold PgAdapter.close. split; [reflexivity|].
    unfold PgAdapter.get at 1, PgAdapter.ensure_initialized, PgAdapter.initialize,
      PgAdapter.initialize_body.
    cbn [PgAdapter.initialized PgAdapter.options PgAdapter.tableName].
    unfold PgAdapter.reachable in *. cbn [PgAdapter.options].
    rewrite Hup, Hcreate. cbn [andb].
    cbn [pg_accepts log with_pg_tables PgAdapter.options PgAdapter.tableName pg_tables].
    rewrite Hup, (create_table_present _ rows _ Htable).
    rewrite (pg_get_select a w rows key Hready). unfold answer. cbn [fst].
    unfold PgAdapter.select_config. rewrite Htable.
    destruct (select_id String.eqb key rows); repeat split.
Qed.

Lemma get_after_close_reconnects_witness :
  (let w := sample_world true true [(1%Z, sample_record)] empty in
   let '(a1, w1) := SQLAdapter.close sql_sample w in
   let '(r, a2, w2) := SQLAdapter.get "config" a1 w1 in
   SQLAdapter.pool sql_sample <> None /\ r = Some sample_record /\
   trace w2 = [PoolEnded; PoolCreated; InitializeCalled SqlKind true]) /\
  (let w := sample_world false true [] (configs_table [("config", sample_record)]) in
   let '(a1, w1) := PgAdapter.close pg_sample w in
   let '(r, a2, w2) := PgAdapter.get "config" a1 w1 in
   PgAdapter.initialized a1 = false /\ r = Some sample_record).
Proof.
  pose proof (get_after_close_reconnects "config") as [Hsql Hpg].
  split.
  - cbv zeta.
    specialize (Hsql sql_sample (sample_world true true [(1%Z, sample_record)] empty) _
                  eq_refl eq_refl eq_refl eq_refl eq_refl).
    destruct (SQLAdapter.close sql_sample _) as [a1 w1] eqn:Eclose.
    destruct Hsql as [_ Hsql].
    destruct (SQLAdapter.get "config" a1 w1) as [[r a2] w2] eqn:Eget.
    destruct Hsql as (Hr & _ & _). split; [discriminate|]. split.
    + rewrite Hr. reflexivity.
    + vm_compute in Eclose. injection Eclose as <- <-.
      vm_compute in Eget. injection Eget as _ _ <-. reflexivity.
  - cbv zeta.
    assert (Hready : pg_ready pg_sample
              (sample_world false true [] (configs_table [("config", sample_record)]))
              [("config", sample_record)]) by repeat split.
    specialize (Hpg pg_sample _ _ Hready eq_refl).
    destruct (PgAdapter.close pg_sample _) as [a1 w1].
    destruct Hpg as [Hclosed Hpg].
    destruct (PgAdapter.get "config" a1 w1) as [[r a2] w2].
    destruct Hpg as (Hr & _ & _). split; [exact Hclosed|]. rewrite Hr. reflexivity.
Defined.

(** ** Write, then read the same key *)



End AdapterLaws.

(** * Laws of the facade *)
Module FacadeLaws.

Import Json Js Dsn Store Contract AdapterLaws.

Lemma initialize_false_unbinds (config : Database.DatabaseConfig) (db db' : Database.t)
  (w w' : World) :
  Database.initialize config db w = (false, db', w') -> Database.adapter db' = None.
Proof.
  unfold Database.initialize. destruct (Database.bound db); [discriminate|].
  destruct (Database.release db w) as [db1 w1]. rewrite Database.try_sql_first_success.
  destruct (Database.first_success (Database.candidates config) w1) as [[a|] w2];
    cbn [Database.selected]; [discriminate|]. now intros [= <- _].
Qed.

(** X12. When initialize(config) returns false the facade holds no
    adapter, and every forwarder (get, set, delete, list, query,
    transaction) then throws the "not initialized" error, running nothing
    of its callback and changing neither the facade nor anything outside
    it. *)
Theorem failed_initialize_leaves_every_forwarder_throwing
  (config : Database.DatabaseConfig) (db db' : Database.t) (w w' : World) :
  Database.initialize config db w = (false, db', w') ->
  Database.adapter db' = None /\
  forall (world : World) (key : string) (v : json) (q : string) (params : list json)
         (callback : Script),
    Database.get key db' world = (Throw not_initialized_error, db', world) /\
    Database.set key v db' world = (Throw not_initialized_error, db', world) /\
    Database.delete key db' world = (Throw not_initialized_error, db', world) /\
    Database.list_keys db' world = (Throw not_initialized_error, db', world) /\
    Database.query q params db' world = (Throw not_initialized_error, db', world) /\
    Database.transaction callback db' world = (Throw not_initialized_error, db', world).
Proof.
  intros Hinit. apply initialize_false_unbinds in Hinit. split; [exact Hinit|].
  intros world key v q params callback.
  unfold Database.get, Database.set, Database.delete, Database.list_keys,
    Database.query, Database.transaction.
  rewrite Hinit. repeat split; reflexivity.
Qed.

Lemma failed_initialize_leaves_every_forwarder_throwing_witness :
  let first := Database.initialize Database.sql_and_pg Database.fresh
                 (sample_world false false [] empty) in
  let db' := snd (fst first) in
  let w' := snd first in
  first = (false, db', w') /\
  Database.set "config" sample_record db' w' = (Throw not_initialized_error, db', w') /\
  Database.transaction wipe_then_throw db' w' = (Throw not_initialized_error, db', w').
Proof.
  intros first db' w'.
  assert (Hfirst : first = (false, db', w')) by reflexivity.
  split; [exact Hfirst|].
  destruct (failed_initialize_leaves_every_forwarder_throwing Database.sql_and_pg
              Database.fresh db' (sample_world false false [] empty) w' Hfirst)
    as [_ H].
  destruct (H w' "config" sample_record "" [] wipe_then_throw) as (_ & H2 & _ & _ & _ & H6).
  split; [exact H2 | exact H6].
Defined.

(** X13. close() undoes the binding: after it the facade is not bound,
    whatever it held before, and the next initialize(config) walks the
    candidates of its configuration again, in priority order, from the
    world close() left (the pool of a bound SQL adapter ended). *)
Theorem close_then_initialize_selects_again
  (config : Database.DatabaseConfig) (db : Database.t) (w : World) :
  let '(db1, w1) := Database.close db w in
  Database.bound db1 = false /\
  Database.adapter db1 = None /\
  Database.initialize config db1 w1 =
    (let '(found, w2) := Database.first_success (Database.candidates config) w1 in
     let '(ok, db2) := Database.selected db1 found in
     (ok, db2, w2)).
Proof.
  unfold Database.close. destruct (Database.adapter db) as [a|] eqn:Ha.
  - destruct (Database.adapter_close a w) as [a' w1].
    split; [reflexivity|]. split; [reflexivity|].
    unfold Database.initialize. cbn [Database.bound Database.initialized andb].
    unfold Database.release. cbn [Database.adapter].
    apply Database.try_sql_first_success.
  - assert (Hb : Database.bound db = false).
    { unfold Database.bound. rewrite Ha. apply andb_false_r. }
    split; [exact Hb|]. split; [exact Ha|].
    unfold Database.initialize. rewrite Hb. unfold Database.release. rewrite Ha.
    apply Database.try_sql_first_success.
Qed.

(** ** One contract through the facade *)




(** ** initDatabaseFromEnv *)

(** The variables and bindings initDatabaseFromEnv reads. *)
Record Variables : Type := {
  SQL_DSN : option string;
  PG_CONNECTION_STRING : option string;
  PG_TABLE_NAME : option string;
  VIDEO_CONFIG : KVAdapter.KvNamespace
}.

(** [config.sqlDsn] and [config.pgConfig], read the same way in both branches. *)
Definition sql_of (vars : Variables) : option string :=
  if truthy_opt (SQL_DSN vars) then SQL_DSN vars else None.

Definition pg_of (vars : Variables) : option Database.PgConfig :=
  match PG_CONNECTION_STRING vars with
  | Some connection =>
      if truthy_string connection
      then Some {| Database.connection := ConnString connection;
                   Database.tableName := Some (or_else (PG_TABLE_NAME vars) "configs") |}
      else None
  | None => None
  end.

(** The configuration built from the [env] argument. *)
Definition config_of_argument (vars : Variables) : Database.DatabaseConfig :=
  {| Database.sqlDsn := sql_of vars;
     Database.pgConfig := pg_of vars;
     Database.kvNamespace := VIDEO_CONFIG vars |}.

(** The configuration built from [process.env], which names no namespace. *)
Definition config_of_process (vars : Variables) : Database.DatabaseConfig :=
  {| Database.sqlDsn := sql_of vars;
     Database.pgConfig := pg_of vars;
     Database.kvNamespace := KVAdapter.KvAbsent |}.

(** [initDatabaseFromEnv(env)] on the exported instance [db]; [process]
    is [None] where the runtime has no such global. *)
Definition initDatabaseFromEnv (process env : option Variables) (db : Database.t)
  (w : World) : result bool * Database.t * World :=
  match env with
  | Some vars =>
      let '(ok, db', w') := Database.initialize (config_of_argument vars) db w in
      (Ok ok, db', w')
  | None =>
      match process with
      | Some vars =>
          let '(ok, db', w') := Database.initialize (config_of_process vars) db w in
          (Ok ok, db', w')
      | None => (Throw (Error "process is not defined"), db, w)
      end
  end.

Lemma attempt_kind (c : Database.Candidate) (w : World) :
  Database.kind_of (snd (fst (Database.attempt c w))) = Database.candidate_kind c.
Proof.
  destruct c as [dsn|pg|ns]; cbn [Database.attempt].
  - destruct (SQLAdapter.new dsn w) as [a w1].
    now destruct (SQLAdapter.initialize a w1) as [[ok a'] w2].
  - destruct (PgAdapter.new _ w) as [a w1].
    now destruct (PgAdapter.initialize a w1) as [[ok a'] w2].
  - destruct (KVAdapter.new ns w) as [a w1].
    now destruct (KVAdapter.initialize a w1) as [[ok a'] w2].
Qed.

Lemma first_success_kind (cs : list Database.Candidate) (w w' : World)
  (a : Database.Adapter) :
  Database.first_success cs w = (Some a, w') ->
  In (Database.kind_of a) (List.map Database.candidate_kind cs).
Proof.
  revert w. induction cs as [|c rest IH]; intros w; cbn [Database.first_success];
    [discriminate|].
  pose proof (attempt_kind c w) as Hkind.
  destruct (Database.attempt c w) as [[ok found] w1]. cbn [fst snd] in Hkind.
  destruct ok.
  - intros [= <- _]. left. now symmetry.
  - intros H. right. now apply (IH w1).
Qed.

Lemma first_success_pg (cs : list Database.Candidate) (w w' : World) (p : PgAdapter.t) :
  Database.first_success cs w = (Some (Database.Pg p), w') ->
  exists (pg : Database.PgConfig) (w0 : World),
    In (Database.PgCandidate pg) cs /\
    snd (fst (Database.attempt (Database.PgCandidate pg) w0)) = Database.Pg p.
Proof.
  revert w. induction cs as [|c rest IH]; intros w; cbn [Database.first_success];
    [discriminate|].
  pose proof (attempt_kind c w) as Hkind.
  destruct (Database.attempt c w) as [[ok found] w1] eqn:Hattempt. cbn [fst snd] in Hkind.
  destruct ok.
  - intros [= -> _]. destruct c as [dsn|pg|ns]; try discriminate Hkind.
    exists pg, w. split; [now left|]. now rewrite Hattempt.
  - intros H. destruct (IH w1 H) as (pg & w0 & Hin & Hp).
    exists pg, w0. split; [now right | exact Hp].
Qed.

Lemma pg_attempt_table (pg : Database.PgConfig) (w : World) (a : PgAdapter.t) :
  snd (fst (Database.attempt (Database.PgCandidate pg) w)) = Database.Pg a ->
  PgAdapter.tableName a = or_else (Database.tableName pg) "configs".
Proof.
  cbn [Database.attempt PgAdapter.new].
  unfold PgAdapter.initialize, PgAdapter.initialize_body.
  cbn [PgAdapter.initialized PgAdapter.tableName PgAdapter.options
         PgAdapter.tableName_option].
  match goal with
  | |- context [if ?test then _ else _] => destruct test
  end; cbn [fst snd]; now intros [= <-].
Qed.

Lemma or_else_twice (o : option string) (d : string) :
  truthy_string d = true -> or_else (Some (or_else o d)) d = or_else o d.
Proof.
  intros Hd. unfold or_else at 1.
  destruct (truthy_string (or_else o d)) eqn:E; [reflexivity|].
  unfold or_else in E |- *. destruct o as [s|]; [|congruence].
  destruct (truthy_string s) eqn:Hs; congruence.
Qed.

(** X15. initDatabaseFromEnv without an argument reads process.env and
    never names a key-value namespace: on a facade that is not bound, the
    call binds an SQL adapter, a Postgres adapter or nothing, never a
    key-value adapter, and its answer is true exactly when an adapter is
    bound; a Postgres adapter it binds uses the table PG_TABLE_NAME, or
    "configs" when that variable is missing or empty. Where the runtime
    has no [process] and no argument is given, the call throws and leaves
    the facade as it was. *)
Theorem initDatabaseFromEnv_without_argument
  (vars : Variables) (db : Database.t) (w : World) :
  Database.bound db = false ->
  (let '(r, db', w') := initDatabaseFromEnv (Some vars) None db w in
   r = Ok (Database.bound db') /\
   Database.bound_kind db' <> Some KvKind /\
   forall a : PgAdapter.t,
     Database.adapter db' = Some (Database.Pg a) ->
     PgAdapter.tableName a = or_else (PG_TABLE_NAME vars) "configs") /\
  initDatabaseFromEnv None None db w = (Throw (Error "process is not defined"), db, w).
Proof.
  intros Hunbound. split; [|reflexivity].
  unfold initDatabaseFromEnv, Database.initialize. rewrite Hunbound.
  pose proof (Database.release_unbinds db w) as [_ Hinit].
  destruct (Database.release db w) as [db1 w1]. cbn [fst] in Hinit.
  rewrite Database.try_sql_first_success.
  destruct (Database.first_success (Database.candidates (config_of_process vars)) w1)
    as [[a|] w2] eqn:Hfound; cbn [Database.selected].
  - split; [reflexivity|].
    pose proof (first_success_kind _ _ _ _ Hfound) as Hin.
    unfold Database.candidates, config_of_process in Hin, Hfound.
    cbn [Database.sqlDsn Database.kvNamespace KVAdapter.present] in Hin, Hfound.
    rewrite app_nil_r in Hin, Hfound.
    split.
    + unfold Database.bound_kind. cbn [Database.adapter option_map]. intros [= Hkv].
      rewrite Hkv in Hin. rewrite List.map_app, List.in_app_iff in Hin.
      destruct Hin as [Hin|Hin].
      * destruct (sql_of vars) as [dsn|]; [|contradiction].
        destruct (truthy_string dsn); cbn in Hin; [|contradiction].
        destruct Hin as [Hin|[]]. discriminate Hin.
      * destruct (Database.pg_candidate _); cbn in Hin; [|contradiction].
        destruct Hin as [Hin|[]]. discriminate Hin.
    + intros p [= ->].
      destruct (first_success_pg _ _ _ _ Hfound) as (pg & w0 & Hpg & Hattempt).
      rewrite (pg_attempt_table pg w0 p Hattempt).
      assert (Htable : Database.tableName pg = Some (or_else (PG_TABLE_NAME vars) "configs")).
      { rewrite List.in_app_iff in Hpg. destruct Hpg as [Hpg|Hpg].
        - destruct (sql_of vars) as [dsn|]; [|contradiction].
          destruct (truthy_string dsn); cbn in Hpg; [|contradiction].
          destruct Hpg as [Hpg|[]]. discriminate Hpg.
        - unfold Database.pg_candidate, pg_of in Hpg. cbn [Database.pgConfig] in Hpg.
          destruct (PG_CONNECTION_STRING vars) as [conn|]; [|contradiction].
          destruct (truthy_string conn) eqn:Hconn; [|contradiction].
          cbn [Database.connection Database.connection_given] in Hpg.
          rewrite Hconn in Hpg. destruct Hpg as [[= <-]|[]]. reflexivity. }
      rewrite Htable. now apply or_else_twice.
  - split; [|split].
    + unfold Database.bound. cbn [Database.adapter]. now rewrite andb_false_r.
    + discriminate.
    + discriminate.
Qed.

Definition node_variables : Variables :=
  {| SQL_DSN := None;
     PG_CONNECTION_STRING := Some "postgres://app@pg.local/videos";
     PG_TABLE_NAME := Some "";
     VIDEO_CONFIG := KVAdapter.kvNamespace kv_sample |}.

Lemma initDatabaseFromEnv_without_argument_witness :
  Database.bound Database.fresh = false /\
  let '(r, db', w') :=
    initDatabaseFromEnv (Some node_variables) None Database.fresh
      (sample_world false true [] empty) in
  r = Ok true /\ Database.bound_kind db' = Some PgKind /\
  pg_tables w' !! "configs" = Some [].
Proof.
  split; [reflexivity|].
  pose proof (proj1 (initDatabaseFromEnv_without_argument node_variables Database.fresh
                       (sample_world false true [] empty) eq_refl)) as H.
  destruct (initDatabaseFromEnv (Some node_variables) None Database.fresh _)
    as [[r db'] w'] eqn:E.
  destruct H as (Hr & _ & _). vm_compute in E. injection E as <- <- <-.
  repeat split.
Defined.

End FacadeLaws.

(** * The password check of the worker: verifyPassword of src/api/server.ts,
    which reads the configuration through getConfig of
    src/api/config-handler.ts and the facade *)
Module ApiServer.

Import Json Js Dsn Store Contract AdapterLaws FacadeLaws.

Definition defaultConfig : json :=
  JObj [("resourceSites", JArr []);
        ("parseApi", JStr "");
        ("backgroundImage", JStr "");
        ("enableLogin", JBool false);
        ("loginPassword", JStr "");
        ("announcement", JStr "");
        ("customTitle", JStr "")].

(** [getConfig(cloudflareEnv)]: the configuration, and the facade and the
    world the call leaves. *)
Definition getConfig (process env : option Variables) (db : Database.t) (w : World)
  : json * Database.t * World :=
  match initDatabaseFromEnv process env db w with
  | (Ok _, db1, w1) =>
      match Database.get "config" db1 w1 with
      | (Ok (Some config), db2, w2) =>
          ((if truthy config then config else defaultConfig), db2, w2)
      | (Ok None, db2, w2) => (defaultConfig, db2, w2)
      | (Throw _, db2, w2) => (defaultConfig, db2, w2)
      end
  | (Throw _, db1, w1) => (defaultConfig, db1, w1)
  end.

(** ToBoolean of a value that may be undefined. *)
Definition to_boolean (v : option json) : bool :=
  match v with
  | Some x => truthy x
  | None => false
  end.

(** [verifyPassword(password, env)]; the candidate may be undefined. *)
Definition verifyPassword (password : option json) (process env : option Variables)
  (db : Database.t) (w : World) : bool * Database.t * World :=
  let '(config, db1, w1) := getConfig process env db w in
  (catch
     (bind (get_prop config "enableLogin") (fun enableLogin =>
        if negb (to_boolean enableLogin) then Ok false
        else
          bind (get_prop config "loginPassword") (fun loginPassword =>
            if strict_equal loginPassword password then Ok true else Ok false)))
     (fun _ => false),
   db1, w1).

(** [config.enableLogin] is truthy. *)
Definition login_enabled (config : json) : bool :=
  match get_prop config "enableLogin" with
  | Ok enableLogin => to_boolean enableLogin
  | Throw _ => false
  end.

Lemma verifyPassword_of_config (password : option json) (process env : option Variables)
  (db db1 : Database.t) (w w1 : World) (config : json) :
  getConfig process env db w = (config, db1, w1) ->
  login_enabled config = false ->
  verifyPassword password process env db w = (false, db1, w1).
Proof.
  intros Hconfig. unfold verifyPassword, login_enabled. rewrite Hconfig.
  destruct (get_prop config "enableLogin") as [enableLogin|e]; [|reflexivity].
  cbn [bind]. now intros ->.
Qed.

(** A worker bound to a key-value namespace that holds the record of the
    example: login disabled, a password set. *)
Definition worker_variables : Variables :=
  {| SQL_DSN := None;
     PG_CONNECTION_STRING := None;
     PG_TABLE_NAME := None;
     VIDEO_CONFIG := KVAdapter.kvNamespace kv_sample |}.

Definition worker_world : World :=
  with_kv_entries
    (<["config" := JSON_stringify ConfigHandler.disabled_login_record]> empty)
    (sample_world false false [] empty).

(** C1. The password check the specification describes, verifyPassword of
    src/api/server.ts, returns false for every candidate whenever the
    configuration it reads has a falsy enableLogin: so it does for a
    stored record with login disabled that the facade returns, whether or
    not the candidate equals the stored loginPassword. The copy of
    verifyPassword in the configuration handler of the Express server
    does not do that: it never reads enableLogin, and for the stored
    record { enableLogin: false, loginPassword: "hunter2" } and the
    candidate "hunter2" it returns true, where verifyPassword of
    src/api/server.ts returns false for the same record and candidate. *)
Theorem verifyPassword_fails_when_login_is_disabled :
  (forall (password : option json) (process env : option Variables)
          (db : Database.t) (w : World),
     let '(config, db1, w1) := getConfig process env db w in
     login_enabled config = false ->
     verifyPassword password process env db w = (false, db1, w1)) /\
  (forall (password : option json) (process env : option Variables)
          (db db1 db2 : Database.t) (w w1 w2 : World) (ok : bool) (record : json),
     initDatabaseFromEnv process env db w = (Ok ok, db1, w1) ->
     Database.get "config" db1 w1 = (Ok (Some record), db2, w2) ->
     login_enabled record = false ->
     verifyPassword password process env db w = (false, db2, w2)) /\
  (login_enabled ConfigHandler.disabled_login_record = false /\
   get_prop ConfigHandler.disabled_login_record "loginPassword" = Ok (Some (JStr "hunter2")) /\
   fst (ConfigHandler.verifyPassword
          (ConfigHandler.serving ConfigHandler.disabled_login_record)
          (JStr "hunter2") ConfigHandler.sample_dsn None) = true /\
   answer (verifyPassword (Some (JStr "hunter2")) None (Some worker_variables)
             Database.fresh worker_world) = false).
Proof.
  split; [|split].
  - intros password process env db w.
    destruct (getConfig process env db w) as [[config db1] w1] eqn:Hconfig.
    now apply verifyPassword_of_config.
  - intros password process env db db1 db2 w w1 w2 ok record Hinit Hget Hrecord.
    destruct (truthy record) eqn:Htruthy.
    + apply (verifyPassword_of_config _ _ _ _ _ _ _ record); [|exact Hrecord].
      unfold getConfig. now rewrite Hinit, Hget, Htruthy.
    + apply (verifyPassword_of_config _ _ _ _ _ _ _ defaultConfig); [|reflexivity].
      unfold getConfig. now rewrite Hinit, Hget, Htruthy.
  - vm_compute. repeat split.
Qed.

Lemma verifyPassword_fails_when_login_is_disabled_witness :
  let '(r, db1, w1) :=
    initDatabaseFromEnv None (Some worker_variables) Database.fresh worker_world in
  r = Ok true /\
  answer (Database.get "config" db1 w1) = Ok (Some ConfigHandler.disabled_login_record) /\
  login_enabled ConfigHandler.disabled_login_record = false /\
  answer (verifyPassword (Some (JStr "hunter2")) None (Some worker_variables)
            Database.fresh worker_world) = false /\
  answer (verifyPassword (Some (JStr "anything else")) None (Some worker_variables)
            Database.fresh worker_world) = false.
Proof.
  destruct (initDatabaseFromEnv None (Some worker_variables) Database.fresh worker_world)
    as [[r db1] w1] eqn:Hinit.
  destruct (Database.get "config" db1 w1) as [[found db2] w2] eqn:Hget.
  assert (Hr : r = Ok true) by (vm_compute in Hinit; now injection Hinit as <- _ _).
  assert (Hfound : found = Ok (Some ConfigHandler.disabled_login_record)).
  { vm_compute in Hinit. injection Hinit as _ <- <-.
    vm_compute in Hget. now injection Hget as <- _ _. }
  subst r found.
  destruct verifyPassword_fails_when_login_is_disabled as (_ & Hstored & _).
  split; [reflexivity|]. split; [reflexivity|]. split; [reflexivity|].
  split.
  - now rewrite (Hstored (Some (JStr "hunter2")) _ _ _ _ _ _ _ _ _ _ Hinit Hget eq_refl).
  - now rewrite (Hstored (Some (JStr "anything else")) _ _ _ _ _ _ _ _ _ _ Hinit Hget eq_refl).
Defined.

End ApiServer.

(** * updateConfig of the Express server, over the rows of the table configs *)
Module ConfigTable.

Import Json Js Dsn Store ConfigHandler.

(** The rows (id, config) of the table, in the order of its primary key. *)
Definition Table : Type := list (Z * json).

(** [ORDER BY id DESC LIMIT 1]: the row with the greatest id. *)
Fixpoint newest (rows : Table) : option (Z * json) :=
  match rows with
  | [] => None
  | r :: rest =>
      match newest rest with
      | Some r' => if (fst r <? fst r')%Z then Some r' else Some r
      | None => Some r
      end
  end.

(** The config column of a row as the driver hands it over: the text of
    the document, or the document parsed. *)
Definition deliver (as_text : bool) (doc : json) : json :=
  if as_text then JStr (JSON_stringify doc) else doc.

(** The server of [env], holding [rows]. *)
Definition holding (env : Environment) (as_text : bool) (rows : Table) : Environment :=
  {| accepts := accepts env;
     creates_table := creates_table env;
     latest_config :=
       Ok (match newest rows with
           | Some r => [deliver as_text (snd r)]
           | None => []
           end);
     buffer_from_value := buffer_from_value env |}.

(** [{ ...config }]: the own enumerable properties; nothing for null. *)
Definition spread (config : json) : list (string * json) :=
  match config with
  | JNull => []
  | other => catch (own_properties other) (fun _ => [])
  end.

(** What a JSON column keeps of the text bound to it. *)
Definition column_of_text (text : string) : result json :=
  match JSON_parse text with
  | Some doc => Ok doc
  | None => Throw (Error "Invalid JSON text")
  end.

(** The callback of updateConfig: the first row of the table is updated;
    an empty table gets a row under the id the server assigns. *)
Definition write_config (config : json) (assigned : Z) (rows : Table) : result Table :=
  let configToUpdate := JObj (spread config) in
  match rows with
  | first :: _ =>
      bind (column_of_text (JSON_stringify configToUpdate)) (fun doc =>
        Ok (update_id Z.eqb (fst first) doc rows))
  | [] =>
      bind (column_of_text (JSON_stringify configToUpdate)) (fun doc =>
        Ok [(assigned, doc)])
  end.

Record UpdateResult : Type := {
  success : bool;
  message : string
}.

Definition error_message (e : js_error) : string :=
  match e with
  | TypeError what => what
  | SyntaxError => "Unexpected token"
  | Error text => text
  end.

(** [updateConfig(config, dsn)]: its answer, the module variable [pool]
    and the table afterwards. *)
Definition updateConfig (env : Environment) (assigned : Z) (config : json)
  (dsn : option string) (pool : Pool) (rows : Table) : UpdateResult * Pool * Table :=
  if truthy_opt dsn then
    let '(r, pool') := withConnection env dsn pool
                         (fun _ => write_config config assigned rows) in
    match r with
    | Ok rows' => ({| success := true; message := "配置更新成功" |}, pool', rows')
    | Throw e => ({| success := false; message := error_message e |}, pool', rows)
    end
  else ({| success := false; message := "未提供数据库连接信息" |}, pool, rows).

(** ** What is read after a write *)

Lemma column_of_stringify (v : json) : column_of_text (JSON_stringify v) = Ok v.
Proof. unfold column_of_text. now rewrite JSON_parse_stringify. Qed.

Lemma write_config_short (config : json) (assigned : Z) (rows : Table) :
  List.length rows <= 1 ->
  exists id : Z, write_config config assigned rows = Ok [(id, JObj (spread config))].
Proof.
  intros Hlen. unfold write_config. rewrite column_of_stringify. cbn [bind].
  destruct rows as [|[id doc] [|second more]]; cbn in Hlen; try lia.
  - now exists assigned.
  - exists id. cbn. now rewrite Z.eqb_refl.
Qed.

Lemma decode_deliver (as_text : bool) (members : list (string * json)) :
  decode_cell (deliver as_text (JObj members)) = Ok (JObj members).
Proof.
  unfold deliver. destruct as_text; [|reflexivity].
  cbn [decode_cell]. now rewrite JSON_parse_stringify.
Qed.

Lemma connects_holding (env : Environment) (as_text : bool) (rows : Table)
  (dsn : option string) (pool : Pool) :
  connects (holding env as_text rows) dsn pool = connects env dsn pool.
Proof. reflexivity. Qed.

Lemma initializePool_connected (env : Environment) (dsn : option string) (pool : Pool) :
  connects env dsn pool = true ->
  exists opts, initializePool env dsn pool = (Some opts, Some opts) /\
               accepts env opts = true.
Proof.
  unfold connects, initializePool. destruct dsn as [d|]; [|discriminate].
  destruct (truthy_string d); [|discriminate].
  destruct pool as [opts|]; cbn.
  - intros H. eauto.
  - destruct (parseDSN d) as [opts|e]; [|discriminate].
    destruct (accepts env opts && creates_table env); cbn; [|discriminate].
    intros H. eauto.
Qed.

(** Once connected, the pool stays, and the next call connects as well. *)
Lemma connects_again (env : Environment) (dsn : option string) (pool : Pool) :
  connects env dsn pool = true ->
  connects env dsn (snd (initializePool env dsn pool)) = true.
Proof.
  intros Hc. pose proof (connects_truthy env dsn pool Hc) as Ht.
  destruct (initializePool_connected env dsn pool Hc) as (opts & -> & Hup).
  cbn [snd]. unfold connects, initializePool.
  destruct dsn as [d|]; [|discriminate]. cbn in Ht. rewrite Ht. exact Hup.
Qed.

Lemma updateConfig_connected (env : Environment) (assigned : Z) (config : json)
  (dsn : option string) (pool : Pool) (rows : Table) :
  connects env dsn pool = true ->
  updateConfig env assigned config dsn pool rows =
  match write_config config assigned rows with
  | Ok rows' => ({| success := true; message := "配置更新成功" |},
                 snd (initializePool env dsn pool), rows')
  | Throw e => ({| success := false; message := error_message e |},
                snd (initializePool env dsn pool), rows)
  end.
Proof.
  intros Hc. unfold updateConfig. rewrite (connects_truthy env dsn pool Hc).
  unfold withConnection.
  destruct (initializePool_connected env dsn pool Hc) as (opts & -> & ->).
  reflexivity.
Qed.

Lemma replace_absent (key : string) (v : json) (members : list (string * json)) :
  lookup_member key members = None ->
  List.map (fun m => if String.eqb (fst m) key then (fst m, v) else m) members = members.
Proof.
  induction members as [|[k x] rest IH]; [reflexivity|]. cbn [lookup_member].
  destruct (lookup_member key rest); [discriminate|].
  cbn [List.map fst]. destruct (String.eqb k key); [discriminate|].
  intros _. now rewrite IH.
Qed.

Lemma lookup_member_replaced (name key : string) (v old : json)
  (members : list (string * json)) :
  lookup_member key members = Some old ->
  lookup_member name
    (List.map (fun m => if String.eqb (fst m) key then (fst m, v) else m) members) =
  if String.eqb key name then Some v else lookup_member name members.
Proof.
  revert old. induction members as [|[k x] rest IH]; intros old; [discriminate|].
  cbn [lookup_member List.map fst].
  destruct (lookup_member key rest) as [found|] eqn:Hrest.
  - intros _. destruct (String.eqb_spec k key) as [->|Hk]; cbn [lookup_member];
      rewrite (IH found eq_refl).
    + destruct (String.eqb key name) eqn:E; [reflexivity|].
      now destruct (lookup_member name rest).
    + destruct (String.eqb_spec key name) as [->|Hn]; [reflexivity|].
      reflexivity.
  - destruct (String.eqb_spec k key) as [->|Hk]; [|discriminate]. intros _.
    cbn [lookup_member].
    rewrite (replace_absent key v rest Hrest).
    destruct (String.eqb_spec key name) as [->|Hn].
    + now rewrite Hrest.
    + reflexivity.
Qed.

Lemma lookup_member_appended (name key : string) (v : json)
  (members : list (string * json)) :
  lookup_member key members = None ->
  lookup_member name (members ++ [(key, v)]) =
  if String.eqb key name then Some v else lookup_member name members.
Proof.
  induction members as [|[k x] rest IH]; intros Hold.
  - cbn. now destruct (String.eqb key name).
  - cbn [lookup_member] in Hold.
    destruct (lookup_member key rest) eqn:Hrest; [discriminate|].
    destruct (String.eqb_spec k key) as [->|Hk]; [discriminate|].
    cbn [app lookup_member]. rewrite (IH eq_refl).
    destruct (String.eqb_spec key name) as [->|Hn]; [|reflexivity].
    reflexivity.
Qed.

(** Reading a property after [obj.key = v]. *)
Lemma lookup_member_set_member (name key : string) (v : json)
  (members : list (string * json)) :
  lookup_member name (set_member key v members) =
  if String.eqb key name then Some v else lookup_member name members.
Proof.
  unfold set_member. destruct (lookup_member key members) as [old|] eqn:Hold.
  - now apply (lookup_member_replaced name key v old).
  - now apply lookup_member_appended.
Qed.

Lemma lookup_member_without (name key : string) (members : list (string * json)) :
  lookup_member name (List.filter (fun m => negb (String.eqb (fst m) key)) members) =
  if String.eqb key name then None else lookup_member name members.
Proof.
  induction members as [|[k x] rest IH].
  - cbn. now destruct (String.eqb key name).
  - cbn [List.filter fst]. destruct (String.eqb_spec k key) as [->|Hk]; cbn [negb].
    + rewrite IH. cbn [lookup_member].
      destruct (String.eqb key name) eqn:E; [reflexivity|].
      now destruct (lookup_member name rest).
    + cbn [lookup_member]. rewrite IH.
      destruct (String.eqb_spec key name) as [->|Hn]; [|reflexivity].
      destruct (String.eqb_spec k name); [contradiction | reflexivity].
Qed.

(** The property [name] of a value, undefined where reading it fails. *)
Definition property (v : json) (name : string) : option json :=
  catch (get_prop v name) (fun _ => None).

(** The password of a configuration as getConfig sends it. *)
Definition for_transport (v : json) : json :=
  match v with
  | JStr p => if truthy_string p then JStr (base64_thrice (list_ascii_of_string p)) else v
  | other => other
  end.

(** The loginPassword of the configuration is a string, or falsy, or missing:
    the values [Buffer.from] takes in encodeBase64. *)
Definition password_is_text (members : list (string * json)) : bool :=
  match lookup_member "loginPassword" members with
  | Some (JStr _) => true
  | Some other => negb (truthy other)
  | None => true
  end.

Lemma encode_for_transport_text (env : Environment) (members : list (string * json)) :
  password_is_text members = true ->
  exists sent : list (string * json),
    encode_for_transport env (JObj members) = Ok (JObj sent) /\
    forall name : string,
      lookup_member name sent =
      if String.eqb "loginPassword" name
      then option_map for_transport (lookup_member "loginPassword" members)
      else lookup_member name members.
Proof.
  unfold password_is_text, encode_for_transport. cbn [get_prop bind].
  destruct (lookup_member "loginPassword" members) as [pw|] eqn:Hpw.
  - destruct (truthy pw) eqn:Ht.
    + destruct pw as [ | b | n | p | items | fields ]; cbn in Ht; try discriminate;
        intros Htext; try discriminate Htext.
      cbn [encodeBase64 bind assign_loginPassword]. eexists. split; [reflexivity|].
      intros name. rewrite lookup_member_set_member. cbn [option_map for_transport].
      now rewrite Ht.
    + intros _. exists members. split; [reflexivity|]. intros name.
      destruct (String.eqb_spec "loginPassword" name) as [<-|Hn]; [|reflexivity].
      rewrite Hpw. cbn [option_map].
      destruct pw as [ | b | n | p | items | fields ]; cbn in Ht; try discriminate;
        cbn [for_transport]; try reflexivity. now rewrite Ht.
  - intros _. exists members. split; [reflexivity|]. intros name.
    destruct (String.eqb_spec "loginPassword" name) as [<-|Hn]; [|reflexivity].
    now rewrite Hpw.
Qed.

Lemma newest_single (row : Z * json) : newest [row] = Some row.
Proof. reflexivity. Qed.

(** X16. updateConfig, then the three readers. With the server
    answering and at most one row in the table, updateConfig(config, dsn)
    reports success and leaves one row, holding the own properties of
    [config]; when the loginPassword of [config] is a string (or falsy, or
    missing), getConfig then returns those properties with a non-empty
    loginPassword encoded three times in Base64, getPublicConfig returns
    them without loginPassword, and verifyPassword(candidate) answers
    whether the candidate is strictly equal to the loginPassword that was
    saved. *)
Theorem updateConfig_then_read
  (env : Environment) (as_text : bool) (assigned : Z) (config : json)
  (dsn : option string) (pool : Pool) (rows : Table) :
  connects env dsn pool = true -> List.length rows <= 1 ->
  let '(answer, pool1, rows1) := updateConfig env assigned config dsn pool rows in
  let env1 := holding env as_text rows1 in
  success answer = true /\
  (exists id : Z, rows1 = [(id, JObj (spread config))]) /\
  (forall candidate : json,
     fst (verifyPassword env1 candidate dsn pool1) =
     strict_equal (Some candidate) (lookup_member "loginPassword" (spread config))) /\
  (password_is_text (spread config) = true ->
   (forall name : string,
      property (fst (getConfig env1 dsn pool1)) name =
      if String.eqb "loginPassword" name
      then option_map for_transport (lookup_member "loginPassword" (spread config))
      else lookup_member name (spread config)) /\
   (exists shown : list (string * json),
      fst (getPublicConfig env1 dsn pool1) = Ok (JObj shown) /\
      forall name : string,
        lookup_member name shown =
        if String.eqb "loginPassword" name then None
        else lookup_member name (spread config))).
Proof.
  intros Hc Hlen. rewrite (updateConfig_connected env assigned config dsn pool rows Hc).
  destruct (write_config_short config assigned rows Hlen) as [id ->].
  cbv zeta. set (pool1 := snd (initializePool env dsn pool)).
  set (env1 := holding env as_text [(id, JObj (spread config))]).
  assert (Hc1 : connects env1 dsn pool1 = true) by (apply (connects_again env); exact Hc).
  pose proof (connects_truthy env1 dsn pool1 Hc1) as Ht.
  assert (Hrows : latest_config env1 = Ok [deliver as_text (JObj (spread config))])
    by reflexivity.
  split; [reflexivity|]. split; [now exists id|]. split.
  - intros candidate. rewrite fst_verifyPassword, Ht.
    rewrite withConnection_connected by exact Hc1.
    unfold check_password. rewrite Hrows. cbn [bind].
    rewrite decode_deliver. reflexivity.
  - intros Htext.
    destruct (encode_for_transport_text env1 (spread config) Htext) as (sent & Hsent & Hprops).
    assert (Hget : fst (getConfig env1 dsn pool1) = JObj sent).
    { rewrite fst_getConfig, Ht. rewrite withConnection_connected by exact Hc1.
      unfold read_config. rewrite Hrows. cbn [bind]. rewrite decode_deliver. cbn [bind].
      now rewrite Hsent. }
    split.
    + intros name. rewrite Hget. unfold property. cbn [get_prop catch]. apply Hprops.
    + unfold getPublicConfig.
      destruct (getConfig env1 dsn pool1) as [got pool2]. cbn [fst] in Hget. subst got.
      cbn [fst]. unfold object_rest. cbn [own_properties bind]. eexists.
      split; [reflexivity|]. intros name. rewrite lookup_member_without.
      destruct (String.eqb_spec "loginPassword" name) as [<-|Hn]; [reflexivity|].
      rewrite Hprops. destruct (String.eqb_spec "loginPassword" name); [contradiction|].
      reflexivity.
Qed.

Definition new_settings : json :=
  JObj [("resourceSites", JArr [JStr "https://example.org/api"]);
        ("enableLogin", JBool true);
        ("loginPassword", JStr "opensesame")].

Lemma updateConfig_then_read_witness :
  connects (serving disabled_login_record) sample_dsn None = true /\
  let '(answer, pool1, rows1) :=
    updateConfig (serving disabled_login_record) 1 new_settings sample_dsn None
      [(5%Z, disabled_login_record)] in
  let env1 := holding (serving disabled_login_record) true rows1 in
  success answer = true /\
  rows1 = [(5%Z, new_settings)] /\
  fst (verifyPassword env1 (JStr "opensesame") sample_dsn pool1) = true /\
  fst (verifyPassword env1 (JStr "hunter2") sample_dsn pool1) = false /\
  property (fst (getConfig env1 sample_dsn pool1)) "loginPassword" =
    Some (JStr "WWpOQ2JHSnVUbXhqTWtaMFdsRTlQUT09") /\
  property (fst (getConfig env1 sample_dsn pool1)) "enableLogin" = Some (JBool true).
Proof.
  split; [reflexivity|].
  pose proof (updateConfig_then_read (serving disabled_login_record) true 1 new_settings
                sample_dsn None [(5%Z, disabled_login_record)] eq_refl
                (le_n 1)) as H.
  destruct (updateConfig (serving disabled_login_record) 1 new_settings sample_dsn None
              [(5%Z, disabled_login_record)]) as [[answer pool1] rows1] eqn:E.
  cbv zeta in *. destruct H as (Hok & _ & Hverify & Hread).
  destruct (Hread eq_refl) as [Hprops _].
  split; [exact Hok|]. split.
  { vm_compute in E. now injection E as _ _ <-. }
  rewrite !Hverify, !Hprops. repeat split.
Defined.

Lemma newest_update_id (id : Z) (doc : json) (rows : Table) :
  newest (update_id Z.eqb id doc rows) =
  option_map (fun r => if Z.eqb (fst r) id then (fst r, doc) else r) (newest rows).
Proof.
  unfold update_id. induction rows as [|[i d] rest IH]; [reflexivity|].
  cbn [List.map newest fst]. rewrite IH. clear IH.
  destruct (newest rest) as [[j e]|]; cbn [option_map fst].
  - destruct (Z.eqb i id) eqn:Ei; destruct (Z.eqb j id) eqn:Ej; cbn [fst];
      destruct (i <? j)%Z; cbn [option_map fst]; rewrite ?Ei, ?Ej; reflexivity.
  - now destruct (Z.eqb i id).
Qed.

(** X17. updateConfig writes the row that [SELECT id ... LIMIT 1]
    returns, the first of the table, while getConfig, getPublicConfig and
    verifyPassword read the row with the greatest id. When these are two
    rows, updateConfig reports success and every reader answers as before
    the update: the saved configuration and its password are not the ones
    in force. *)
Theorem updateConfig_is_not_read_back_from_a_second_row
  (env : Environment) (as_text : bool) (assigned : Z) (config : json)
  (dsn : option string) (pool : Pool) (first latest : Z * json) (rest : Table) :
  connects env dsn pool = true ->
  newest (first :: rest) = Some latest -> fst latest <> fst first ->
  let '(answer, pool1, rows1) := updateConfig env assigned config dsn pool (first :: rest) in
  success answer = true /\
  select_id Z.eqb (fst first) rows1 =
    List.map (fun r => (fst r, JObj (spread config)))
             (select_id Z.eqb (fst first) (first :: rest)) /\
  newest rows1 = Some latest /\
  forall (candidate : json) (d : option string) (p : Pool),
    getConfig (holding env as_text rows1) d p =
      getConfig (holding env as_text (first :: rest)) d p /\
    getPublicConfig (holding env as_text rows1) d p =
      getPublicConfig (holding env as_text (first :: rest)) d p /\
    verifyPassword (holding env as_text rows1) candidate d p =
      verifyPassword (holding env as_text (first :: rest)) candidate d p.
Proof.
  intros Hc Hnew Hne.
  rewrite (updateConfig_connected env assigned config dsn pool (first :: rest) Hc).
  unfold write_config. rewrite column_of_stringify. cbn [bind].
  assert (Hkept : newest (update_id Z.eqb (fst first) (JObj (spread config)) (first :: rest))
                  = Some latest).
  { rewrite newest_update_id, Hnew. cbn [option_map].
    destruct (Z.eqb_spec (fst latest) (fst first)); [contradiction | reflexivity]. }
  split; [reflexivity|]. split; [apply select_id_update|]. split; [exact Hkept|].
  assert (Hsame : holding env as_text
                    (update_id Z.eqb (fst first) (JObj (spread config)) (first :: rest))
                  = holding env as_text (first :: rest)).
  { unfold holding. now rewrite Hkept, Hnew. }
  intros candidate d p. now rewrite Hsame.
Qed.

Lemma updateConfig_is_not_read_back_from_a_second_row_witness :
  connects (serving JNull) sample_dsn None = true /\
  let table := [(1%Z, disabled_login_record); (2%Z, disabled_login_record)] in
  let '(answer, pool1, rows1) :=
    updateConfig (serving JNull) 3 new_settings sample_dsn None table in
  success answer = true /\
  rows1 = [(1%Z, new_settings); (2%Z, disabled_login_record)] /\
  fst (verifyPassword (holding (serving JNull) false rows1) (JStr "opensesame")
         sample_dsn pool1) = false /\
  fst (verifyPassword (holding (serving JNull) false rows1) (JStr "hunter2")
         sample_dsn pool1) = true.
Proof.
  split; [reflexivity|]. cbv zeta.
  pose proof (updateConfig_is_not_read_back_from_a_second_row (serving JNull) false 3
                new_settings sample_dsn None (1%Z, disabled_login_record)
                (2%Z, disabled_login_record) [(2%Z, disabled_login_record)]
                eq_refl eq_refl ltac:(discriminate)) as H.
  destruct (updateConfig (serving JNull) 3 new_settings sample_dsn None _)
    as [[answer pool1] rows1] eqn:E.
  destruct H as (Hok & _ & _ & Hreads).
  split; [exact Hok|]. split.
  { vm_compute in E. now injection E as _ _ <-. }
  destruct (Hreads (JStr "opensesame") sample_dsn pool1) as (_ & _ & ->).
  destruct (Hreads (JStr "hunter2") sample_dsn pool1) as (_ & _ & ->).
  vm_compute in E. injection E as _ <- _. split; reflexivity.
Defined.

(** ** The pool of db.js *)

(** X18. The pool is created once. After a first call that connected
    with one DSN, initializePool returns the same pool for every other
    non-empty DSN, without parsing it, so getConfig and verifyPassword
    with another DSN, even one that parseDSN would reject, answer from the
    server of the first. *)
Theorem pool_outlives_the_dsn_it_was_made_from
  (env : Environment) (dsn : option string) (other : string) :
  connects env dsn None = true -> truthy_string other = true ->
  let pool1 := snd (initializePool env dsn None) in
  (exists (d : string) (opts : PoolOptions),
     dsn = Some d /\ parseDSN d = Ok opts /\ pool1 = Some opts) /\
  initializePool env (Some other) pool1 = (pool1, pool1) /\
  getConfig env (Some other) pool1 = getConfig env dsn pool1 /\
  forall candidate : json,
    verifyPassword env candidate (Some other) pool1 =
    verifyPassword env candidate dsn pool1.
Proof.
  intros Hc Hother. cbv zeta.
  pose proof (connects_truthy env dsn None Hc) as Ht.
  destruct dsn as [d|]; [|discriminate Ht]. cbn [truthy_opt] in Ht.
  assert (Hfirst : exists opts, parseDSN d = Ok opts /\
                                initializePool env (Some d) None = (Some opts, Some opts)).
  { unfold connects, initializePool in Hc |- *. rewrite Ht in *.
    destruct (parseDSN d) as [opts|e]; [|discriminate Hc].
    destruct (accepts env opts && creates_table env); [eauto | discriminate Hc]. }
  destruct Hfirst as (opts & Hparse & ->). cbn [snd].
  split; [now exists d, opts|].
  assert (Hany : forall s : string, truthy_string s = true ->
            initializePool env (Some s) (Some opts) = (Some opts, Some opts)).
  { intros s Hs. unfold initializePool. now rewrite Hs. }
  split; [now apply Hany|].
  unfold getConfig, verifyPassword, withConnection. cbn [truthy_opt].
  rewrite Ht, Hother, (Hany other Hother), (Hany d Ht). split; [reflexivity|].
  intros candidate. reflexivity.
Qed.

Lemma pool_outlives_the_dsn_it_was_made_from_witness :
  connects (serving disabled_login_record) sample_dsn None = true /\
  let pool1 := snd (initializePool (serving disabled_login_record) sample_dsn None) in
  parseDSN "no at sign in here" = Throw (TypeError "Cannot read properties of undefined (reading 'split')") /\
  fst (verifyPassword (serving disabled_login_record) (JStr "hunter2")
         (Some "no at sign in here") pool1) = true.
Proof.
  split; [reflexivity|]. cbv zeta. split; [reflexivity|].
  destruct (pool_outlives_the_dsn_it_was_made_from (serving disabled_login_record)
              sample_dsn "no at sign in here" eq_refl eq_refl) as (_ & _ & _ & Hverify).
  rewrite Hverify. reflexivity.
Defined.

End ConfigTable.

(** * Laws of the session tokens *)
Module TokenLaws.

Import Json Js Auth.

(** The headers generateDeviceFingerprint reads. *)
Definition fingerprint_headers : list string :=
  ["user-agent"; "accept-language"; "accept-encoding"; "sec-ch-ua-platform";
   "sec-ch-ua-mobile"; "sec-fetch-site"; "sec-fetch-mode"; "sec-fetch-dest"].

(** Two requests agree on everything the fingerprint is made of: the eight
    headers, each as the fingerprint takes it, and the client address. *)
Definition same_device (req1 req2 : Request) : Prop :=
  (forall name : string, In name fingerprint_headers ->
     header_or_unknown req1 name = header_or_unknown req2 name) /\
  client_ip req1 = client_ip req2.

Lemma fingerprint_object_same_device (req1 req2 : Request) :
  fingerprint_object req1 = fingerprint_object req2 <-> same_device req1 req2.
Proof.
  unfold same_device, fingerprint_object, optional_member. split.
  - intros E.
    destruct (client_ip req1) as [ip1|], (client_ip req2) as [ip2|]; cbn [app] in E;
      try discriminate E; injection E; intros.
    + split; [|congruence].
      intros name [<-|[<-|[<-|[<-|[<-|[<-|[<-|[<-|[]]]]]]]]]; assumption.
    + split; [|reflexivity].
      intros name [<-|[<-|[<-|[<-|[<-|[<-|[<-|[<-|[]]]]]]]]]; assumption.
  - intros [Hh Hip]. rewrite Hip.
    rewrite (Hh "user-agent"), (Hh "accept-language"), (Hh "accept-encoding"),
      (Hh "sec-ch-ua-platform"), (Hh "sec-ch-ua-mobile"), (Hh "sec-fetch-site"),
      (Hh "sec-fetch-mode"), (Hh "sec-fetch-dest"); try reflexivity;
      unfold fingerprint_headers; cbn; auto 10.
Qed.

Lemma fingerprint_same_device (req1 req2 : Request) :
  generateDeviceFingerprint req1 = generateDeviceFingerprint req2 <->
  same_device req1 req2.
Proof.
  rewrite <- fingerprint_object_same_device. unfold generateDeviceFingerprint. split.
  - intros E. now apply base64_inj, JSON_stringify_inj in E.
  - now intros ->.
Qed.

Section Tokens.
Variable mac : string -> string -> string.
Variable secret : string.

Lemma own_token_accepted (issued now_ms : Z) (isAdmin : json) (req1 req2 : Request) :
  accepted (verifyToken mac secret now_ms (generateToken mac secret issued isAdmin req1) req2)
  = true <->
  (now_ms / 1000 < issued + day_in_seconds)%Z /\
  generateDeviceFingerprint req1 = generateDeviceFingerprint req2.
Proof.
  destruct (token_payload_claims issued isAdmin req1) as [Hfp Hexp].
  split.
  - destruct (verifyToken mac secret now_ms _ req2) as [decoded|] eqn:E; [|discriminate].
    intros _. apply verifyToken_accepts in E.
    destruct E as (signature & Htoken & _ & Hlive & Hsame).
    rewrite generateToken_signed in Htoken. injection Htoken as <- _.
    unfold unexpired in Hlive. rewrite Hexp in Hlive. apply Z.ltb_lt in Hlive.
    split; [exact Hlive | congruence].
  - intros [Hlive Hsame].
    assert (E : verifyToken mac secret now_ms (generateToken mac secret issued isAdmin req1)
                  req2 = Some (token_payload issued isAdmin req1)).
    { apply verifyToken_accepts.
      exists (signature_of mac secret (token_payload issued isAdmin req1)).
      repeat split.
      - apply generateToken_signed.
      - apply String.eqb_refl.
      - unfold unexpired. rewrite Hexp. now apply Z.ltb_lt.
      - now rewrite <- Hsame. }
    now rewrite E.
Qed.

End Tokens.

(** X19. How long a token lives. A token of generateToken, presented
    from the request it was issued for, passes verifyToken exactly while
    the clock of the library, which counts seconds, is below the time of
    issue plus 86400; the time of issue is what generateToken writes to
    iat, Date.now() in milliseconds. So the token is still accepted at any
    time up to a thousand times its time of issue, far beyond 24 hours. *)
Theorem token_lifetime_counts_from_milliseconds
  (mac : string -> string -> string) (secret : string)
  (issued now_ms : Z) (isAdmin : json) (req : Request) :
  (accepted (verifyToken mac secret now_ms (generateToken mac secret issued isAdmin req) req)
   = true <-> (now_ms / 1000 < issued + 86400)%Z) /\
  ((0 <= issued)%Z -> (now_ms <= 1000 * issued)%Z ->
   verifyToken mac secret now_ms (generateToken mac secret issued isAdmin req) req =
   Some (token_payload issued isAdmin req)).
Proof.
  pose proof (own_token_accepted mac secret issued now_ms isAdmin req req) as H.
  unfold day_in_seconds in H. split.
  - rewrite H. tauto.
  - intros Hissued Hnow.
    assert (Hlive : (now_ms / 1000 < issued + 86400)%Z).
    { apply Z.div_lt_upper_bound; lia. }
    apply verifyToken_accepts.
    destruct (token_payload_claims issued isAdmin req) as [Hfp Hexp].
    exists (signature_of mac secret (token_payload issued isAdmin req)).
    repeat split.
    + apply generateToken_signed.
    + apply String.eqb_refl.
    + unfold unexpired. rewrite Hexp. now apply Z.ltb_lt.
    + exact Hfp.
Qed.

Lemma token_lifetime_counts_from_milliseconds_witness :
  let issued := 1700000000000%Z in
  let a_year_later := (issued + 365 * 24 * 60 * 60 * 1000)%Z in
  let chrome := request_with (Some "Mozilla/5.0 Chrome/120") in
  (0 <= issued)%Z /\ (a_year_later <= 1000 * issued)%Z /\
  verifyToken sample_mac sample_secret a_year_later
    (generateToken sample_mac sample_secret issued (JBool false) chrome) chrome =
  Some (token_payload issued (JBool false) chrome).
Proof.
  cbv zeta. split; [lia|]. split; [lia|].
  apply (token_lifetime_counts_from_milliseconds sample_mac sample_secret); lia.
Defined.

(** X20. What a token is bound to. Two requests have the same device
    fingerprint exactly when they agree on the eight headers the
    fingerprint reads (user-agent, accept-language, accept-encoding,
    sec-ch-ua-platform, sec-ch-ua-mobile, sec-fetch-site, sec-fetch-mode,
    sec-fetch-dest), each replaced by "unknown" when absent or empty, and
    on the client address; so an unexpired token issued for one request
    passes verifyToken from another exactly when the two agree on these
    nine, whatever else differs between them. *)
Theorem token_is_bound_to_the_fingerprint_fields
  (mac : string -> string -> string) (secret : string)
  (issued now_ms : Z) (isAdmin : json) (req1 req2 : Request) :
  (generateDeviceFingerprint req1 = generateDeviceFingerprint req2 <->
   same_device req1 req2) /\
  ((now_ms / 1000 < issued + 86400)%Z ->
   (accepted (verifyToken mac secret now_ms
                (generateToken mac secret issued isAdmin req1) req2) = true <->
    same_device req1 req2)).
Proof.
  split; [apply fingerprint_same_device|].
  intros Hlive. rewrite own_token_accepted, fingerprint_same_device.
  unfold day_in_seconds. tauto.
Qed.

(** The same browser and address, with a cookie and a referer added. *)
Definition with_cookie (req : Request) : Request :=
  {| headers := <["cookie" := "session=abc"]> (<["referer" := "https://example.org/"]>
                  (headers req));
     ip := ip req; remoteAddress := remoteAddress req |}.

(** The same browser from another address. *)
Definition from_address (address : string) (req : Request) : Request :=
  {| headers := headers req; ip := Some address; remoteAddress := remoteAddress req |}.

Lemma token_is_bound_to_the_fingerprint_fields_witness :
  let issued := 1700000000000%Z in
  let now_ms := (issued + 60 * 1000)%Z in
  let chrome := request_with (Some "Mozilla/5.0 Chrome/120") in
  let token := generateToken sample_mac sample_secret issued (JBool false) chrome in
  (now_ms / 1000 < issued + 86400)%Z /\
  same_device chrome (with_cookie chrome) /\
  accepted (verifyToken sample_mac sample_secret now_ms token (with_cookie chrome)) = true /\
  accepted (verifyToken sample_mac sample_secret now_ms token
              (from_address "198.51.100.9" chrome)) = false.
Proof.
  cbv zeta.
  assert (Hlive : (((1700000000000 + 60 * 1000) / 1000 < 1700000000000 + 86400))%Z)
    by (vm_compute; reflexivity).
  assert (Hsame : same_device (request_with (Some "Mozilla/5.0 Chrome/120"))
                    (with_cookie (request_with (Some "Mozilla/5.0 Chrome/120")))).
  { split; [|reflexivity].
    intros name [<-|[<-|[<-|[<-|[<-|[<-|[<-|[<-|[]]]]]]]]]; vm_compute; reflexivity. }
  split; [exact Hlive|]. split; [exact Hsame|]. split.
  - apply (proj2 (token_is_bound_to_the_fingerprint_fields sample_mac sample_secret
                    1700000000000 (1700000000000 + 60 * 1000) (JBool false) _ _) Hlive).
    exact Hsame.
  - vm_compute. reflexivity.
Defined.

End TokenLaws.

(** * The routes of the Express server: checkAuth, checkAdmin,
    /api/auth/verify, /api/config, /api/home/config, /api/admin/config *)
Module Express.

Import Json Js Dsn ConfigHandler Auth DsnLaws ConfigTable TokenLaws.

Record Response : Type := {
  status : Z;
  body : json
}.

(** [res.json(v)] *)
Definition json_response (v : json) : Response := {| status := 200; body := v |}.

(** [res.status(code).json({ error: text })] *)
Definition error_response (code : Z) (text : string) : Response :=
  {| status := code; body := JObj [("error", JStr text)] |}.

(** The variables of [process.env] the routes read. *)
Record ProcessEnv : Type := {
  SQL_DSN : option string;
  ADMIN_PASSWORD : option string
}.

Definition single_quote : ascii := "'"%char.

(** [s.replace(/^'|'$/g, '')]: one quote goes from the start and one from the end. *)
Definition strip_quotes (s : chars) : chars :=
  let unquoted :=
    match s with
    | c :: rest => if Ascii.eqb c single_quote then rest else s
    | [] => []
    end in
  match List.rev unquoted with
  | c :: rest => if Ascii.eqb c single_quote then List.rev rest else unquoted
  | [] => []
  end.

(** [process.env.SQL_DSN?.replace(/^'|'$/g, '')] *)
Definition dsn_of (env : ProcessEnv) : option string :=
  option_map (fun s => text (strip_quotes (list_ascii_of_string s))) (SQL_DSN env).

(** [req.headers.authorization?.split(' ')[1]] *)
Definition bearer (req : Request) : option string :=
  match headers req !! "authorization" with
  | Some value => option_map text (second_of (split " " (list_ascii_of_string value)))
  | None => None
  end.

(** ToBoolean of a value that may be undefined. *)
Definition truthy_value (v : option json) : bool :=
  match v with
  | Some x => truthy x
  | None => false
  end.

(** The request with its Authorization header set to [value]. *)
Definition with_authorization (value : string) (req : Request) : Request :=
  {| headers := <["authorization" := value]> (headers req);
     ip := ip req; remoteAddress := remoteAddress req |}.

Lemma bearer_with_authorization (scheme token : string) (req : Request) :
  count_in " " scheme = 0 -> count_in " " token = 0 ->
  bearer (with_authorization (scheme +:+ " " +:+ token) req) = Some token.
Proof.
  unfold count_in. intros Hscheme Htoken. unfold bearer, with_authorization.
  cbn [headers]. rewrite lookup_insert_eq, second_of_split. unfold second_segment.
  rewrite chars_append.
  change (list_ascii_of_string (" " +:+ token))
    with (" "%char :: list_ascii_of_string token).
  rewrite (after_first " " _ _ Hscheme). cbn [option_map].
  rewrite (before_no_occurrence " " _ Htoken). unfold text.
  now rewrite string_of_list_ascii_of_string.
Qed.

Lemma bearer_without_scheme (token : string) (req : Request) :
  count_in " " token = 0 -> bearer (with_authorization token req) = None.
Proof.
  unfold count_in. intros Htoken. unfold bearer, with_authorization.
  cbn [headers]. rewrite lookup_insert_eq, second_of_split. unfold second_segment.
  now rewrite (after_absent " " _ Htoken).
Qed.

Lemma fingerprint_with_authorization (value : string) (req : Request) :
  generateDeviceFingerprint (with_authorization value req) = generateDeviceFingerprint req.
Proof.
  apply fingerprint_same_device. split; [|reflexivity].
  intros name Hin. unfold header_or_unknown, with_authorization. cbn [headers].
  rewrite lookup_insert_ne; [reflexivity|].
  intros <-. unfold fingerprint_headers in Hin. cbn in Hin.
  repeat (destruct Hin as [Hin|Hin]; [discriminate Hin|]). exact Hin.
Qed.

Section Routes.

(** The keyed hash and the secret of the tokens, and the compact text of
    a token: what [jwt.sign] returns and how [jwt.verify] reads it. *)
Variable mac : string -> string -> string.
Variable JWT_SECRET : string.
Variable jwt_text : Token -> string.
Variable jwt_read : string -> Token.

(** [checkAuth]: the response that ends the request, or the decoded
    payload it stores in [req.user] before calling [next()]. *)
Definition checkAuth (now_ms : Z) (req : Request) : Response + json :=
  match bearer req with
  | Some token =>
      if truthy_string token then
        match verifyToken mac JWT_SECRET now_ms (jwt_read token) req with
        | Some decoded => inr decoded
        | None => inl (error_response 401 "登录已过期或在其他设备登录")
        end
      else inl (error_response 401 "未登录")
  | None => inl (error_response 401 "未登录")
  end.

(** [checkAdmin]: the response that ends the request, if any. *)
Definition checkAdmin (user : json) : option Response :=
  if truthy_value (catch (get_prop user "isAdmin") (fun _ => None)) then None
  else Some (error_response 403 "需要管理员权限").

(** [generateToken(isAdmin, req)] as the route calls it: the parameter
    defaults to false when the body has no isAdmin. *)
Definition issue (now_ms : Z) (isAdmin : option json) (req : Request) : Token :=
  generateToken mac JWT_SECRET now_ms
    (match isAdmin with Some v => v | None => JBool false end) req.

(** POST /api/auth/verify *)
Definition auth_verify (penv : ProcessEnv) (env : Environment) (now_ms : Z)
  (req : Request) (payload : json) (pool : Pool) : Response * Pool :=
  match get_prop payload "password", get_prop payload "isAdmin" with
  | Ok password, Ok isAdmin =>
      match password with
      | Some candidate =>
          if truthy candidate then
            let '(isValid, pool') :=
              if truthy_value isAdmin
              then (strict_equal password (option_map JStr (ADMIN_PASSWORD penv)), pool)
              else verifyPassword env candidate (dsn_of penv) pool in
            if isValid
            then (json_response
                    (JObj [("success", JBool true);
                           ("token", JStr (jwt_text (issue now_ms isAdmin req)))]),
                  pool')
            else (error_response 401 "密码错误", pool')
          else (error_response 400 "密码不能为空", pool)
      | None => (error_response 400 "密码不能为空", pool)
      end
  | _, _ => (error_response 500 "验证失败", pool)
  end.

(** GET /api/config *)
Definition get_config (penv : ProcessEnv) (env : Environment) (now_ms : Z)
  (req : Request) (pool : Pool) : Response * Pool :=
  match checkAuth now_ms req with
  | inl refusal => (refusal, pool)
  | inr _ =>
      let '(r, pool') := getPublicConfig env (dsn_of penv) pool in
      (match r with
       | Ok config => json_response config
       | Throw _ => error_response 500 "获取配置失败"
       end, pool')
  end.

(** GET /api/home/config: its token test is that of checkAuth. *)
Definition get_home_config (penv : ProcessEnv) (env : Environment) (now_ms : Z)
  (req : Request) (pool : Pool) : Response * Pool :=
  let '(r, pool') := getPublicConfig env (dsn_of penv) pool in
  match bind r (fun config => bind (get_prop config "enableLogin") (fun flag =>
                 Ok (config, flag))) with
  | Ok (config, flag) =>
      if truthy_value flag then
        match checkAuth now_ms req with
        | inl refusal => (refusal, pool')
        | inr _ => (json_response config, pool')
        end
      else (json_response config, pool')
  | Throw _ => (error_response 500 "获取配置失败", pool')
  end.

(** GET /api/admin/config *)
Definition get_admin_config (penv : ProcessEnv) (env : Environment) (now_ms : Z)
  (req : Request) (pool : Pool) : Response * Pool :=
  match checkAuth now_ms req with
  | inl refusal => (refusal, pool)
  | inr user =>
      match checkAdmin user with
      | Some refusal => (refusal, pool)
      | None =>
          let '(config, pool') := getConfig env (dsn_of penv) pool in
          (json_response config, pool')
      end
  end.

(** POST /api/admin/config *)
Definition post_admin_config (penv : ProcessEnv) (env : Environment) (assigned : Z)
  (now_ms : Z) (req : Request) (payload : json) (pool : Pool) (rows : Table)
  : Response * Pool * Table :=
  match checkAuth now_ms req with
  | inl refusal => (refusal, pool, rows)
  | inr user =>
      match checkAdmin user with
      | Some refusal => (refusal, pool, rows)
      | None =>
          let '(result, pool', rows') :=
            updateConfig env assigned payload (dsn_of penv) pool rows in
          if success result
          then (json_response (JObj [("message", JStr "配置更新成功")]), pool', rows')
          else (error_response 500 (message result), pool', rows')
      end
  end.

(** ** What the public routes send *)

Lemma checkAuth_refusal_is_an_error (now_ms : Z) (req : Request) (refusal : Response) :
  checkAuth now_ms req = inl refusal ->
  exists text : string, refusal = error_response 401 text.
Proof.
  unfold checkAuth. destruct (bearer req) as [token|]; [|intros [= <-]; eauto].
  destruct (truthy_string token); [|intros [= <-]; eauto].
  destruct (verifyToken mac JWT_SECRET now_ms (jwt_read token) req);
    [discriminate | intros [= <-]; eauto].
Qed.

(** X21. The routes /api/config and /api/home/config never send the
    login password: whatever the request, the clock, the environment and
    the state of the database, the body of the response has no
    loginPassword. With no SQL_DSN in the environment, /api/home/config
    answers every request, with or without a token, with the default
    configuration less its loginPassword. *)
Theorem public_routes_never_send_the_password
  (penv : ProcessEnv) (env : Environment) (now_ms : Z) (req : Request) (pool : Pool) :
  property (body (fst (get_config penv env now_ms req pool))) "loginPassword" = None /\
  property (body (fst (get_home_config penv env now_ms req pool))) "loginPassword" = None /\
  (SQL_DSN penv = None ->
   fst (get_home_config penv env now_ms req pool) =
   json_response
     (JObj [("resourceSites", JArr []); ("parseApi", JStr "");
            ("backgroundImage", JStr ""); ("enableLogin", JBool false);
            ("announcement", JStr ""); ("customTitle", JStr "")])).
Proof.
  destruct (getPublicConfig_redacts env (dsn_of penv) pool) as (members & Hpub & Hnone).
  split; [|split].
  - unfold get_config. destruct (checkAuth now_ms req) as [refusal|user] eqn:Hauth.
    + destruct (checkAuth_refusal_is_an_error now_ms req refusal Hauth) as [text ->].
      reflexivity.
    + destruct (getPublicConfig env (dsn_of penv) pool) as [r pool1].
      cbn [fst] in Hpub. subst r. cbn. unfold property. cbn. exact Hnone.
  - unfold get_home_config.
    destruct (getPublicConfig env (dsn_of penv) pool) as [r pool1].
    cbn [fst] in Hpub. subst r. cbn [bind get_prop].
    destruct (truthy_value (lookup_member "enableLogin" members)).
    + destruct (checkAuth now_ms req) as [refusal|user] eqn:Hauth.
      * destruct (checkAuth_refusal_is_an_error now_ms req refusal Hauth) as [text ->].
        reflexivity.
      * cbn. unfold property. cbn. exact Hnone.
    + cbn. unfold property. cbn. exact Hnone.
  - intros Hdsn. unfold get_home_config, dsn_of. rewrite Hdsn. reflexivity.
Qed.

(** ** From the login to the protected routes *)

Definition admin_flag (isAdmin : option json) : json :=
  match isAdmin with
  | Some v => v
  | None => JBool false
  end.

(** What a reply of /api/auth/verify with status 200 tells. *)
Lemma auth_verify_success (penv : ProcessEnv) (env : Environment) (now_ms : Z)
  (req : Request) (payload : json) (pool pool' : Pool) (reply : Response) :
  auth_verify penv env now_ms req payload pool = (reply, pool') ->
  status reply = 200%Z ->
  exists (candidate : json) (isAdmin : option json),
    get_prop payload "password" = Ok (Some candidate) /\
    get_prop payload "isAdmin" = Ok isAdmin /\
    reply = json_response
              (JObj [("success", JBool true);
                     ("token", JStr (jwt_text (issue now_ms isAdmin req)))]) /\
    (truthy_value isAdmin = true ->
     strict_equal (Some candidate) (option_map JStr (ADMIN_PASSWORD penv)) = true) /\
    (truthy_value isAdmin = false ->
     fst (verifyPassword env candidate (dsn_of penv) pool) = true).
Proof.
  unfold auth_verify.
  destruct (get_prop payload "password") as [password|e],
           (get_prop payload "isAdmin") as [isAdmin|e'];
    try (intros [= <- _] Hs; cbn in Hs; discriminate Hs).
  destruct password as [candidate|];
    [| intros [= <- _] Hs; cbn in Hs; discriminate Hs].
  destruct (truthy candidate); [| intros [= <- _] Hs; cbn in Hs; discriminate Hs].
  destruct (truthy_value isAdmin) eqn:Hflag.
  - destruct (strict_equal (Some candidate) (option_map JStr (ADMIN_PASSWORD penv))) eqn:Heq;
      [| intros [= <- _] Hs; cbn in Hs; discriminate Hs].
    intros [= <- _] _. exists candidate, isAdmin.
    split; [reflexivity|]. split; [reflexivity|]. split; [reflexivity|].
    split; [intros _; exact Heq | intros Hno; congruence].
  - destruct (verifyPassword env candidate (dsn_of penv) pool) as [valid pool1] eqn:Hv.
    destruct valid; [| intros [= <- _] Hs; cbn in Hs; discriminate Hs].
    intros [= <- _] _. exists candidate, isAdmin.
    split; [reflexivity|]. split; [reflexivity|]. split; [reflexivity|].
    split; [intros Hno; congruence | intros _; now rewrite Hv].
Qed.

(** The token of a login, sent back from the same client in time. *)
Lemma checkAuth_accepts_login_token (now_ms later : Z) (isAdmin : option json)
  (req : Request) (scheme : string) :
  let token := issue now_ms isAdmin req in
  jwt_read (jwt_text token) = token ->
  truthy_string (jwt_text token) = true ->
  count_in " " (jwt_text token) = 0 ->
  count_in " " scheme = 0 ->
  (later / 1000 < now_ms + 86400)%Z ->
  checkAuth later (with_authorization (scheme +:+ " " +:+ jwt_text token) req) =
  inr (token_payload now_ms (admin_flag isAdmin) req).
Proof.
  intros token Hread Htruthy Htoken Hscheme Hlive. unfold checkAuth.
  rewrite (bearer_with_authorization scheme _ req Hscheme Htoken), Htruthy, Hread.
  assert (E : verifyToken mac JWT_SECRET later token
                (with_authorization (scheme +:+ " " +:+ jwt_text token) req) =
              Some (token_payload now_ms (admin_flag isAdmin) req)).
  { apply verifyToken_accepts.
    destruct (token_payload_claims now_ms (admin_flag isAdmin) req) as [Hfp Hexp].
    exists (signature_of mac JWT_SECRET (token_payload now_ms (admin_flag isAdmin) req)).
    repeat split.
    - apply generateToken_signed.
    - apply String.eqb_refl.
    - unfold unexpired. rewrite Hexp. now apply Z.ltb_lt.
    - now rewrite fingerprint_with_authorization. }
  now rewrite E.
Qed.

(** X22. From the login to checkAuth. When /api/auth/verify answers
    200, its body is { success: true, token } with the token of
    generateToken for the isAdmin of the request body (false when the body
    has none). Provided the library reads back the token it wrote, and its
    text is not empty and holds no space: the same client, sending that
    text after any one word (Bearer or another, or none before the space)
    in the Authorization header within the lifetime of the token, passes
    checkAuth with the payload of the token in req.user; sending the token
    alone, with no space before it, is refused with 401. *)
Theorem login_token_passes_checkAuth
  (penv : ProcessEnv) (env : Environment) (now_ms : Z) (req : Request)
  (payload : json) (pool pool' : Pool) (reply : Response) :
  auth_verify penv env now_ms req payload pool = (reply, pool') ->
  status reply = 200%Z ->
  exists isAdmin : option json,
    get_prop payload "isAdmin" = Ok isAdmin /\
    let token := issue now_ms isAdmin req in
    body reply = JObj [("success", JBool true); ("token", JStr (jwt_text token))] /\
    (jwt_read (jwt_text token) = token ->
     truthy_string (jwt_text token) = true ->
     count_in " " (jwt_text token) = 0 ->
     forall (scheme : string) (later : Z),
       count_in " " scheme = 0 -> (later / 1000 < now_ms + 86400)%Z ->
       checkAuth later (with_authorization (scheme +:+ " " +:+ jwt_text token) req) =
         inr (token_payload now_ms (admin_flag isAdmin) req) /\
       checkAuth later (with_authorization (jwt_text token) req) =
         inl (error_response 401 "未登录")).
Proof.
  intros Hreply Hstatus.
  destruct (auth_verify_success penv env now_ms req payload pool pool' reply Hreply Hstatus)
    as (candidate & isAdmin & _ & HisAdmin & -> & _ & _).
  exists isAdmin. split; [exact HisAdmin|]. cbv zeta. split; [reflexivity|].
  intros Hread Htruthy Htoken scheme later Hscheme Hlive. split.
  - now apply checkAuth_accepts_login_token.
  - unfold checkAuth. now rewrite (bearer_without_scheme _ req Htoken).
Qed.

(** X23. The admin routes and the admin password. When
    /api/auth/verify answers 200 for a body whose isAdmin is truthy, the
    password of the body is a string equal to ADMIN_PASSWORD of the
    environment, which is set. Under the provisos of X22 on the text of the
    token: with the token of a login whose isAdmin was falsy or missing,
    GET and POST /api/admin/config answer 403 and POST leaves the pool and
    the table as they were; with the token of a login whose isAdmin was
    truthy, GET /api/admin/config answers 200 with what getConfig
    returns. *)
Theorem admin_routes_need_the_admin_password
  (penv : ProcessEnv) (env : Environment) (now_ms : Z) (req : Request)
  (payload : json) (pool pool' : Pool) (reply : Response) :
  auth_verify penv env now_ms req payload pool = (reply, pool') ->
  status reply = 200%Z ->
  exists isAdmin : option json,
    get_prop payload "isAdmin" = Ok isAdmin /\
    (truthy_value isAdmin = true ->
     exists secret : string,
       ADMIN_PASSWORD penv = Some secret /\
       get_prop payload "password" = Ok (Some (JStr secret))) /\
    let token := issue now_ms isAdmin req in
    (jwt_read (jwt_text token) = token ->
     truthy_string (jwt_text token) = true ->
     count_in " " (jwt_text token) = 0 ->
     forall (later assigned : Z) (env2 : Environment) (pool2 : Pool) (rows : Table)
            (update : json),
       (later / 1000 < now_ms + 86400)%Z ->
       let req2 := with_authorization ("Bearer" +:+ " " +:+ jwt_text token) req in
       (truthy_value isAdmin = false ->
        get_admin_config penv env2 later req2 pool2 =
          (error_response 403 "需要管理员权限", pool2) /\
        post_admin_config penv env2 assigned later req2 update pool2 rows =
          (error_response 403 "需要管理员权限", pool2, rows)) /\
       (truthy_value isAdmin = true ->
        fst (get_admin_config penv env2 later req2 pool2) =
          json_response (fst (getConfig env2 (dsn_of penv) pool2)))).
Proof.
  intros Hreply Hstatus.
  destruct (auth_verify_success penv env now_ms req payload pool pool' reply Hreply Hstatus)
    as (candidate & isAdmin & Hpassword & HisAdmin & _ & Hadmin & _).
  exists isAdmin. split; [exact HisAdmin|]. split.
  - intros Hflag. specialize (Hadmin Hflag).
    destruct (ADMIN_PASSWORD penv) as [secret|]; cbn [option_map] in Hadmin.
    + exists secret. split; [reflexivity|].
      apply strict_equal_string in Hadmin. now rewrite Hpassword, Hadmin.
    + destruct candidate; discriminate Hadmin.
  - cbv zeta. intros Hread Htruthy Htoken later assigned env2 pool2 rows update Hlive.
    pose proof (checkAuth_accepts_login_token now_ms later isAdmin req "Bearer"
                  Hread Htruthy Htoken eq_refl Hlive) as Hauth.
    assert (Hflag : checkAdmin (token_payload now_ms (admin_flag isAdmin) req) =
                    if truthy_value isAdmin then None
                    else Some (error_response 403 "需要管理员权限")).
    { unfold checkAdmin, token_payload, optional_member.
      destruct (client_ip req); destruct isAdmin as [v|]; reflexivity. }
    unfold get_admin_config, post_admin_config. rewrite Hauth, Hflag. split.
    + intros ->. split; reflexivity.
    + intros ->. now destruct (getConfig env2 (dsn_of penv) pool2).
Qed.

(** ** Logging in without a database *)

(** X28. Logging in without a database. For a request body with a
    truthy password: when its isAdmin is falsy or missing and the
    environment has no SQL_DSN, or the table configs is reached and holds
    no row, /api/auth/verify answers 200 with a token, whatever the
    password; when its isAdmin is truthy and the environment has no
    ADMIN_PASSWORD, it answers 401, whatever the password. *)
Theorem login_without_a_database
  (penv : ProcessEnv) (env : Environment) (now_ms : Z) (req : Request)
  (payload candidate : json) (isAdmin : option json) (pool : Pool) :
  get_prop payload "password" = Ok (Some candidate) -> truthy candidate = true ->
  get_prop payload "isAdmin" = Ok isAdmin ->
  (truthy_value isAdmin = false ->
   SQL_DSN penv = None \/
   (connects env (dsn_of penv) pool = true /\ latest_config env = Ok []) ->
   fst (auth_verify penv env now_ms req payload pool) =
   json_response (JObj [("success", JBool true);
                        ("token", JStr (jwt_text (issue now_ms isAdmin req)))])) /\
  (truthy_value isAdmin = true -> ADMIN_PASSWORD penv = None ->
   auth_verify penv env now_ms req payload pool = (error_response 401 "密码错误", pool)).
Proof.
  intros Hpassword Htruthy HisAdmin. unfold auth_verify.
  rewrite Hpassword, HisAdmin, Htruthy. split.
  - intros -> Hdb.
    assert (Hvalid : fst (verifyPassword env candidate (dsn_of penv) pool) = true).
    { rewrite fst_verifyPassword. destruct Hdb as [Hnone|[Hc Hrows]].
      - unfold dsn_of. now rewrite Hnone.
      - rewrite (connects_truthy _ _ _ Hc).
        rewrite withConnection_connected by exact Hc.
        unfold check_password. now rewrite Hrows. }
    destruct (verifyPassword env candidate (dsn_of penv) pool) as [valid pool1].
    cbn [fst] in Hvalid. now subst valid.
  - intros -> ->. cbn [option_map].
    now destruct candidate.
Qed.

End Routes.

(** ** A sample deployment *)

(** A stand-in for the compact text of a token: the payload and the
    signature as JSON, in Base64. *)
Definition sample_text (token : Token) : string :=
  match token with
  | Signed payload signature => base64 (JSON_stringify (JArr [payload; JStr signature]))
  | Malformed text => text
  end.

Definition sample_read (text : string) : Token :=
  match Base64.decode (list_ascii_of_string text) with
  | Some bytes =>
      match JSON_parse (string_of_list_ascii bytes) with
      | Some (JArr [payload; JStr signature]) => Signed payload signature
      | _ => Malformed text
      end
  | None => Malformed text
  end.

Definition sample_env : ProcessEnv :=
  {| SQL_DSN := Some "'root:secret@localhost:3306/videos'";
     ADMIN_PASSWORD := Some "letmein" |}.

Definition enabled_login_record : json :=
  JObj [("resourceSites", JArr []); ("enableLogin", JBool true);
        ("loginPassword", JStr "hunter2")].

Definition visitor : Request := request_with (Some "Mozilla/5.0 Chrome/120").

Lemma public_routes_never_send_the_password_witness :
  dsn_of sample_env = sample_dsn /\
  (* login disabled: the configuration goes out without a token, less the password *)
  fst (get_home_config sample_mac sample_secret sample_read sample_env
         (serving disabled_login_record) 1700000000000 visitor None) =
    json_response (JObj [("resourceSites", JArr []); ("enableLogin", JBool false)]) /\
  (* no DSN: the default configuration *)
  property (body (fst (get_home_config sample_mac sample_secret sample_read
                         {| SQL_DSN := None; ADMIN_PASSWORD := None |}
                         (serving disabled_login_record) 1700000000000 visitor None)))
    "customTitle" = Some (JStr "").
Proof.
  split; [reflexivity|]. split; [reflexivity|].
  rewrite (proj2 (proj2 (public_routes_never_send_the_password sample_mac sample_secret
                           sample_read {| SQL_DSN := None; ADMIN_PASSWORD := None |}
                           (serving disabled_login_record) 1700000000000 visitor None))
             eq_refl).
  reflexivity.
Defined.

Definition user_login : json := JObj [("password", JStr "hunter2")].
Definition admin_login : json :=
  JObj [("password", JStr "letmein"); ("isAdmin", JBool true)].

Lemma login_token_passes_checkAuth_witness :
  let first := auth_verify sample_mac sample_secret sample_text sample_env
                 (serving enabled_login_record) 1700000000000 visitor user_login None in
  let token := sample_text (issue sample_mac sample_secret 1700000000000 None visitor) in
  status (fst first) = 200%Z /\
  body (fst first) = JObj [("success", JBool true); ("token", JStr token)] /\
  checkAuth sample_mac sample_secret sample_read 1700000060000
    (with_authorization ("Bearer" +:+ " " +:+ token) visitor) =
    inr (token_payload 1700000000000 (JBool false) visitor) /\
  checkAuth sample_mac sample_secret sample_read 1700000060000
    (with_authorization token visitor) = inl (error_response 401 "未登录").
Proof.
  intros first token.
  destruct first as [reply pool'] eqn:E. cbn [fst].
  assert (Hstatus : status reply = 200%Z).
  { unfold first in E. vm_compute in E. now injection E as <- _. }
  split; [exact Hstatus|].
  destruct (login_token_passes_checkAuth sample_mac sample_secret sample_text sample_read
              sample_env (serving enabled_login_record) 1700000000000 visitor user_login
              None pool' reply E Hstatus) as (isAdmin & HisAdmin & Hbody & Hopen).
  injection HisAdmin as <-. cbv zeta in Hbody, Hopen. split; [exact Hbody|].
  apply (Hopen ltac:(vm_compute; reflexivity) ltac:(vm_compute; reflexivity)
               ltac:(vm_compute; reflexivity) "Bearer" 1700000060000%Z
               ltac:(vm_compute; reflexivity) ltac:(vm_compute; reflexivity)).
Defined.

Lemma admin_routes_need_the_admin_password_witness :
  let user := auth_verify sample_mac sample_secret sample_text sample_env
                (serving enabled_login_record) 1700000000000 visitor user_login None in
  let token := sample_text (issue sample_mac sample_secret 1700000000000 None visitor) in
  status (fst user) = 200%Z /\
  get_admin_config sample_mac sample_secret sample_read sample_env
    (serving enabled_login_record) 1700000060000
    (with_authorization ("Bearer" +:+ " " +:+ token) visitor) None =
  (error_response 403 "需要管理员权限", None).
Proof.
  intros user token.
  destruct user as [reply pool'] eqn:E. cbn [fst].
  assert (Hstatus : status reply = 200%Z).
  { unfold user in E. vm_compute in E. now injection E as <- _. }
  split; [exact Hstatus|].
  destruct (admin_routes_need_the_admin_password sample_mac sample_secret sample_text
              sample_read sample_env (serving enabled_login_record) 1700000000000 visitor
              user_login None pool' reply E Hstatus) as (isAdmin & HisAdmin & _ & Hroutes).
  injection HisAdmin as <-. cbv zeta in Hroutes.
  destruct (Hroutes ltac:(vm_compute; reflexivity) ltac:(vm_compute; reflexivity)
                  ltac:(vm_compute; reflexivity) 1700000060000%Z 1%Z
                  (serving enabled_login_record) None [] JNull
                  ltac:(vm_compute; reflexivity)) as [Huser _].
  exact (proj1 (Huser eq_refl)).
Defined.

Lemma login_without_a_database_witness :
  let no_database := {| SQL_DSN := None; ADMIN_PASSWORD := None |} in
  fst (auth_verify sample_mac sample_secret sample_text no_database
         (serving enabled_login_record) 1700000000000 visitor
         (JObj [("password", JStr "anything at all")]) None) =
    json_response
      (JObj [("success", JBool true);
             ("token", JStr (sample_text (issue sample_mac sample_secret 1700000000000
                                            None visitor)))]) /\
  auth_verify sample_mac sample_secret sample_text no_database
    (serving enabled_login_record) 1700000000000 visitor admin_login None =
    (error_response 401 "密码错误", None).
Proof.
  cbv zeta. split.
  - apply (proj1 (login_without_a_database sample_mac sample_secret sample_text
                    {| SQL_DSN := None; ADMIN_PASSWORD := None |}
                    (serving enabled_login_record) 1700000000000 visitor
                    (JObj [("password", JStr "anything at all")])
                    (JStr "anything at all") None None eq_refl eq_refl eq_refl)).
    + reflexivity.
    + now left.
  - apply (proj2 (login_without_a_database sample_mac sample_secret sample_text
                    {| SQL_DSN := None; ADMIN_PASSWORD := None |}
                    (serving enabled_login_record) 1700000000000 visitor
                    admin_login (JStr "letmein") (Some (JBool true)) None
                    eq_refl eq_refl eq_refl)); reflexivity.
Defined.

End Express.

(** * The password on its way to the admin page: encodeBase64 of the
    server against decodeBase64 of src/api/config.ts *)
Module ClientConfig.

Import Json Js ConfigHandler.

(** ** atob: the forgiving Base64 decoding of the browser *)

(** ASCII white space: tab, line feed, form feed, carriage return, space. *)
Definition is_ascii_whitespace (c : ascii) : bool :=
  let code := N_of_ascii c in
  ((code =? 9) || (code =? 10) || (code =? 12) || (code =? 13) || (code =? 32))%N.

Definition is_pad (c : ascii) : bool := Ascii.eqb c "=".

(** One or two '=' at the end of the data go. *)
Fixpoint strip_padding (s : chars) : chars :=
  match s with
  | [] => []
  | c :: rest =>
      if forallb is_pad (c :: rest) && Nat.leb (List.length (c :: rest)) 2
      then []
      else c :: strip_padding rest
  end.

(** The bytes of the data, four characters for three bytes; two or three
    characters left at the end give one or two bytes, one character left
    is a failure, and so is a character outside the alphabet. *)
Fixpoint decode_groups (s : chars) : option chars :=
  match s with
  | [] => Some []
  | [c1; c2] =>
      match Base64.char_sextet c1, Base64.char_sextet c2 with
      | Some s1, Some s2 =>
          let '(a, _, _) :=
            Base64.ungroup3 (s1, s2, Base64.index_sextet 0, Base64.index_sextet 0) in
          Some [a]
      | _, _ => None
      end
  | [c1; c2; c3] =>
      match Base64.char_sextet c1, Base64.char_sextet c2, Base64.char_sextet c3 with
      | Some s1, Some s2, Some s3 =>
          let '(a, b, _) := Base64.ungroup3 (s1, s2, s3, Base64.index_sextet 0) in
          Some [a; b]
      | _, _, _ => None
      end
  | c1 :: c2 :: c3 :: c4 :: rest =>
      match Base64.char_sextet c1, Base64.char_sextet c2,
            Base64.char_sextet c3, Base64.char_sextet c4, decode_groups rest with
      | Some s1, Some s2, Some s3, Some s4, Some bytes =>
          let '(a, b, c) := Base64.ungroup3 (s1, s2, s3, s4) in
          Some (a :: b :: c :: bytes)
      | _, _, _, _, _ => None
      end
  | _ => None
  end.

Definition forgiving_decode (data : chars) : option chars :=
  let data1 := List.filter (fun c => negb (is_ascii_whitespace c)) data in
  let data2 :=
    if Nat.eqb (Nat.modulo (List.length data1) 4) 0 then strip_padding data1 else data1 in
  decode_groups data2.

(** A character of a binary string in the UTF-8 of this model: a byte
    below 128 is itself, a byte above becomes two. *)
Definition char_of_byte (b : ascii) : chars :=
  let code := N_of_ascii b in
  if (code <? 128)%N then [b]
  else [ascii_of_N (192 + code / 64); ascii_of_N (128 + code mod 64)].

(** [atob(s)] *)
Definition atob (s : string) : result string :=
  match forgiving_decode (list_ascii_of_string s) with
  | Some bytes => Ok (string_of_list_ascii (List.flat_map char_of_byte bytes))
  | None => Throw (Error "InvalidCharacterError")
  end.

(** [decodeBase64(str)] of src/api/config.ts: atob three times, and the
    argument itself when one of them throws. *)
Definition decodeBase64 (str : string) : string :=
  catch (bind (atob str) (fun once => bind (atob once) (fun twice => atob twice)))
        (fun _ => str).

(** ** What encodeBase64 writes, atob reads *)

(** The characters of the encoding without its padding. *)
Fixpoint digits (bs : chars) : chars :=
  match bs with
  | [] => []
  | [a] =>
      let '(s1, s2, _, _) := Base64.group3 a Ascii.zero Ascii.zero in
      [Base64.sextet_char s1; Base64.sextet_char s2]
  | [a; b] =>
      let '(s1, s2, s3, _) := Base64.group3 a b Ascii.zero in
      [Base64.sextet_char s1; Base64.sextet_char s2; Base64.sextet_char s3]
  | a :: b :: c :: rest =>
      let '(s1, s2, s3, s4) := Base64.group3 a b c in
      Base64.sextet_char s1 :: Base64.sextet_char s2 :: Base64.sextet_char s3
        :: Base64.sextet_char s4 :: digits rest
  end.

(** A character below 128. *)
Definition is_ascii (c : ascii) : bool := (N_of_ascii c <? 128)%N.

Definition plain (c : ascii) : bool := negb (is_ascii_whitespace c) && is_ascii c.

Lemma sextet_char_plain (s : Base64.sextet) : plain (Base64.sextet_char s) = true.
Proof. destruct s as [[[[[[] []] []] []] []] []]; vm_compute; reflexivity. Qed.

Lemma encode_plain (bs : chars) : forallb plain (Base64.encode bs) = true.
Proof.
  induction bs as [ | a | a b | a b c l IH ] using Base64.list_ind3.
  - reflexivity.
  - destruct a as [a0 a1 a2 a3 a4 a5 a6 a7]. cbn [Base64.encode Base64.group3 Ascii.zero forallb].
    now rewrite !sextet_char_plain.
  - destruct a as [a0 a1 a2 a3 a4 a5 a6 a7], b as [b0 b1 b2 b3 b4 b5 b6 b7].
    cbn [Base64.encode Base64.group3 Ascii.zero forallb].
    now rewrite !sextet_char_plain.
  - destruct a as [a0 a1 a2 a3 a4 a5 a6 a7], b as [b0 b1 b2 b3 b4 b5 b6 b7],
      c as [c0 c1 c2 c3 c4 c5 c6 c7].
    cbn [Base64.encode Base64.group3 forallb].
    now rewrite !sextet_char_plain, IH.
Qed.

Lemma filter_plain (s : chars) :
  forallb plain s = true ->
  List.filter (fun c => negb (is_ascii_whitespace c)) s = s.
Proof.
  induction s as [|c rest IH]; [reflexivity|]. cbn [forallb List.filter].
  unfold plain at 1. rewrite !andb_true_iff. intros [[Hc _] Hrest].
  rewrite Hc. f_equal. now apply IH.
Qed.

Lemma flat_map_ascii (s : chars) :
  forallb is_ascii s = true -> List.flat_map char_of_byte s = s.
Proof.
  induction s as [|c rest IH]; [reflexivity|]. cbn [forallb List.flat_map].
  rewrite andb_true_iff. intros [Hc Hrest].
  unfold char_of_byte. unfold is_ascii in Hc. rewrite Hc. cbn [app]. f_equal. now apply IH.
Qed.

Lemma plain_ascii (s : chars) : forallb plain s = true -> forallb is_ascii s = true.
Proof.
  induction s as [|c rest IH]; [reflexivity|]. cbn [forallb].
  unfold plain at 1. rewrite !andb_true_iff. intros [[_ Hc] Hrest]. auto.
Qed.

Lemma encode_length (bs : chars) : Nat.modulo (List.length (Base64.encode bs)) 4 = 0.
Proof.
  induction bs as [ | a | a b | a b c l IH ] using Base64.list_ind3.
  - reflexivity.
  - destruct a as [a0 a1 a2 a3 a4 a5 a6 a7]. reflexivity.
  - destruct a as [a0 a1 a2 a3 a4 a5 a6 a7], b as [b0 b1 b2 b3 b4 b5 b6 b7]. reflexivity.
  - destruct a as [a0 a1 a2 a3 a4 a5 a6 a7], b as [b0 b1 b2 b3 b4 b5 b6 b7],
      c as [c0 c1 c2 c3 c4 c5 c6 c7].
    cbn [Base64.encode Base64.group3 List.length].
    change (S (S (S (S ?n)))) with (4 + n).
    rewrite <- (Nat.Div0.add_mod_idemp_r 4 _ 4), IH. reflexivity.
Qed.

Lemma strip_padding_cons (c : ascii) (rest : chars) :
  is_pad c = false -> strip_padding (c :: rest) = c :: strip_padding rest.
Proof. intros Hc. cbn [strip_padding forallb]. now rewrite Hc. Qed.

Lemma sextet_char_is_not_pad (s : Base64.sextet) : is_pad (Base64.sextet_char s) = false.
Proof. apply Base64.sextet_char_not_pad. Qed.

Lemma strip_padding_encode (bs : chars) : strip_padding (Base64.encode bs) = digits bs.
Proof.
  induction bs as [ | a | a b | a b c l IH ] using Base64.list_ind3.
  - reflexivity.
  - destruct a as [a0 a1 a2 a3 a4 a5 a6 a7]. cbn [Base64.encode digits Base64.group3 Ascii.zero].
    rewrite !strip_padding_cons by apply sextet_char_is_not_pad. reflexivity.
  - destruct a as [a0 a1 a2 a3 a4 a5 a6 a7], b as [b0 b1 b2 b3 b4 b5 b6 b7].
    cbn [Base64.encode digits Base64.group3 Ascii.zero].
    rewrite !strip_padding_cons by apply sextet_char_is_not_pad. reflexivity.
  - destruct a as [a0 a1 a2 a3 a4 a5 a6 a7], b as [b0 b1 b2 b3 b4 b5 b6 b7],
      c as [c0 c1 c2 c3 c4 c5 c6 c7].
    cbn [Base64.encode digits Base64.group3].
    rewrite !strip_padding_cons by apply sextet_char_is_not_pad. now rewrite IH.
Qed.

Lemma decode_groups_digits (bs : chars) : decode_groups (digits bs) = Some bs.
Proof.
  induction bs as [ | a | a b | a b c l IH ] using Base64.list_ind3.
  - reflexivity.
  - destruct a as [a0 a1 a2 a3 a4 a5 a6 a7]. cbn [digits Base64.group3 Ascii.zero decode_groups].
    rewrite !Base64.char_sextet_char. reflexivity.
  - destruct a as [a0 a1 a2 a3 a4 a5 a6 a7], b as [b0 b1 b2 b3 b4 b5 b6 b7].
    cbn [digits Base64.group3 Ascii.zero decode_groups].
    rewrite !Base64.char_sextet_char. reflexivity.
  - destruct a as [a0 a1 a2 a3 a4 a5 a6 a7], b as [b0 b1 b2 b3 b4 b5 b6 b7],
      c as [c0 c1 c2 c3 c4 c5 c6 c7].
    cbn [digits Base64.group3 decode_groups].
    rewrite !Base64.char_sextet_char, IH. reflexivity.
Qed.

Lemma forgiving_decode_encode (bs : chars) :
  forgiving_decode (Base64.encode bs) = Some bs.
Proof.
  unfold forgiving_decode. rewrite (filter_plain _ (encode_plain bs)).
  rewrite encode_length. cbn [Nat.eqb]. rewrite strip_padding_encode.
  apply decode_groups_digits.
Qed.

(** [atob] of a Base64 encoding gives the encoded bytes back when they
    are plain ASCII. *)
Lemma atob_encode (bs : chars) :
  forallb is_ascii bs = true ->
  atob (string_of_list_ascii (Base64.encode bs)) = Ok (string_of_list_ascii bs).
Proof.
  intros Hplain. unfold atob.
  rewrite list_ascii_of_string_of_list_ascii, forgiving_decode_encode.
  now rewrite (flat_map_ascii bs Hplain).
Qed.

(** Every character of the string is below 128. *)
Definition ascii_text (s : string) : bool := forallb is_ascii (list_ascii_of_string s).

(** X24. The password the server encodes for transport is the password
    the admin page shows. For every password made of ASCII characters,
    decodeBase64 of the client, applied to what encodeBase64 of the server
    makes of the password, is the password. *)
Theorem client_decodes_what_the_server_encodes (env : Environment) (secret : string) :
  ascii_text secret = true ->
  exists sent : string,
    encodeBase64 env (JStr secret) = Ok sent /\ decodeBase64 sent = secret.
Proof.
  unfold ascii_text. intros Hascii. eexists. split; [reflexivity|].
  unfold decodeBase64, base64_thrice.
  rewrite atob_encode by apply plain_ascii, encode_plain. cbn [bind].
  rewrite atob_encode by apply plain_ascii, encode_plain. cbn [bind].
  rewrite atob_encode by exact Hascii. cbn [catch].
  apply string_of_list_ascii_of_string.
Qed.

Lemma client_decodes_what_the_server_encodes_witness :
  ascii_text "open sesame" = true /\
  encodeBase64 (serving JNull) (JStr "open sesame") = Ok "WWpOQ2JHSnBRbnBhV0U1b1lsZFZQUT09" /\
  decodeBase64 "WWpOQ2JHSnBRbnBhV0U1b1lsZFZQUT09" = "open sesame".
Proof.
  split; [reflexivity|].
  destruct (client_decodes_what_the_server_encodes (serving JNull) "open sesame" eq_refl)
    as (sent & Hsent & Hback).
  assert (E : sent = "WWpOQ2JHSnBRbnBhV0U1b1lsZFZQUT09").
  { vm_compute in Hsent. now injection Hsent as <-. }
  subst sent. split; [exact Hsent | exact Hback].
Defined.

End ClientConfig.

(** * src/server/config-handler.js: verifyPassword and updateConfig *)
Module ServerWrites.

Import Json Js Dsn ServerConfigHandler.

(** The callback of verifyPassword. *)
Definition check_password (password : json) (env : Environment) : result json :=
  match getDbConnectionInfo env with
  | Some (mysql_type, _) =>
      bind (ConfigHandler.latest_config (mysql env)) (fun rows =>
        match rows with
        | cell :: _ =>
            bind (decode_cell cell) (fun dbConfig =>
            bind (get_prop dbConfig "loginPassword") (fun stored =>
              Ok (JBool (strict_equal (Some password) stored))))
        | [] => Ok (JBool true)
        end)
  | _ =>
      bind (pg_latest_config env) (fun rows =>
        match rows with
        | dbConfig :: _ =>
            bind (get_prop dbConfig "loginPassword") (fun stored =>
              Ok (JBool (strict_equal (Some password) stored)))
        | [] => Ok (JBool true)
        end)
  end.

(** [verifyPassword(password)]: what the promise resolves to. *)
Definition verifyPassword (env : Environment) (password : json)
  (pool : ConfigHandler.Pool) : json * ConfigHandler.Pool :=
  let '(r, pool') := withDatabaseConnection env pool (check_password password) in
  (catch r (fun _ => JBool false), pool').

(** The statements of a write, on the server of the given type: SELECT id
    ... LIMIT 1, then UPDATE or INSERT with the value bound to the config
    column. *)
Definition Store : Type := DbType -> json -> result unit.

Definition updated : json :=
  JObj [("success", JBool true); ("message", JStr "配置更新成功！")].

Definition failed (e : js_error) : json :=
  JObj [("success", JBool false); ("message", JStr (ConfigTable.error_message e))].

(** The callback of updateConfig: the copy of the configuration goes to
    MySQL as JSON text and to Postgres as it is. *)
Definition write_config (store : Store) (config : json) (env : Environment) : result json :=
  let configToUpdate := JObj (ConfigTable.spread config) in
  match getDbConnectionInfo env with
  | Some (mysql_type, _) =>
      bind (store mysql_type (JStr (JSON_stringify configToUpdate))) (fun _ => Ok updated)
  | _ =>
      bind (store postgresql_type configToUpdate) (fun _ => Ok updated)
  end.

(** [updateConfig(config)] *)
Definition updateConfig (store : Store) (env : Environment) (config : json)
  (pool : ConfigHandler.Pool) : json * ConfigHandler.Pool :=
  let '(r, pool') := withDatabaseConnection env pool (write_config store config) in
  (catch r failed, pool').

(** X25. Without SQL_DSN and PG_CONNECTION_STRING in the environment,
    withDatabaseConnection returns the default configuration without
    calling its callback. So verifyPassword resolves to that object, not
    to a boolean, and the object is truthy: every candidate passes a test
    of the answer; updateConfig resolves to the same object, which has
    neither success nor message, and writes nothing; getConfig returns
    the default configuration. *)
Theorem without_connection_info_every_call_returns_the_default
  (env : Environment) (pool : ConfigHandler.Pool) (store : Store) (value : json) :
  truthy_opt (SQL_DSN (process_env env)) = false ->
  truthy_opt (PG_CONNECTION_STRING (process_env env)) = false ->
  (forall callback : Environment -> result json,
     withDatabaseConnection env pool callback = (Ok ConfigHandler.defaultConfig, pool)) /\
  verifyPassword env value pool = (ConfigHandler.defaultConfig, pool) /\
  truthy (fst (verifyPassword env value pool)) = true /\
  updateConfig store env value pool = (ConfigHandler.defaultConfig, pool) /\
  get_prop (fst (updateConfig store env value pool)) "success" = Ok None /\
  get_prop (fst (updateConfig store env value pool)) "message" = Ok None /\
  getConfig env pool = (ConfigHandler.defaultConfig, pool).
Proof.
  intros Hsql Hpg.
  assert (Hnone : getDbConnectionInfo env = None).
  { unfold getDbConnectionInfo. cbv zeta. now rewrite Hsql, Hpg. }
  assert (Hwith : forall callback : Environment -> result json,
            withDatabaseConnection env pool callback = (Ok ConfigHandler.defaultConfig, pool)).
  { intros callback. unfold withDatabaseConnection. now rewrite Hnone. }
  split; [exact Hwith|].
  unfold verifyPassword, updateConfig, getConfig. rewrite !Hwith.
  repeat split; reflexivity.
Qed.

Definition bare_environment : Environment :=
  {| process_env := {| SQL_DSN := None; PG_CONNECTION_STRING := Some "" |};
     mysql := ConfigHandler.serving ConfigHandler.disabled_login_record;
     pg_connects := fun _ => true;
     pg_creates_table := true;
     pg_latest_config := Ok [ConfigHandler.disabled_login_record] |}.

Lemma without_connection_info_every_call_returns_the_default_witness :
  truthy_opt (SQL_DSN (process_env bare_environment)) = false /\
  truthy_opt (PG_CONNECTION_STRING (process_env bare_environment)) = false /\
  fst (verifyPassword bare_environment (JStr "not the password") None) =
    ConfigHandler.defaultConfig /\
  fst (updateConfig (fun _ _ => Ok tt) bare_environment (JObj [("enableLogin", JBool true)])
         None) = ConfigHandler.defaultConfig.
Proof.
  split; [reflexivity|]. split; [reflexivity|].
  split.
  - destruct (without_connection_info_every_call_returns_the_default bare_environment None
                (fun _ _ => Ok tt) (JStr "not the password") eq_refl eq_refl)
      as (_ & -> & _). reflexivity.
  - destruct (without_connection_info_every_call_returns_the_default bare_environment None
                (fun _ _ => Ok tt) (JObj [("enableLogin", JBool true)]) eq_refl eq_refl)
      as (_ & _ & _ & -> & _). reflexivity.
Defined.

End ServerWrites.

(** * src/utils/db.ts: initializeDatabase and withDatabase *)
Module UtilsDb.

Import Json Js Dsn.
Import ServerConfigHandler (ProcessEnv, SQL_DSN, PG_CONNECTION_STRING, DbType,
                            mysql_type, postgresql_type).

(** What lies outside the module. *)
Record Outside : Type := {
  process_env : ProcessEnv;
  (* pool.getConnection() succeeds for these options *)
  mysql_accepts : PoolOptions -> bool;
  (* CREATE TABLE IF NOT EXISTS configs succeeds on MySQL *)
  mysql_creates_table : bool;
  (* the client for this connection string runs CREATE TABLE IF NOT EXISTS *)
  pg_creates_table : string -> bool
}.

(** The module variables [mysqlPool] and [pgClient]. *)
Record Singletons : Type := {
  mysqlPool : option PoolOptions;
  pgClient : option string
}.

(** What initializeDatabase returns: the pool or the client. *)
Inductive Handle : Type :=
| MysqlPool (options : PoolOptions)
| PgClient (connectionString : string).

(** [getDbConnectionInfo()] *)
Definition getDbConnectionInfo (out : Outside) : option (DbType * string) :=
  let sqlDsn := SQL_DSN (process_env out) in
  let pgConnectionString := PG_CONNECTION_STRING (process_env out) in
  if truthy_opt sqlDsn then Some (mysql_type, or_else sqlDsn "")
  else if truthy_opt pgConnectionString
       then Some (postgresql_type, or_else pgConnectionString "")
       else None.

(** [s.includes(pattern)] *)
Fixpoint includes (pattern s : chars) : bool :=
  match strip_prefix pattern s with
  | Some _ => true
  | None =>
      match s with
      | [] => false
      | _ :: rest => includes pattern rest
      end
  end.

(** [s.includes('postgresql:') ? 'postgresql' : 'mysql'] *)
Definition type_of_string (s : string) : DbType :=
  if includes (list_ascii_of_string "postgresql:") (list_ascii_of_string s)
  then postgresql_type else mysql_type.

(** [initializeDatabase(forceConnectionString)]: what it returns (null is
    [None]) and the module variables afterwards. *)
Definition initializeDatabase (out : Outside) (forceConnectionString : option string)
  (vars : Singletons) : option Handle * Singletons :=
  let connInfo :=
    match forceConnectionString with
    | Some forced =>
        if truthy_string forced then Some (type_of_string forced, forced)
        else getDbConnectionInfo out
    | None => getDbConnectionInfo out
    end in
  match connInfo with
  | None => (None, vars)
  | Some (mysql_type, connectionString) =>
      match mysqlPool vars with
      | Some options => (Some (MysqlPool options), vars)
      | None =>
          match parseDSN connectionString with
          | Ok options =>
              if mysql_accepts out options && mysql_creates_table out
              then (Some (MysqlPool options),
                    {| mysqlPool := Some options; pgClient := pgClient vars |})
              else (None, {| mysqlPool := None; pgClient := pgClient vars |})
          | Throw _ => (None, {| mysqlPool := None; pgClient := pgClient vars |})
          end
      end
  | Some (postgresql_type, connectionString) =>
      match pgClient vars with
      | Some client => (Some (PgClient client), vars)
      | None =>
          if pg_creates_table out connectionString
          then (Some (PgClient connectionString),
                {| mysqlPool := mysqlPool vars; pgClient := Some connectionString |})
          else (None, {| mysqlPool := mysqlPool vars; pgClient := None |})
      end
  end.

Definition no_getConnection : js_error := TypeError "mysqlDb.getConnection is not a function".

(** [withDatabase(callback, connectionString)]. The callback gets what it
    is handed (a connection of the pool, or the client) and the type it is
    told. The type comes from the environment first, and from the
    connection string only when the environment names no database. *)
Definition withDatabase {A : Type} (out : Outside)
  (callback : Handle -> DbType -> result A) (connectionString : option string)
  (vars : Singletons) : result A * Singletons :=
  let '(db, vars') := initializeDatabase out connectionString vars in
  match db with
  | None => (Throw (Error "无法初始化数据库连接"), vars')
  | Some handle =>
      let dbType :=
        match getDbConnectionInfo out with
        | Some (type, _) => type
        | None =>
            match connectionString with
            | Some forced => type_of_string forced
            | None => mysql_type
            end
        end in
      match dbType with
      | mysql_type =>
          match handle with
          | MysqlPool options =>
              if mysql_accepts out options
              then (callback (MysqlPool options) mysql_type, vars')
              else (Throw (Error "getConnection failed"), vars')
          | PgClient _ => (Throw no_getConnection, vars')
          end
      | postgresql_type => (callback handle postgresql_type, vars')
      end
  end.

Lemma includes_truthy (s : string) :
  type_of_string s = postgresql_type -> truthy_string s = true.
Proof.
  unfold type_of_string. destruct s; [|reflexivity]. cbn. discriminate.
Qed.

(** X26. withDatabase takes the type of the database from the
    environment even when the connection string it is given is of the
    other kind. With SQL_DSN set and a connection string that holds
    "postgresql:", initializeDatabase opens (or reuses) the Postgres
    client, and withDatabase then treats it as a MySQL pool: it fails,
    with a TypeError when the client was obtained, and never calls its
    callback. With only PG_CONNECTION_STRING set and a connection string
    without "postgresql:", a MySQL pool that initializeDatabase obtains is
    handed to the callback as a Postgres client. *)
Theorem withDatabase_trusts_the_environment_for_the_type
  (out : Outside) (forced : string) (vars : Singletons) :
  (truthy_opt (SQL_DSN (process_env out)) = true ->
   type_of_string forced = postgresql_type ->
   forall (A : Type) (callback : Handle -> DbType -> result A),
     exists e : js_error,
       fst (withDatabase out callback (Some forced) vars) = Throw e /\
       (fst (initializeDatabase out (Some forced) vars) <> None -> e = no_getConnection)) /\
  (truthy_opt (SQL_DSN (process_env out)) = false ->
   truthy_opt (PG_CONNECTION_STRING (process_env out)) = true ->
   truthy_string forced = true -> type_of_string forced = mysql_type ->
   forall (A : Type) (callback : Handle -> DbType -> result A) (options : PoolOptions),
     fst (initializeDatabase out (Some forced) vars) = Some (MysqlPool options) ->
     fst (withDatabase out callback (Some forced) vars) =
     callback (MysqlPool options) postgresql_type).
Proof.
  split.
  - intros Hsql Htype A callback. pose proof (includes_truthy forced Htype) as Htruthy.
    unfold withDatabase, initializeDatabase. rewrite Htruthy, Htype.
    assert (Hinfo : exists dsn, getDbConnectionInfo out = Some (mysql_type, dsn)).
    { unfold getDbConnectionInfo. cbv zeta. rewrite Hsql. eauto. }
    destruct Hinfo as [dsn ->].
    destruct (pgClient vars) as [client|]; cbn.
    + exists no_getConnection. split; reflexivity.
    + destruct (pg_creates_table out forced); cbn.
      * exists no_getConnection. split; reflexivity.
      * eexists. split; [reflexivity|]. intros Hno. now contradiction Hno.
  - intros Hsql Hpg Htruthy Htype A callback options Hinit.
    unfold withDatabase. destruct (initializeDatabase out (Some forced) vars) as [db vars'].
    cbn [fst] in Hinit. subst db.
    assert (Hinfo : exists conn, getDbConnectionInfo out = Some (postgresql_type, conn)).
    { unfold getDbConnectionInfo. cbv zeta. rewrite Hsql, Hpg. eauto. }
    destruct Hinfo as [conn ->]. reflexivity.
Qed.

Definition mysql_in_the_environment : Outside :=
  {| process_env := {| SQL_DSN := Some "root:secret@localhost:3306/videos";
                       PG_CONNECTION_STRING := None |};
     mysql_accepts := fun _ => true;
     mysql_creates_table := true;
     pg_creates_table := fun _ => true |}.

Definition postgres_in_the_environment : Outside :=
  {| process_env := {| SQL_DSN := None;
                       PG_CONNECTION_STRING := Some "postgresql://app@pg.local/videos" |};
     mysql_accepts := fun _ => true;
     mysql_creates_table := true;
     pg_creates_table := fun _ => true |}.

(** A callback that tells which type it was told. *)
Definition told (handle : Handle) (type : DbType) : result DbType := Ok type.

Lemma withDatabase_trusts_the_environment_for_the_type_witness :
  let nothing := {| mysqlPool := None; pgClient := None |} in
  (truthy_opt (SQL_DSN (process_env mysql_in_the_environment)) = true /\
   type_of_string "postgresql://app@pg.local/videos" = postgresql_type /\
   withDatabase mysql_in_the_environment told (Some "postgresql://app@pg.local/videos")
     nothing =
   (Throw no_getConnection,
    {| mysqlPool := None; pgClient := Some "postgresql://app@pg.local/videos" |})) /\
  (type_of_string "root:secret@localhost:3306/videos" = mysql_type /\
   fst (withDatabase postgres_in_the_environment told
          (Some "root:secret@localhost:3306/videos") nothing) = Ok postgresql_type).
Proof.
  cbv zeta. split.
  - split; [reflexivity|]. split; [reflexivity|].
    destruct (proj1 (withDatabase_trusts_the_environment_for_the_type
                       mysql_in_the_environment "postgresql://app@pg.local/videos"
                       {| mysqlPool := None; pgClient := None |})
                eq_refl eq_refl DbType told) as (e & He & Hkind).
    destruct (withDatabase mysql_in_the_environment told _ _) as [r vars'] eqn:E.
    cbn [fst] in He. subst r. rewrite (Hkind ltac:(discriminate)).
    vm_compute in E. injection E as _ <-. reflexivity.
  - split; [reflexivity|].
    destruct (initializeDatabase postgres_in_the_environment
                (Some "root:secret@localhost:3306/videos")
                {| mysqlPool := None; pgClient := None |}) as [db vars'] eqn:E.
    assert (Hdb : exists options, db = Some (MysqlPool options)).
    { vm_compute in E. injection E as <- _. eauto. }
    destruct Hdb as [options ->].
    rewrite (proj2 (withDatabase_trusts_the_environment_for_the_type
                      postgres_in_the_environment "root:secret@localhost:3306/videos"
                      {| mysqlPool := None; pgClient := None |})
               eq_refl eq_refl eq_refl eq_refl DbType told options).
    + reflexivity.
    + now rewrite E.
Defined.

End UtilsDb.
